(** * Intro to ML with TensorFlow: the notebooks' own code

    A model of the code cells of three lesson notebooks:
    - Part 1, Introduction to Neural Networks with TensorFlow (exercise),
    - Part 3, Training Neural Networks (exercise),
    - Part 8, Transfer Learning (exercise).

    Two layers are modelled.

    - The value layer: tensors as a shape with row-major data, the
      framework operations the cells call on them, and the three
      functions the notebooks define ([sigmoid_activation], [normalize],
      [format_image]) together with the dataset pipelines.
    - The effect layer: every code cell as a program in a small
      state-and-exception monad over a [world] that records what a run of
      the notebook can be observed to do (printed text, figures, files,
      tool caches, definitions, calls on the Keras model).

    Number types. A [uint8] pixel is an integer (Z) with its range
    [0, 255] stated where it is needed. A [float32] value is modelled as
    a real number where a statement is about shapes, about the order of
    operations or about values that rounding does not move out of their
    range; such a statement is about the exact arithmetic the code denotes.
    Where rounding and overflow decide, as for the bounds of
    [sigmoid_activation], the values are IEEE 754 binary32 numbers
    (module [Float32]). *)

From Stdlib Require Import Reals Lra Lia ZArith List String.
From stdpp Require Import gmap strings.
Import ListNotations.

Set Default Proof Using "Type".

(** ** Exceptions and results *)

(** The reasons the framework gives for an [InvalidArgumentError] in the
    operations modelled here. *)
Inductive invalid_argument : Type :=
  | MatrixSizeIncompatible (in0 in1 : list nat)
  | NotAMatrix (in0 in1 : list nat)
  | IncompatibleShapes (s1 s2 : list nat)
  | CannotBatchShapes (s1 s2 : list nat)
  | BadImageShape (s : list nat)
  | BadBatchSize
  | BadBufferSize.

(** The Python exceptions a cell can end with. *)
Inductive exn : Type :=
  | InvalidArgumentError (why : invalid_argument)
  | SyntaxError
  | NameError (name : string)
  | TypeError
  | ValueError.

Inductive result (A : Type) : Type :=
  | Ok (a : A)
  | Raise (e : exn).
Arguments Ok {A} a.
Arguments Raise {A} e.

Definition result_bind {A B} (r : result A) (k : A -> result B) : result B :=
  match r with
  | Ok a => k a
  | Raise e => Raise e
  end.

Definition result_map {A B} (f : A -> B) (r : result A) : result B :=
  result_bind r (fun a => Ok (f a)).

Declare Scope result_scope.
Delimit Scope result_scope with result.
Notation "'let!' x ':=' r 'in' k" := (result_bind r (fun x => k))
  (at level 10, x pattern, r at level 100, k at level 200) : result_scope.

(** ** Tensors *)

(** Modelled from the spec: tensors and the operations on them are the
    framework's and NumPy's; the notebooks only call them. Each operation
    is given the meaning the notebooks' text and the libraries'
    documentation give it, on the number types above. *)

Module Tensor.

(** A tensor is its shape and its elements in row-major order. *)
Record tensor (A : Type) : Type := mk_tensor {
  shape : list nat;
  data : list A
}.
Arguments mk_tensor {A} shape data.
Arguments shape {A} t.
Arguments data {A} t.

(** Number of elements a shape calls for. *)
Definition numel (s : list nat) : nat := fold_right Nat.mul 1%nat s.

Definition well_formed {A} (t : tensor A) : Prop :=
  length (data t) = numel (shape t).

(** A rank-0 tensor, as made from a Python number. *)
Definition tf_constant {A} (x : A) : tensor A := mk_tensor [] [x].

(** Apply a scalar function at every element; the shape is kept. *)
Definition tensor_map {A B} (f : A -> B) (t : tensor A) : tensor B :=
  mk_tensor (shape t) (map f (data t)).

(** The single element of a one-element tensor ([t.numpy().item()]). *)
Definition item (t : tensor R) : R := nth 0 (data t) 0%R.

Section Elementwise.
Local Open Scope R_scope.

(** [tf.cast(t, tf.float32)] on an integer tensor. *)
Definition tf_cast (t : tensor Z) : tensor R := tensor_map IZR t.

(** [-t] *)
Definition tf_neg (t : tensor R) : tensor R := tensor_map Ropp t.

(** [tf.exp(t)] *)
Definition tf_exp (t : tensor R) : tensor R := tensor_map exp t.

(** [c + t] for a Python number [c]: the number is broadcast to every
    element. *)
Definition radd (c : R) (t : tensor R) : tensor R :=
  tensor_map (fun v => c + v) t.

(** [c / t] for a Python number [c]. *)
Definition rtruediv (c : R) (t : tensor R) : tensor R :=
  tensor_map (fun v => c / v) t.

(** [t / c] (and [t /= c]) for a Python number [c]. *)
Definition truediv (t : tensor R) (c : R) : tensor R :=
  tensor_map (fun v => v / c) t.

(** [c * t] for a Python number [c]. *)
Definition rmul (c : R) (t : tensor R) : tensor R :=
  tensor_map (fun v => c * v) t.

(** [t ** k] for a Python integer [k >= 0]. *)
Definition tf_pow (t : tensor R) (k : nat) : tensor R :=
  tensor_map (fun v => v ^ k) t.

End Elementwise.

(** *** Broadcasting *)

(** The broadcast of two shapes, both given innermost dimension first:
    dimensions are paired from the right, two paired dimensions must be
    equal or one of them 1, and the longer shape supplies the rest. *)
Fixpoint broadcast_rev (s1 s2 : list nat) : option (list nat) :=
  match s1, s2 with
  | [], s => Some s
  | s, [] => Some s
  | d1 :: r1, d2 :: r2 =>
      match broadcast_rev r1 r2 with
      | None => None
      | Some r =>
          if (d1 =? d2)%nat then Some (d1 :: r)
          else if (d1 =? 1)%nat then Some (d2 :: r)
          else if (d2 =? 1)%nat then Some (d1 :: r)
          else None
      end
  end.

Definition broadcast_shapes (s1 s2 : list nat) : option (list nat) :=
  option_map (@rev nat) (broadcast_rev (rev s1) (rev s2)).

(** Row-major position in the source of the element that lands at
    row-major position [i] of the target. Shapes are given innermost
    dimension first; a source dimension of size 1 is repeated along the
    target, a missing (leading) source dimension as well. *)
Fixpoint source_index (src_rev tgt_rev : list nat) (i stride : nat) : nat :=
  match tgt_rev, src_rev with
  | t :: tgt', d :: src' =>
      ((if (d =? 1)%nat then 0 else (i mod t) * stride)
       + source_index src' tgt' (i / t) (stride * d))%nat
  | _, _ => 0%nat
  end.

Definition broadcast_to (t : tensor R) (target : list nat) : tensor R :=
  mk_tensor target
    (map (fun i =>
            nth (source_index (rev (shape t)) (rev target) i 1) (data t) 0%R)
         (seq 0 (numel target))).

(** A binary elementwise operation with broadcasting. *)
Definition tf_binary (op : R -> R -> R) (a b : tensor R) : result (tensor R) :=
  match broadcast_shapes (shape a) (shape b) with
  | None => Raise (InvalidArgumentError (IncompatibleShapes (shape a) (shape b)))
  | Some s =>
      Ok (mk_tensor s
            (zip_with op (data (broadcast_to a s)) (data (broadcast_to b s))))
  end.

(** [tf.add(a, b)], also written [a + b]. *)
Definition tf_add : tensor R -> tensor R -> result (tensor R) :=
  tf_binary Rplus.


(** [a - b] *)
Definition tf_subtract : tensor R -> tensor R -> result (tensor R) :=
  tf_binary Rminus.

(** *** Reductions *)

Definition sum_list (l : list R) : R := fold_right Rplus 0%R l.


(** [np.abs(t)] *)
Definition np_abs (t : tensor R) : tensor R := tensor_map Rabs t.

(** [t.max()]: the largest element; NumPy raises [ValueError] on an empty
    array. *)
Definition np_max (t : tensor R) : result R :=
  match data t with
  | [] => Raise ValueError
  | v :: rest => Ok (fold_left Rmax rest v)
  end.

(** [tf.ones_like(t)] *)
Definition tf_ones_like (t : tensor R) : tensor R :=
  tensor_map (fun _ => 1%R) t.

(** *** Matrix multiplication *)

(** Element [(i, j)] of row-major data with [cols] columns. *)
Definition entry (cols : nat) (d : list R) (i j : nat) : R :=
  nth (i * cols + j) d 0%R.

(** The transpose of [rows] by [cols] row-major data. *)
Definition transpose_data (rows cols : nat) (d : list R) : list R :=
  flat_map (fun j => map (fun i => entry cols d i j) (seq 0 rows)) (seq 0 cols).

(** The product of an [r1] by [c1] matrix and a [c1] by [c2] matrix. *)
Definition matmul_data (r1 c1 c2 : nat) (d1 d2 : list R) : list R :=
  flat_map
    (fun i =>
       map (fun j =>
              sum_list (map (fun k => (entry c1 d1 i k * entry c2 d2 k j)%R)
                            (seq 0 c1)))
           (seq 0 c2))
    (seq 0 r1).

(** A rank-2 operand as the multiplication sees it: transposed when its
    flag says so. The operand itself is not touched. *)
Definition operand (t : tensor R) (transposed : bool)
  : option (nat * nat * list R) :=
  match shape t with
  | [r; c] =>
      if transposed then Some (c, r, transpose_data r c (data t))
      else Some (r, c, data t)
  | _ => None
  end.

(** Modelled from the spec: [tf.matmul] is the framework's, the notebook
    only calls it; its rule is taken from the notebook's text.
    [tf.matmul(a, b, transpose_a=..., transpose_b=...)] on matrices.
    The columns of the first operand must be as many as the rows of the
    second; otherwise the framework raises
    [InvalidArgumentError: Matrix size-incompatible: In[0]: ..., In[1]: ...].
    Operands of rank other than 2 are reported as not being matrices
    (the batched product of higher ranks is not modelled). *)
Definition tf_matmul (a b : tensor R) (transpose_a transpose_b : bool)
  : result (tensor R) :=
  match operand a transpose_a, operand b transpose_b with
  | Some (r1, c1, d1), Some (r2, c2, d2) =>
      if (c1 =? r2)%nat
      then Ok (mk_tensor [r1; c2] (matmul_data r1 c1 c2 d1 d2))
      else Raise (InvalidArgumentError
                    (MatrixSizeIncompatible (shape a) (shape b)))
  | _, _ => Raise (InvalidArgumentError (NotAMatrix (shape a) (shape b)))
  end.

End Tensor.
Export Tensor.

(** ** Part 1: Introduction to Neural Networks with TensorFlow *)

Module Part1.
Local Open Scope R_scope.

(** [def sigmoid_activation(x): return 1/(1+tf.exp(-x))] *)
Definition sigmoid_activation (x : tensor R) : tensor R :=
  rtruediv 1 (radd 1 (tf_exp (tf_neg x))).

Local Open Scope result_scope.




End Part1.

(** ** Datasets *)

(** Modelled from the spec: the data set methods are the framework's; a
    pipeline is modelled by the elements it yields. *)

Module Dataset.

(** A dataset is the finite sequence of elements an iteration yields; a
    supervised element is an image with its label. *)
Definition dataset (A : Type) : Type := list A.

(** Run a function that can raise over a list, stopping at the first
    exception. *)
Fixpoint result_all {A B} (f : A -> result B) (l : list A) : result (list B) :=
  match l with
  | [] => Ok []
  | x :: l' =>
      match f x with
      | Raise e => Raise e
      | Ok y => result_map (cons y) (result_all f l')
      end
  end.

(** [ds.map(f)] for a function of the image and the label. *)
Definition ds_map {A L B M} (f : A -> L -> B * M)
    (ds : dataset (A * L)) : dataset (B * M) :=
  map (fun '(image, label) => f image label) ds.

(** [ds.map(f)] when [f] can raise. *)
Definition ds_map_result {A L B M} (f : A -> L -> result (B * M))
    (ds : dataset (A * L)) : result (dataset (B * M)) :=
  result_all (fun '(image, label) => f image label) ds.

(** [ds.cache()] and [ds.prefetch(n)] change when elements are computed,
    not which elements are yielded. *)
Definition ds_cache {A} (ds : dataset A) : dataset A := ds.
Definition ds_prefetch {A} (n : nat) (ds : dataset A) : dataset A := ds.

(** [ds.shuffle(buffer)]: the elements in the order the framework's random
    generator visits them. [order] lists the visited positions. *)
Definition ds_shuffle {A} (order : list nat) (ds : dataset A) : dataset A :=
  flat_map (fun i => match nth_error ds i with
                     | Some x => [x]
                     | None => []
                     end) order.

(** Groups of [b] consecutive elements; the last group may be shorter.
    [cur] holds the group being filled, newest element first, and [room]
    the number of elements it still takes. *)
Fixpoint chunks_from {A} (b : nat) (cur : list A) (room : nat) (l : list A)
  : list (list A) :=
  match l with
  | [] => match cur with
          | [] => []
          | _ :: _ => [rev cur]
          end
  | x :: l' =>
      match room with
      | 0 | 1 => rev (x :: cur) :: chunks_from b [] b l'
      | S room' => chunks_from b (x :: cur) room' l'
      end
  end.

Definition chunks {A} (b : nat) (l : list A) : list (list A) :=
  chunks_from b [] b l.

(** Stack tensors of one shape along a new leading dimension. *)
Definition stack {A} (ts : list (tensor A)) : result (tensor A) :=
  match ts with
  | [] => Ok (mk_tensor [0%nat] [])
  | t0 :: rest =>
      match find (fun t => negb (bool_decide (shape t = shape t0))) rest with
      | Some t =>
          Raise (InvalidArgumentError (CannotBatchShapes (shape t0) (shape t)))
      | None => Ok (mk_tensor (length ts :: shape t0) (concat (map data ts)))
      end
  end.

(** One batch: the images stacked and the labels stacked. *)
Definition stack_pair {A L} (group : list (tensor A * tensor L))
  : result (tensor A * tensor L) :=
  match stack (map fst group) with
  | Raise e => Raise e
  | Ok images =>
      match stack (map snd group) with
      | Raise e => Raise e
      | Ok labels => Ok (images, labels)
      end
  end.

(** [ds.batch(b)] *)
Definition ds_batch {A L} (b : nat) (ds : dataset (tensor A * tensor L))
  : result (dataset (tensor A * tensor L)) :=
  if (b =? 0)%nat then Raise (InvalidArgumentError BadBatchSize)
  else result_all stack_pair (chunks b ds).

End Dataset.
Export Dataset.

(** ** Image resizing *)

(** Modelled from the spec: [tf.image.resize] is the framework's; the
    notebooks only call it. It is taken as any function with these two
    properties on a height-width-channel image of non-zero size: the result
    has the requested height and width and the channels of the input, and,
    as the method interpolates between input pixels, no value leaves the
    range of the input values. *)
Class ImageResize : Type := {
  tf_image_resize : tensor R -> nat * nat -> result (tensor R);
  resize_shape : forall (image : tensor R) (h w c H W : nat),
    shape image = [h; w; c] -> well_formed image ->
    (0 < h)%nat -> (0 < w)%nat ->
    exists out, tf_image_resize image (H, W) = Ok out
                /\ shape out = [H; W; c] /\ well_formed out;
  resize_range : forall (image out : tensor R) (size : nat * nat) (lo hi : R),
    tf_image_resize image size = Ok out ->
    Forall (fun v => (lo <= v <= hi)%R) (data image) ->
    Forall (fun v => (lo <= v <= hi)%R) (data out)
}.

(** Modelled from the spec: the framework's default resizing method,
    bilinear interpolation with pixel centres half a pixel in and without
    antialiasing, is one resizing with these two properties. It starts from
    where output position [o] falls among [n_in] input positions when
    [n_out] positions are asked for. *)
Definition source_coordinate (o n_in n_out : nat) : R :=
  ((INR o + 0.5) * (INR n_in / INR n_out) - 0.5)%R.

(** The input positions on either side of a coordinate, kept inside the
    image, and the weight of the upper one. *)
Definition lower_index (c : R) : nat := Z.to_nat (Z.max (Int_part c) 0).

Definition upper_index (c : R) (n_in : nat) : nat :=
  Nat.min (Z.to_nat (- Int_part (- c))) (n_in - 1).

Definition lerp_weight (c : R) : R := (c - IZR (Int_part c))%R.

(** The value at row [y], column [x], channel [ch] of row-major
    height-width-channel data. *)
Definition pixel (w c : nat) (d : list R) (y x ch : nat) : R :=
  nth ((y * w + x) * c + ch) d 0%R.

(** Interpolate along the row, then along the column. *)
Definition bilinear_pixel (h w c H W : nat) (d : list R) (y x ch : nat) : R :=
  let in_y := source_coordinate y h H in
  let in_x := source_coordinate x w W in
  let top_left := pixel w c d (lower_index in_y) (lower_index in_x) ch in
  let top_right := pixel w c d (lower_index in_y) (upper_index in_x w) ch in
  let bottom_left := pixel w c d (upper_index in_y h) (lower_index in_x) ch in
  let bottom_right := pixel w c d (upper_index in_y h) (upper_index in_x w) ch in
  let top := (top_left + (top_right - top_left) * lerp_weight in_x)%R in
  let bottom := (bottom_left + (bottom_right - bottom_left) * lerp_weight in_x)%R in
  (top + (bottom - top) * lerp_weight in_y)%R.

(** [tf.image.resize(image, (H, W))] on one height-width-channel image. *)
Definition bilinear_resize (image : tensor R) (size : nat * nat)
  : result (tensor R) :=
  let '(H, W) := size in
  match shape image with
  | [h; w; c] =>
      if (0 <? h)%nat && (0 <? w)%nat
         && (length (data image) =? h * w * c)%nat
      then
        Ok (mk_tensor [H; W; c]
              (flat_map (fun y =>
                 flat_map (fun x =>
                   map (fun ch => bilinear_pixel h w c H W (data image) y x ch)
                       (seq 0 c))
                   (seq 0 W))
                 (seq 0 H)))
      else Raise (InvalidArgumentError (BadImageShape (shape image)))
  | _ => Raise (InvalidArgumentError (BadImageShape (shape image)))
  end.

(** ** Automatic differentiation *)

Module GradientTape.
Local Open Scope R_scope.

(** Modelled from the spec: [tf.GradientTape] is the framework's. The
    notebook and the specification describe it as a mechanism that records
    the operations performed on watched tensors, knows the gradient of each
    recorded operation, and computes the gradient of a chain of operations
    from them (reverse-mode differentiation). Tensors are told apart by an
    identifier. *)
Definition tensor_id : Type := nat.

(** A recorded operation with the input value its gradient needs. The only
    operation the notebook performs under a tape is [x ** k]. *)
Inductive recorded : Type :=
  | RecPow (input : tensor_id) (input_value : tensor R) (k : nat)
           (output : tensor_id).

Definition output_of (op : recorded) : tensor_id :=
  match op with RecPow _ _ _ o => o end.

Record tape : Type := mk_tape {
  watched : list tensor_id;
  operations : list recorded  (* newest first *)
}.

(** [with tf.GradientTape() as g:] *)
Definition new_tape : tape := mk_tape [] [].

(** [g.watch(x)] *)
Definition watch (g : tape) (x : tensor_id) : tape :=
  mk_tape (x :: watched g) (operations g).

(** A tensor is traced when it is watched or was produced by a recorded
    operation. *)
Definition traced (g : tape) (x : tensor_id) : bool :=
  existsb (Nat.eqb x) (watched g)
  || existsb (fun op => Nat.eqb x (output_of op)) (operations g).

(** [y = x ** k] executed under the tape: the value is computed, and the
    operation is recorded when its input is traced. *)
Definition pow_under (g : tape) (x : tensor_id) (xv : tensor R) (k : nat)
    (y : tensor_id) : tape * tensor R :=
  let yv := tf_pow xv k in
  if traced g x
  then (mk_tape (watched g) (RecPow x xv k y :: operations g), yv)
  else (g, yv).

(** The gradient of [x ** k] for an incoming gradient [grad]:
    [grad * k * x ** (k - 1)], elementwise. *)
Definition pow_grad (grad xv : tensor R) (k : nat) : tensor R :=
  mk_tensor (shape xv)
    (zip_with (fun g v => g * INR k * v ^ (k - 1)) (data grad) (data xv)).

(** Gradients reaching one tensor along several paths add up. *)
Definition accumulate (old : option (tensor R)) (new : tensor R) : tensor R :=
  match old with
  | None => new
  | Some o => mk_tensor (shape new) (zip_with Rplus (data o) (data new))
  end.

(** One step back through a recorded operation. *)
Definition backward_step (grads : gmap tensor_id (tensor R)) (op : recorded)
  : gmap tensor_id (tensor R) :=
  match op with
  | RecPow i xv k o =>
      match grads !! o with
      | None => grads
      | Some go => <[i := accumulate (grads !! i) (pow_grad go xv k)]> grads
      end
  end.

(** [g.gradient(target, source)]: start from ones at the target and walk the
    recorded operations from the newest to the oldest. [None] is Python's
    [None], returned when the source does not reach the target. *)
Definition gradient (g : tape) (target : tensor_id) (target_value : tensor R)
    (source : tensor_id) : option (tensor R) :=
  fold_left backward_step (operations g)
    ({[ target := tf_ones_like target_value ]} : gmap tensor_id (tensor R))
    !! source.

End GradientTape.

(** ** Part 3: Training Neural Networks *)

Module Part3.
Local Open Scope R_scope.

(** [[
def normalize(image, label):
    image = tf.cast(image, tf.float32)
    image /= 255
    return image, label
]] *)
Definition normalize {L} (image : tensor Z) (label : L) : tensor R * L :=
  let image := tf_cast image in
  let image := truediv image 255 in
  (image, label).

Definition batch_size : nat := 64.

(** [training_batches = training_set.cache().shuffle(num_training_examples//4)
      .batch(batch_size).map(normalize).prefetch(1)]
    [order] is the order the shuffle visits the elements in. *)
Definition training_batches (order : list nat)
    (training_set : dataset (tensor Z * tensor Z))
  : result (dataset (tensor R * tensor Z)) :=
  result_map
    (fun batches => ds_prefetch 1 (ds_map normalize batches))
    (ds_batch batch_size (ds_shuffle order (ds_cache training_set))).

Local Open Scope result_scope.

(** What the automatic-differentiation cell computes. *)
Record autodiff_output : Type := mk_autodiff_output {
  dy_dx : tensor R;
  true_grad : tensor R;
  maximum_difference : R
}.

(** The cell without its first two prints:
[[
x = tf.random.normal((2,2))
with tf.GradientTape() as g:
    g.watch(x)
    y = x ** 2
dy_dx = g.gradient(y, x)
true_grad = 2 * x
print('\nMaximum Difference:', np.abs(true_grad - dy_dx).max())
]]
    [x] is the tensor the random generator returned. *)
Definition autodiff_cell (x : tensor R) : result autodiff_output :=
  let x_id := 0%nat in
  let y_id := 1%nat in
  let g := GradientTape.new_tape in
  let g := GradientTape.watch g x_id in
  let '(g, y) := GradientTape.pow_under g x_id x 2 y_id in
  let true_grad := rmul 2 x in
  match GradientTape.gradient g y_id y x_id with
  | None => Raise TypeError
  | Some dy_dx =>
      let! difference := tf_subtract true_grad dy_dx in
      let! m := np_max (np_abs difference) in
      Ok (mk_autodiff_output dy_dx true_grad m)
  end.

End Part3.

(** ** Part 8: Transfer Learning *)

Module Part8.
Local Open Scope R_scope.
Local Open Scope result_scope.

Definition batch_size : nat := 32.
Definition image_size : nat := 224.

Section Pipeline.
Context `{ImageResize}.

(** [[
def format_image(image, label):
    image = tf.cast(image, tf.float32)
    image = tf.image.resize(image, (image_size, image_size))
    image /= 255
    return image, label
]] *)
Definition format_image {L} (image : tensor Z) (label : L)
  : result (tensor R * L) :=
  let image := tf_cast image in
  let! image := tf_image_resize image (image_size, image_size) in
  let image := truediv image 255 in
  Ok (image, label).

(** [training_batches = training_set.shuffle(num_training_examples//4)
      .map(format_image).batch(batch_size).prefetch(1)] *)
Definition training_batches (order : list nat)
    (training_set : dataset (tensor Z * tensor Z))
  : result (dataset (tensor R * tensor Z)) :=
  let! formatted := ds_map_result format_image (ds_shuffle order training_set) in
  result_map (ds_prefetch 1) (ds_batch batch_size formatted).

(** [validation_batches = validation_set.map(format_image).batch(batch_size).prefetch(1)] *)
Definition validation_batches (validation_set : dataset (tensor Z * tensor Z))
  : result (dataset (tensor R * tensor Z)) :=
  let! formatted := ds_map_result format_image validation_set in
  result_map (ds_prefetch 1) (ds_batch batch_size formatted).

(** [testing_batches = test_set.map(format_image).batch(batch_size).prefetch(1)] *)
Definition testing_batches (test_set : dataset (tensor Z * tensor Z))
  : result (dataset (tensor R * tensor Z)) :=
  let! formatted := ds_map_result format_image test_set in
  result_map (ds_prefetch 1) (ds_batch batch_size formatted).

End Pipeline.

End Part8.

(** ** The two orders of mapping and batching *)


(** [ds.cache().shuffle(...).batch(b).map(f).prefetch(1)], the order of the
    training notebook. *)
Definition batch_then_map
    (f : tensor Z -> tensor Z -> tensor R * tensor Z)
    (b : nat) (order : list nat) (ds : dataset (tensor Z * tensor Z))
  : result (dataset (tensor R * tensor Z)) :=
  result_map
    (fun batches => ds_prefetch 1 (ds_map f batches))
    (ds_batch b (ds_shuffle order (ds_cache ds))).

(** ** The logistic function, as the specification words it *)

(** The standard logistic function [1/(1+exp(-x))] on one real number. *)
Definition logistic (x : R) : R := (1 / (1 + exp (- x)))%R.

(** ** What running a notebook does *)

Module Notebook.

(** Everything a run can be observed to do, the kernel state the
    statements below depend on, and the framework calls that fail in this
    run. Lists are oldest first. *)
Record world : Type := mk_world {
  stdout : list string;         (* printed text and displayed values *)
  figures : list string;        (* drawing calls, by name *)
  files : gmap string string;   (* files, outside the tools' own caches *)
  tool_cache : list string;     (* what pip, tfds and hub have fetched *)
  defs : list string;           (* functions bound by [def] *)
  classes : list string;        (* classes bound by [class] *)
  calls : list string;          (* framework calls, by dotted name *)
  faults : string -> option exn (* the exception a framework call raises *)
}.

(** A fresh kernel in which no framework call fails. *)
Definition empty_world : world :=
  mk_world [] [] ∅ [] [] [] [] (fun _ => None).

Definition add_stdout (text : string) (w : world) : world :=
  mk_world (stdout w ++ [text]) (figures w) (files w) (tool_cache w)
           (defs w) (classes w) (calls w) (faults w).

Definition add_figure (name : string) (w : world) : world :=
  mk_world (stdout w) (figures w ++ [name]) (files w) (tool_cache w)
           (defs w) (classes w) (calls w) (faults w).

Definition add_file (path content : string) (w : world) : world :=
  mk_world (stdout w) (figures w) (<[path := content]> (files w))
           (tool_cache w) (defs w) (classes w) (calls w) (faults w).

Definition add_cache (resource : string) (w : world) : world :=
  mk_world (stdout w) (figures w) (files w) (tool_cache w ++ [resource])
           (defs w) (classes w) (calls w) (faults w).

Definition add_def (name : string) (w : world) : world :=
  mk_world (stdout w) (figures w) (files w) (tool_cache w)
           (defs w ++ [name]) (classes w) (calls w) (faults w).

Definition add_class (name : string) (w : world) : world :=
  mk_world (stdout w) (figures w) (files w) (tool_cache w)
           (defs w) (classes w ++ [name]) (calls w) (faults w).

Definition add_call (name : string) (w : world) : world :=
  mk_world (stdout w) (figures w) (files w) (tool_cache w)
           (defs w) (classes w) (calls w ++ [name]) (faults w).

(** A piece of a code cell: it changes the world and ends normally or with
    an exception; what it did before the exception stays done. *)
Definition cell (A : Type) : Type := world -> world * result A.

Definition ret {A} (a : A) : cell A := fun w => (w, Ok a).

Definition bind {A B} (c : cell A) (k : A -> cell B) : cell B :=
  fun w =>
    match c w with
    | (w', Ok a) => k a w'
    | (w', Raise e) => (w', Raise e)
    end.

Definition raise {A} (e : exn) : cell A := fun w => (w, Raise e).

(** [try: body except: handler]. No cell of the notebooks uses it. *)
Definition try_except {A} (body : cell A) (handler : exn -> cell A) : cell A :=
  fun w =>
    match body w with
    | (w', Ok a) => (w', Ok a)
    | (w', Raise e) => handler e w'
    end.

Declare Scope cell_scope.
Delimit Scope cell_scope with cell.
Notation "c1 ;; c2" := (bind c1 (fun _ => c2))
  (at level 100, c2 at level 200, right associativity) : cell_scope.
Local Open Scope cell_scope.

(** *** Statements *)

(** [print(text, ...)]; only the first argument is kept, as it is written. *)
Definition print (text : string) : cell unit :=
  fun w => (add_stdout text w, Ok tt).

(** A cell ending in an expression shows its value. *)
Definition display (expression : string) : cell unit := print expression.

(** A call into the framework or a library: the call is made, and either it
    raises or it has its effect. *)
Definition framework_call (name : string) (effect : world -> world)
  : cell unit :=
  fun w =>
    match faults w name with
    | Some e => (add_call name w, Raise e)
    | None => (effect (add_call name w), Ok tt)
    end.

(** A call with nothing to observe. *)
Definition call (name : string) : cell unit :=
  framework_call name (fun w => w).

(** A call that reports on standard output
    ([model.summary], the progress of [model.fit] and [model.evaluate]). *)
Definition call_reporting (name : string) : cell unit :=
  framework_call name (add_stdout name).

(** A call that draws ([plt.imshow], [ax.barh], ...). *)
Definition plot (name : string) : cell unit :=
  framework_call name (add_figure name).

(** [tfds.load(name, ...)] and [hub.KerasLayer(url, ...)]: the library
    fetches the data set or the model into its own cache. *)
Definition fetch (name resource : string) : cell unit :=
  framework_call name (add_cache resource).

(** [!pip install ...]: pip puts the package into the environment. A failing
    shell command raises nothing in the kernel. *)
Definition pip_install (package : string) : cell unit :=
  fun w => (add_cache package w, Ok tt).

(** [open(path, 'w').write(content)]. No cell of the notebooks uses it. *)
Definition write_file (path content : string) : cell unit :=
  fun w => (add_file path content w, Ok tt).

(** [def name(...): ...] *)
Definition def (name : string) : cell unit :=
  fun w => (add_def name w, Ok tt).

(** [class name: ...]. No cell of the notebooks uses it. *)
Definition class (name : string) : cell unit :=
  fun w => (add_class name w, Ok tt).

(** [import module], [%magic], and the assignment of a plain value bind
    names in the kernel and leave the world alone. *)
Definition import (module : string) : cell unit := ret tt.
Definition magic (line : string) : cell unit := ret tt.
Definition assign (name : string) : cell unit := ret tt.

(** A cell that does not parse ([y = ] with nothing after the sign): the
    kernel reports the error and runs none of the cell. *)
Definition does_not_parse : cell unit := raise SyntaxError.

(** [for i in range(n): body] *)
Fixpoint for_range_from (start n : nat) (body : nat -> cell unit) : cell unit :=
  match n with
  | O => ret tt
  | S n' => body start ;; for_range_from (S start) n' body
  end.

Definition for_range (n : nat) (body : nat -> cell unit) : cell unit :=
  for_range_from 0 n body.

(** [for ... in dataset.take(k): body] over a data set that yields
    [available] elements. *)
Definition for_take (k : nat) (available : positive) (body : cell unit)
  : cell unit :=
  for_range (Nat.min k (Pos.to_nat available)) (fun _ => body).

(** *** Running a notebook *)

(** The cells are run from the first to the last; a cell that ends with an
    exception shows its traceback and the next cell is run all the same. *)
Fixpoint run_cells (cells : list (cell unit)) (w : world)
  : world * list (result unit) :=
  match cells with
  | [] => (w, [])
  | c :: rest =>
      let '(w1, r) := c w in
      let '(w2, rs) := run_cells rest w1 in
      (w2, r :: rs)
  end.

Definition run (cells : list (cell unit)) (w : world) : world :=
  fst (run_cells cells w).

Definition outcomes (cells : list (cell unit)) (w : world)
  : list (result unit) :=
  snd (run_cells cells w).

(** *** Calls on the Keras model *)

Inductive model_call : Type :=
  | Construct | Summary | Compile | Fit | Evaluate | Predict.

Definition model_call_of (name : string) : option model_call :=
  if String.eqb name "tf.keras.Sequential" then Some Construct
  else if String.eqb name "model.summary" then Some Summary
  else if String.eqb name "model.compile" then Some Compile
  else if String.eqb name "model.fit" then Some Fit
  else if String.eqb name "model.evaluate" then Some Evaluate
  else if String.eqb name "model.predict" then Some Predict
  else None.

(** The calls on the model in the order they were made. *)
Definition model_calls (w : world) : list model_call :=
  flat_map (fun name => match model_call_of name with
                        | Some c => [c]
                        | None => []
                        end) (calls w).

End Notebook.

(** ** The code cells of the three notebooks *)

(** Each cell is given statement by statement, in the order of the source.
    [print] keeps the first argument as it is written there. *)

Module Part1Cells.
Import Notebook.
Local Open Scope cell_scope.

Definition notebook : list (cell unit) := [
  (* 1 *)
  pip_install "tensorflow-gpu==2.0.0b1";
  (* 2 *)
  (import "warnings" ;;
   call "warnings.filterwarnings" ;;
   import "numpy" ;;
   import "tensorflow");
  (* 3 *)
  (import "logging" ;;
   call "tf.get_logger" ;;
   call "logger.setLevel");
  (* 4 *)
  (print "Using:" ;;
   print "\t\u2022 TensorFlow version:");
  (* 5 *)
  (call "tf.random.set_seed" ;;
   call "tf.random.normal" ;;
   call "tf.random.normal" ;;
   call "tf.random.normal" ;;
   print "Features:\n" ;;
   print "\nWeights:\n" ;;
   print "\nBias:\n");
  (* 6 *)
  def "sigmoid_activation";
  (* 7: y = *)
  does_not_parse;
  (* 8 *)
  (print "Features Shape:" ;;
   print "Weights Shape:" ;;
   print "Bias Shape:");
  (* 9: y = *)
  does_not_parse;
  (* 10 *)
  print "Weights Shape:";
  (* 11 *)
  (call "tf.random.set_seed" ;;
   call "tf.random.normal" ;;
   assign "n_input" ;;
   assign "n_hidden" ;;
   assign "n_output" ;;
   call "tf.random.normal" ;;
   call "tf.random.normal" ;;
   call "tf.random.normal" ;;
   call "tf.random.normal");
  (* 12: output = *)
  does_not_parse;
  (* 13 *)
  (call "tf.random.set_seed" ;;
   call "np.random.rand" ;;
   print "type(a)" ;;
   print "a");
  (* 14 *)
  (call "tf.convert_to_tensor" ;;
   print "b");
  (* 15 *)
  (call "b.numpy" ;;
   print "type(c)" ;;
   print "c");
  (* 16 *)
  (assign "b" ;;
   print "b");
  (* 17 *)
  display "a";
  (* 18 *)
  display "c";
  (* 19 *)
  (assign "a" ;;
   print "a");
  (* 20 *)
  print "b";
  (* 21 *)
  display "c"
].

End Part1Cells.

Module Part3Cells.
Import Notebook.
Local Open Scope cell_scope.

(** [n_batches] is the number of batches [training_batches] yields. *)
Definition notebook (n_batches : positive) : list (cell unit) := [
  (* 1 *)
  (pip_install "tqdm==4.28.1" ;;
   pip_install "tensorflow-gpu==2.0.0b1" ;;
   pip_install "tensorflow_datasets");
  (* 2 *)
  (import "warnings" ;;
   call "warnings.filterwarnings");
  (* 3 *)
  (magic "matplotlib inline" ;;
   magic "config InlineBackend.figure_format = 'retina'" ;;
   import "numpy" ;;
   import "matplotlib.pyplot" ;;
   import "tensorflow" ;;
   import "tensorflow_datasets" ;;
   call "tfds.disable_progress_bar");
  (* 4 *)
  (import "logging" ;;
   call "tf.get_logger" ;;
   call "logger.setLevel");
  (* 5 *)
  (print "Using:" ;;
   print "\t\u2022 TensorFlow version:" ;;
   print "\t\u2022 tf.keras version:" ;;
   call "tf.test.is_gpu_available" ;;
   (* or the text for a machine without a GPU *)
   print "\t\u2022 Running on GPU");
  (* 6 *)
  fetch "tfds.load" "mnist";
  (* 7 *)
  (def "normalize" ;;
   assign "num_training_examples" ;;
   assign "batch_size" ;;
   call "training_set.cache" ;;
   call "shuffle" ;;
   call "batch" ;;
   call "map" ;;
   call "prefetch");
  (* 8 *)
  (call "tf.keras.layers.Flatten" ;;
   call "tf.keras.layers.Dense" ;;
   call "tf.keras.layers.Dense" ;;
   call "tf.keras.layers.Dense" ;;
   call "tf.keras.Sequential");
  (* 9 *)
  call "model.compile";
  (* 10 *)
  (call "training_batches.take" ;;
   for_take 1 n_batches (call_reporting "model.evaluate") ;;
   print "\nLoss before training: {:,.3f}" ;;
   print "Accuracy before training: {:.3%}");
  (* 11 *)
  (assign "EPOCHS" ;;
   call_reporting "model.fit");
  (* 12 *)
  (call "training_batches.take" ;;
   for_take 1 n_batches
     (call "model.predict" ;;
      call "image_batch.numpy" ;;
      call "squeeze") ;;
   plot "plt.subplots" ;;
   plot "ax1.imshow" ;;
   plot "ax1.axis" ;;
   call "np.arange" ;;
   plot "ax2.barh" ;;
   plot "ax2.set_aspect" ;;
   call "np.arange" ;;
   plot "ax2.set_yticks" ;;
   call "np.arange" ;;
   plot "ax2.set_yticklabels" ;;
   plot "ax2.set_title" ;;
   plot "ax2.set_xlim" ;;
   plot "plt.tight_layout");
  (* 13 *)
  (call "training_batches.take" ;;
   for_take 1 n_batches (call_reporting "model.evaluate") ;;
   print "\nLoss after training: {:,.3f}" ;;
   print "Accuracy after training: {:.3%}");
  (* 14 *)
  (print "\nLoss before training: {:,.3f}" ;;
   print "Accuracy before training: {:.3%}");
  (* 15 *)
  (print "\nLoss after training: {:,.3f}" ;;
   print "Accuracy after training: {:.3%}");
  (* 16: only a comment *)
  ret tt;
  (* 17 *)
  (call "tf.random.set_seed" ;;
   call "tf.random.normal" ;;
   call "tf.GradientTape" ;;
   call "g.watch" ;;
   call "pow" ;;
   call "g.gradient" ;;
   assign "true_grad" ;;
   print "Gradient calculated by tf.GradientTape:\n" ;;
   print "\nTrue Gradient:\n" ;;
   call "np.abs" ;;
   call "max" ;;
   print "\nMaximum Difference:");
  (* 18: empty *)
  ret tt
].

End Part3Cells.

Module Part8Cells.
Import Notebook.
Local Open Scope cell_scope.

(** [n_training] is the number of images [training_set] yields and
    [n_testing_batches] the number of batches [testing_batches] yields. *)
Definition notebook (n_training n_testing_batches : positive)
  : list (cell unit) := [
  (* 1 *)
  (pip_install "tqdm==4.28.1" ;;
   pip_install "tensorflow-gpu==2.0.0b1" ;;
   pip_install "tensorflow_datasets" ;;
   pip_install "tensorflow_hub");
  (* 2 *)
  (import "warnings" ;;
   call "warnings.filterwarnings");
  (* 3 *)
  (magic "matplotlib inline" ;;
   magic "config InlineBackend.figure_format = 'retina'" ;;
   import "time" ;;
   import "numpy" ;;
   import "matplotlib.pyplot" ;;
   import "tensorflow" ;;
   import "tensorflow_hub" ;;
   import "tensorflow_datasets" ;;
   call "tfds.disable_progress_bar");
  (* 4 *)
  (import "logging" ;;
   call "tf.get_logger" ;;
   call "logger.setLevel");
  (* 5 *)
  (print "Using:" ;;
   print "\t\u2022 TensorFlow version:" ;;
   print "\t\u2022 tf.keras version:" ;;
   call "tf.test.is_gpu_available" ;;
   (* or the text for a machine without a GPU *)
   print "\t\u2022 Running on GPU");
  (* 6 *)
  (assign "train_split" ;;
   assign "test_val_split" ;;
   call "tfds.Split.ALL.subsplit" ;;
   fetch "tfds.load" "cats_vs_dogs");
  (* 7 *)
  display "dataset_info";
  (* 8 *)
  (assign "num_classes" ;;
   assign "total_num_examples" ;;
   print "The Dataset has a total of:" ;;
   print "\u2022 {:,} classes" ;;
   print "\u2022 {:,} images");
  (* 9 *)
  assign "class_names";
  (* 10 *)
  (call "training_set.take" ;;
   for_take 1 n_training
     (call "image.numpy" ;;
      call "label.numpy") ;;
   plot "plt.imshow" ;;
   plot "plt.show" ;;
   print "The label of this image is:" ;;
   print "The class name of this image is:");
  (* 11 *)
  (assign "batch_size" ;;
   assign "image_size" ;;
   assign "num_training_examples" ;;
   def "format_image" ;;
   call "training_set.shuffle" ;;
   call "map" ;;
   call "batch" ;;
   call "prefetch" ;;
   call "validation_set.map" ;;
   call "batch" ;;
   call "prefetch" ;;
   call "test_set.map" ;;
   call "batch" ;;
   call "prefetch");
  (* 12 *)
  (assign "URL" ;;
   fetch "hub.KerasLayer"
     "https://tfhub.dev/google/tf2-preview/mobilenet_v2/feature_vector/4");
  (* 13 *)
  assign "feature_extractor.trainable";
  (* 14 *)
  (call "tf.keras.layers.Dense" ;;
   call "tf.keras.Sequential" ;;
   call_reporting "model.summary");
  (* 15 *)
  (call "tf.test.is_gpu_available" ;;
   print "Is there a GPU Available:");
  (* 16: only comments *)
  ret tt;
  (* 17: only a comment *)
  ret tt;
  (* 18 *)
  (call "testing_batches.take" ;;
   for_take 1 n_testing_batches
     (call "model.predict" ;;
      call "image_batch.numpy" ;;
      call "squeeze" ;;
      call "label_batch.numpy") ;;
   plot "plt.figure" ;;
   for_range 30 (fun n =>
     plot "plt.subplot" ;;
     plot "plt.imshow" ;;
     call "np.argmax" ;;
     call "np.argmax" ;;
     plot "plt.title" ;;
     plot "plt.axis"));
  (* 19: empty *)
  ret tt
].

End Part8Cells.


(** ** Sample inputs *)

(** A one-pixel colour image with label 1 (a dog). *)
Definition sample_image : tensor Z := mk_tensor [1; 1; 3]%nat [0; 128; 255]%Z.
Definition sample_label : tensor Z := tf_constant 1%Z.

(** Five features, five weights and a bias, of the shapes the first
    notebook draws. *)
Definition sample_features : tensor R :=
  mk_tensor [1; 5]%nat [1; 2; 3; 4; 5]%R.
Definition sample_weights : tensor R :=
  mk_tensor [1; 5]%nat [5; 4; 3; 2; 1]%R.
Definition sample_bias : tensor R := mk_tensor [1; 1]%nat [2]%R.

(** A two-by-two tensor. *)
Definition sample_x : tensor R := mk_tensor [2; 2]%nat [1; -2; 3; 0]%R.

(** Three grey two-pixel images with their labels. *)
Definition sample_dataset : dataset (tensor Z * tensor Z) :=
  [ (mk_tensor [1; 2; 1]%nat [0; 51]%Z, tf_constant 7%Z);
    (mk_tensor [1; 2; 1]%nat [102; 153]%Z, tf_constant 2%Z);
    (mk_tensor [1; 2; 1]%nat [204; 255]%Z, tf_constant 1%Z) ].

(** ** The order of the calls on the model, as the specification words it *)

(** Construction, then [.compile], then [.fit], then [.evaluate], then
    [.predict]; [.summary] is not part of the stated order. *)
Definition claimed_rank (c : Notebook.model_call) : option nat :=
  match c with
  | Notebook.Construct => Some 0%nat
  | Notebook.Compile => Some 1%nat
  | Notebook.Fit => Some 2%nat
  | Notebook.Evaluate => Some 3%nat
  | Notebook.Predict => Some 4%nat
  | Notebook.Summary => None
  end.

Fixpoint nondecreasing (l : list nat) : bool :=
  match l with
  | a :: (b :: _) as rest => (a <=? b)%nat && nondecreasing rest
  | _ => true
  end.

Definition in_claimed_order (l : list Notebook.model_call) : bool :=
  nondecreasing
    (flat_map (fun c => match claimed_rank c with
                        | Some r => [r]
                        | None => []
                        end) l).

Definition is_fit (c : Notebook.model_call) : bool :=
  match c with Notebook.Fit => true | _ => false end.

(** Some [.evaluate] is followed, later on, by a [.fit]. *)
Fixpoint evaluate_before_fit (l : list Notebook.model_call) : bool :=
  match l with
  | [] => false
  | Notebook.Evaluate :: rest => existsb is_fit rest || evaluate_before_fit rest
  | _ :: rest => evaluate_before_fit rest
  end.

(** The stated order holds for a sequence of calls on a model. *)
Definition claimed_lifecycle (l : list Notebook.model_call) : Prop :=
  in_claimed_order l = true /\ evaluate_before_fit l = false.

(** ** Single-precision numbers *)

(** Modelled from the spec: the arithmetic on tensors is the framework's.
    The tensors of the notebooks hold [float32] values. Where a statement
    depends on rounding, on overflow or on the infinities, the values are
    modelled as IEEE 754 binary32 numbers: the finite ones as the real
    numbers they stand for, every operation as the exact operation followed
    by rounding to the nearest representable number, with overflow to an
    infinity. The two zeros are not told apart. *)
Module Float32.
Local Open Scope R_scope.

(** [2 ^ e] for an integer [e]. *)
Definition pow2 (e : Z) : R :=
  if (0 <=? e)%Z then IZR (2 ^ e) else / IZR (2 ^ (- e)).

(** The number with mantissa [m] and exponent [e]. *)
Definition F2R (m e : Z) : R := IZR m * pow2 e.

(** The finite binary32 numbers in canonical form: 24 bits of mantissa,
    exponents from -149 to 104, the mantissa normalised unless the exponent
    is the smallest (subnormal numbers). *)
Definition canonical (m e : Z) : Prop :=
  (Z.abs m < 2 ^ 24)%Z
  /\ (-149 <= e <= 104)%Z
  /\ (e = (-149)%Z \/ (2 ^ 23 <= Z.abs m)%Z).

Definition representable (r : R) : Prop :=
  exists m e : Z, canonical m e /\ r = F2R m e.

(** [3 * 2^-26], a number below half the distance from 1 to the next
    number above it. *)
Definition small : R := F2R (3 * 2 ^ 22) (-48).

(** From [2^128 - 2^103] on, halfway between the largest finite number and
    [2^128], rounding overflows. *)
Definition overflow_threshold : R := F2R (2 ^ 25 - 1) 103.

(** Rounding to nearest: a representable number as close to the argument as
    any other. IEEE 754 breaks ties towards the even mantissa; the
    properties below hold however ties are broken. *)
Class RoundToNearest : Type := {
  nearest : R -> R;
  nearest_representable : forall x : R, representable (nearest x);
  nearest_is_nearest :
    forall x g : R, representable g -> Rabs (x - nearest x) <= Rabs (x - g)
}.

Inductive float32 : Type :=
  | Finite (r : R)
  | PosInf
  | NegInf
  | NaN.

Section Operations.
Context `{RoundToNearest}.

(** The [float32] result of an operation whose exact result is [x]. *)
Definition round (x : R) : float32 :=
  if Rle_dec overflow_threshold x then PosInf
  else if Rle_dec x (- overflow_threshold) then NegInf
  else Finite (nearest x).

Definition f_neg (v : float32) : float32 :=
  match v with
  | Finite r => Finite (- r)
  | PosInf => NegInf
  | NegInf => PosInf
  | NaN => NaN
  end.

(** Modelled from the spec: [tf.exp] is the framework's; it is taken as the
    correctly rounded exponential. *)
Definition f_exp (v : float32) : float32 :=
  match v with
  | Finite r => round (exp r)
  | PosInf => PosInf
  | NegInf => Finite 0
  | NaN => NaN
  end.

Definition f_add (v w : float32) : float32 :=
  match v, w with
  | NaN, _ | _, NaN => NaN
  | PosInf, NegInf | NegInf, PosInf => NaN
  | PosInf, _ | _, PosInf => PosInf
  | NegInf, _ | _, NegInf => NegInf
  | Finite a, Finite b => round (a + b)
  end.

Definition f_div (v w : float32) : float32 :=
  match v, w with
  | NaN, _ | _, NaN => NaN
  | Finite a, Finite b =>
      if Req_dec_T b 0
      then (if Req_dec_T a 0 then NaN
            else if Rlt_dec 0 a then PosInf else NegInf)
      else round (a / b)
  | Finite _, (PosInf | NegInf) => Finite 0
  | PosInf, Finite b => if Rle_dec 0 b then PosInf else NegInf
  | NegInf, Finite b => if Rle_dec 0 b then NegInf else PosInf
  | (PosInf | NegInf), (PosInf | NegInf) => NaN
  end.

End Operations.

(** The order of the [float32] values; [NaN] compares with nothing. *)
Definition f_le (v w : float32) : Prop :=
  match v, w with
  | NaN, _ | _, NaN => False
  | NegInf, _ => True
  | _, PosInf => True
  | Finite a, Finite b => a <= b
  | _, _ => False
  end.

(** *** Round to nearest, ties to even *)

(** Every canonical pair of a mantissa and an exponent. *)
Definition mantissas : list Z := seqZ (1 - 2 ^ 24) (2 ^ 25 - 1).
Definition exponents : list Z := seqZ (-149) 254.

Definition canonicalb (m e : Z) : bool :=
  (e =? -149)%Z || (2 ^ 23 <=? Z.abs m)%Z.

Definition grid : list (Z * Z) :=
  flat_map (fun e =>
              flat_map (fun m => if canonicalb m e then [(m, e)] else [])
                       mantissas)
           exponents.

Definition distance (x : R) (c : Z * Z) : R := Rabs (x - F2R (fst c) (snd c)).

(** The closer of two candidates; of two at the same distance, the one with
    the even mantissa. *)
Definition closer (x : R) (best candidate : Z * Z) : Z * Z :=
  if Rlt_dec (distance x candidate) (distance x best) then candidate
  else if Rlt_dec (distance x best) (distance x candidate) then best
  else if Z.even (fst candidate) then candidate else best.

Definition nearest_even (x : R) : R :=
  let c := fold_left (closer x) grid (0%Z, (-149)%Z) in
  F2R (fst c) (snd c).

End Float32.

(** ** Part 1 in single precision *)

Module Part1Float32.
Import Float32.

Section Activation.
Context `{RoundToNearest}.

(** [def sigmoid_activation(x): return 1/(1+tf.exp(-x))] on a [float32]
    tensor; the two literals [1] become the [float32] number 1.0. *)
Definition sigmoid_activation (x : tensor float32) : tensor float32 :=
  tensor_map (f_div (Finite 1))
    (tensor_map (f_add (Finite 1)) (tensor_map f_exp (tensor_map f_neg x))).

(** The four operations at one element. *)
Definition sigmoid_value (v : float32) : float32 :=
  f_div (Finite 1) (f_add (Finite 1) (f_exp (f_neg v))).

End Activation.

End Part1Float32.

(** ** Tensor objects and the names bound to them *)

(** Modelled from the spec: eager execution is the framework's. A Python
    name is bound to an object, and two names can be bound to the same one.
    The tensors a kernel holds are kept by identity; an eager framework
    operation reads the objects it is given and returns a new one. *)
Module Eager.
Local Open Scope result_scope.

Definition object_id : Type := nat.

(** The objects alive in the kernel, and the identity the next new object
    gets. *)
Record heap : Type := mk_heap {
  objects : gmap object_id (tensor R);
  next_id : object_id
}.

(** Every object was made before [next_id]. *)
Definition heap_ok (h : heap) : Prop :=
  forall (i : object_id) (t : tensor R), objects h !! i = Some t -> (i < next_id h)%nat.

(** What making new objects does to the heap: the objects it held are
    as they were. *)
Definition extends (h h' : heap) : Prop :=
  heap_ok h'
  /\ (next_id h <= next_id h')%nat
  /\ (forall i t, objects h !! i = Some t -> objects h' !! i = Some t).

(** A computation on the heap that can raise. *)
Definition eager (A : Type) : Type := heap -> result (A * heap).

Definition read (i : object_id) (h : heap) : result (tensor R) :=
  match objects h !! i with
  | Some t => Ok t
  | None => Raise TypeError
  end.

Definition new_object (t : tensor R) (h : heap) : object_id * heap :=
  (next_id h, mk_heap (<[next_id h := t]> (objects h)) (S (next_id h))).

(** Modelled from the spec: [tf.matmul(a, b, transpose_a, transpose_b)] on
    tensor objects. The notebook's text has it that the arguments transpose
    [a] or [b] for the multiplication without changing the tensor
    permanently: the operands are read, the product is a new object. *)
Definition tf_matmul (a b : object_id) (transpose_a transpose_b : bool)
  : eager object_id :=
  fun h =>
    let! x := read a h in
    let! y := read b h in
    let! product := Tensor.tf_matmul x y transpose_a transpose_b in
    Ok (new_object product h).

(** [a + b] on tensor objects. *)
Definition tf_add (a b : object_id) : eager object_id :=
  fun h =>
    let! x := read a h in
    let! y := read b h in
    let! sum := Tensor.tf_add x y in
    Ok (new_object sum h).

(** An elementwise operation on one tensor object. *)
Definition elementwise (f : tensor R -> tensor R) (a : object_id)
  : eager object_id :=
  fun h =>
    let! x := read a h in
    Ok (new_object (f x) h).

End Eager.

Module Part1Eager.
Import Eager.
Local Open Scope result_scope.

(** [def sigmoid_activation(x): return 1/(1+tf.exp(-x))]: four operations,
    each with a new tensor for its result. *)
Definition sigmoid_activation (x : object_id) : eager object_id :=
  fun h =>
    let! (negated, h) := elementwise tf_neg x h in
    let! (exponential, h) := elementwise tf_exp negated h in
    let! (denominator, h) := elementwise (radd 1) exponential h in
    elementwise (rtruediv 1) denominator h.

(** The state of the kernel between two cells: the global names and the
    objects. *)
Record kernel : Type := mk_kernel {
  names : gmap string object_id;
  memory : heap
}.

Definition lookup (k : kernel) (name : string) : result object_id :=
  match names k !! name with
  | Some i => Ok i
  | None => Raise (NameError name)
  end.

(** Modelled from the spec: the solution cell of the second exercise, left
    blank in the exercise notebook,
    [y = sigmoid_activation(tf.matmul(features, weights, transpose_b=True) + bias)],
    with the names looked up in the order Python evaluates them. *)
Definition matmul_cell (k : kernel) : result kernel :=
  let! features := lookup k "features" in
  let! weights := lookup k "weights" in
  let! (product, h) := tf_matmul features weights false true (memory k) in
  let! bias := lookup k "bias" in
  let! (h_in, h) := tf_add product bias h in
  let! (y, h) := sigmoid_activation h_in h in
  Ok (mk_kernel (<["y" := y]> (names k)) h).

(** The next code cell, [print('Weights Shape:', weights.shape)]; the value
    is the shape it prints. *)
Definition weights_shape_cell (k : kernel) : result (list nat) :=
  let! weights := lookup k "weights" in
  let! t := read weights (memory k) in
  Ok (shape t).

End Part1Eager.

(** ** Images and batches of the transfer-learning pipelines *)

(** A colour image of non-zero size with pixel values in [0, 255] and a
    scalar label, as the cats-and-dogs data set yields them. *)
Definition colour_image (e : tensor Z * tensor Z) : Prop :=
  exists h w : nat,
    shape (fst e) = [h; w; 3%nat] /\ (0 < h)%nat /\ (0 < w)%nat
    /\ well_formed (fst e)
    /\ Forall (fun v => (0 <= v <= 255)%Z) (data (fst e))
    /\ shape (snd e) = [].

(** What [format_image] makes of a colour image. *)
Definition formatted_image (e : tensor R * tensor Z) : Prop :=
  shape (fst e) = [224; 224; 3]%nat
  /\ Forall (fun v => (0 <= v <= 1)%R) (data (fst e))
  /\ shape (snd e) = [].

(** A batch of one to 32 formatted images with their labels. *)
Definition formatted_batch (batch : tensor R * tensor Z) : Prop :=
  exists k : nat,
    (1 <= k <= 32)%nat
    /\ shape (fst batch) = [k; 224%nat; 224%nat; 3%nat]
    /\ shape (snd batch) = [k]
    /\ Forall (fun v => (0 <= v <= 1)%R) (data (fst batch)).

(** ** The pipelines with their shuffle buffer *)

(** [ds.shuffle(buffer_size)]: the framework refuses a buffer that holds no
    element. [order] lists the positions in the order the shuffle yields
    them; with a buffer of [buffer_size] elements, the element yielded at
    position [i] is one of the first [i + buffer_size] of the input. *)
Definition ds_shuffle_buffer {A} (buffer_size : nat) (order : list nat)
    (ds : dataset A) : result (dataset A) :=
  if (buffer_size =? 0)%nat
  then Raise (InvalidArgumentError BadBufferSize)
  else Ok (ds_shuffle order ds).

Module Part3Pipeline.
Local Open Scope result_scope.

(** The cell as a whole:
[[
num_training_examples = dataset_info.splits['train'].num_examples

batch_size = 64

training_batches = training_set.cache().shuffle(num_training_examples//4).batch(batch_size).map(normalize).prefetch(1)
]]
    [num_training_examples] is the number the data set declares. *)
Definition training_batches (num_training_examples : nat) (order : list nat)
    (training_set : dataset (tensor Z * tensor Z))
  : result (dataset (tensor R * tensor Z)) :=
  let! shuffled :=
    ds_shuffle_buffer (num_training_examples / 4) order (ds_cache training_set) in
  let! batches := ds_batch Part3.batch_size shuffled in
  Ok (ds_prefetch 1 (ds_map Part3.normalize batches)).

End Part3Pipeline.

(** ** Part 8: the size of the training split *)

Module Part8Split.

(** [train_split = 60] *)
Definition train_split : nat := 60.

(** [num_training_examples = (total_num_examples * train_split) // 100] *)
Definition num_training_examples (total_num_examples : nat) : nat :=
  (total_num_examples * train_split) / 100.

(** The buffer of [training_set.shuffle(num_training_examples//4)]. *)
Definition shuffle_buffer (total_num_examples : nat) : nat :=
  num_training_examples total_num_examples / 4.

End Part8Split.

Module Part8Pipeline.
Local Open Scope result_scope.

Section Pipeline.
Context `{ImageResize}.

(** [[
num_training_examples = (total_num_examples * train_split) // 100
training_batches = training_set.shuffle(num_training_examples//4).map(format_image).batch(batch_size).prefetch(1)
]]
    [total_num_examples] is the number the data set declares. *)
Definition training_batches (total_num_examples : nat) (order : list nat)
    (training_set : dataset (tensor Z * tensor Z))
  : result (dataset (tensor R * tensor Z)) :=
  let! shuffled :=
    ds_shuffle_buffer (Part8Split.shuffle_buffer total_num_examples) order
      training_set in
  let! formatted := ds_map_result Part8.format_image shuffled in
  result_map (ds_prefetch 1) (ds_batch Part8.batch_size formatted).

End Pipeline.

End Part8Pipeline.

(** ** Indexing *)

(** Modelled from the spec: indexing and [squeeze] are NumPy's. A cell that
    indexes can end with [IndexError] besides the exceptions above. *)
Inductive failure : Type :=
  | IndexError (index size : nat)
  | Raised (e : exn).

Inductive attempt (A : Type) : Type :=
  | Done (a : A)
  | Failed (f : failure).
Arguments Done {A} a.
Arguments Failed {A} f.

Definition attempt_bind {A B} (r : attempt A) (k : A -> attempt B) : attempt B :=
  match r with
  | Done a => k a
  | Failed f => Failed f
  end.

Declare Scope attempt_scope.
Delimit Scope attempt_scope with attempt.
Notation "'let?' x ':=' r 'in' k" := (attempt_bind r (fun x => k))
  (at level 10, x pattern, r at level 100, k at level 200) : attempt_scope.

(** A framework result as the outcome of a cell. *)
Definition of_result {A} (r : result A) : attempt A :=
  match r with
  | Ok a => Done a
  | Raise e => Failed (Raised e)
  end.

(** [values[i]] on a Python list. *)
Definition list_getitem {A} (values : list A) (i : nat) : attempt A :=
  match nth_error values i with
  | Some v => Done v
  | None => Failed (IndexError i (length values))
  end.

(** [t[i]]: the [i]-th slice along the first dimension. *)
Definition getitem {A} (t : tensor A) (i : nat) : attempt (tensor A) :=
  match shape t with
  | [] => Failed (IndexError i 0)
  | d :: s =>
      if (i <? d)%nat
      then Done (mk_tensor s (firstn (numel s) (skipn (i * numel s) (data t))))
      else Failed (IndexError i d)
  end.

(** [t.squeeze()]: every dimension of size 1 is dropped. *)
Definition np_squeeze {A} (t : tensor A) : tensor A :=
  mk_tensor (List.filter (fun d => negb (d =? 1)%nat) (shape t)) (data t).

(** Run the body for [n = first, first + 1, ...], [count] times, stopping at
    the first failure. *)
Fixpoint for_each_from {A} (first count : nat) (body : nat -> attempt A)
  : attempt (list A) :=
  match count with
  | O => Done []
  | S count' =>
      match body first with
      | Failed f => Failed f
      | Done a =>
          match for_each_from (S first) count' body with
          | Failed f => Failed f
          | Done rest => Done (a :: rest)
          end
      end
  end.

(** ** Part 3: the first image of a batch *)

Module Part3Plot.

(** [first_image = image_batch.numpy().squeeze()[0]] *)
Definition first_image (image_batch : tensor R) : attempt (tensor R) :=
  getitem (np_squeeze image_batch) 0.

End Part3Plot.

(** ** Keras layers *)

(** Modelled from the spec: the layers are the framework's. The first
    notebook gives the unit they are built from, a weighted sum of the
    inputs plus a bias passed through an activation function, and the
    matrix form [f(x W + b)] of a whole layer. *)
Module Keras.
Local Open Scope R_scope.
Local Open Scope result_scope.

Inductive activation : Type := relu | softmax.

Inductive layer : Type :=
  | Flatten (input_shape : list nat)
  | Dense (units : nat) (act : activation).

(** [relu]: negative values become 0. *)
Definition relu_activation (t : tensor R) : tensor R := tensor_map (Rmax 0) t.

(** [softmax] of one row: the exponentials, divided by their sum, over the
    reals; only the shapes of the results are relied on. *)
Definition softmax_row (row : list R) : list R :=
  map (fun v => exp v / sum_list (map exp row)) row.

(** The rows of a tensor along its last dimension. *)
Definition rows (t : tensor R) : list (list R) :=
  chunks (List.last (shape t) 1%nat) (data t).

(** [softmax] along the last dimension. *)
Definition softmax_activation (t : tensor R) : tensor R :=
  mk_tensor (shape t) (concat (map softmax_row (rows t))).

Definition apply_activation (act : activation) (t : tensor R) : tensor R :=
  match act with
  | relu => relu_activation t
  | softmax => softmax_activation t
  end.

(** A [Flatten] layer keeps the batch dimension and lays the rest out in one
    row; an input that is not of the declared shape is refused. *)
Definition flatten (input_shape : list nat) (x : tensor R) : result (tensor R) :=
  match shape x with
  | [] => Raise ValueError
  | b :: rest =>
      if bool_decide (rest = input_shape)
      then Ok (mk_tensor [b; numel rest] (data x))
      else Raise ValueError
  end.

(** A [Dense] layer with its kernel and bias. *)
Definition dense (kernel bias : tensor R) (act : activation) (x : tensor R)
  : result (tensor R) :=
  let! h := tf_matmul x kernel false false in
  let! z := tf_add h bias in
  Ok (apply_activation act z).

(** The network applied to a batch; [weights] holds the kernel and the bias
    of each [Dense] layer, in order. *)
Fixpoint forward (layers : list layer) (weights : list (tensor R * tensor R))
    (x : tensor R) : result (tensor R) :=
  match layers with
  | [] => Ok x
  | Flatten input_shape :: rest =>
      let! y := flatten input_shape x in
      forward rest weights y
  | Dense units act :: rest =>
      match weights with
      | [] => Raise ValueError
      | (kernel, bias) :: weights' =>
          let! y := dense kernel bias act x in
          forward rest weights' y
      end
  end.

(** The shapes of the kernel and the bias each [Dense] layer is built with,
    for an input of [inputs] values per example. *)
Fixpoint weight_shapes (layers : list layer) (inputs : nat)
  : list (list nat * list nat) :=
  match layers with
  | [] => []
  | Flatten input_shape :: rest => weight_shapes rest (numel input_shape)
  | Dense units _ :: rest =>
      ([inputs; units], [units]) :: weight_shapes rest units
  end.

End Keras.

Module Part3Model.

(** [[
model = tf.keras.Sequential([
        tf.keras.layers.Flatten(input_shape = (28, 28, 1)),
        tf.keras.layers.Dense(128, activation = 'relu'),
        tf.keras.layers.Dense(64, activation = 'relu'),
        tf.keras.layers.Dense(10, activation = 'softmax')
])
]] *)
Definition model : list Keras.layer :=
  [ Keras.Flatten [28; 28; 1]%nat;
    Keras.Dense 128 Keras.relu;
    Keras.Dense 64 Keras.relu;
    Keras.Dense 10 Keras.softmax ].

(** [ps = model.predict(image_batch)] *)
Definition predict (weights : list (tensor R * tensor R)) (image_batch : tensor R)
  : result (tensor R) :=
  Keras.forward model weights image_batch.

End Part3Model.

(** ** Part 8: the model and the check of its predictions *)

Module Part8Model.
Local Open Scope result_scope.

(** [[
feature_extractor = hub.KerasLayer(URL, input_shape=(image_size, image_size,3))
model = tf.keras.Sequential([
        feature_extractor,
        tf.keras.layers.Dense(2, activation = 'softmax')
])
]]
    The pre-trained network is taken as the function [feature_extractor]
    from a batch of images to a batch of feature vectors. *)
Definition predict (feature_extractor : tensor R -> result (tensor R))
    (kernel bias : tensor R) (image_batch : tensor R) : result (tensor R) :=
  let! features := feature_extractor image_batch in
  Keras.dense kernel bias Keras.softmax features.

End Part8Model.

Module Part8Plot.
Local Open Scope attempt_scope.

(** [class_names = ['cat', 'dog']] *)
Definition class_names : list string := ["cat"; "dog"].

(** Modelled from the spec: [np.argmax] is NumPy's: the position of the
    first largest value; an empty array is refused with [ValueError]. *)
Fixpoint argmax_from (best_index : nat) (best : R) (index : nat)
    (values : list R) : nat :=
  match values with
  | [] => best_index
  | v :: rest =>
      if Rlt_dec best v
      then argmax_from index v (S index) rest
      else argmax_from best_index best (S index) rest
  end.

Definition np_argmax (values : list R) : attempt nat :=
  match values with
  | [] => Failed (Raised ValueError)
  | v :: rest => Done (argmax_from 0 v 1 rest)
  end.

(** Modelled from the spec: [plt.subplot(nrows, ncols, index)] is
    matplotlib's; the index counts from 1 to [nrows * ncols]. *)
Definition subplot (nrows ncols index : nat) : attempt nat :=
  if (1 <=? index)%nat && (index <=? nrows * ncols)%nat
  then Done index
  else Failed (Raised ValueError).

(** The body of the loop, for one [n]:
[[
    plt.subplot(6,5,n+1)
    plt.imshow(images[n], cmap = plt.cm.binary)
    color = 'green' if np.argmax(ps[n]) == labels[n] else 'red'
    plt.title(class_names[np.argmax(ps[n])], color=color)
    plt.axis('off')
]]
    The value is the position of the subplot, its title and the colour of
    the title. *)
Definition check_prediction (images ps : tensor R) (labels : tensor Z)
    (n : nat) : attempt (nat * string * string) :=
  let? position := subplot 6 5 (n + 1) in
  let? image := getitem images n in
  let? row := getitem ps n in
  let? predicted := np_argmax (data row) in
  let? label := getitem labels n in
  let? color :=
    match data label with
    | [v] => Done (if (Z.of_nat predicted =? v)%Z then "green" else "red")
    | _ => Failed (Raised ValueError)
    end in
  let? row := getitem ps n in
  let? predicted := np_argmax (data row) in
  let? name := list_getitem class_names predicted in
  Done (position, name, color).

(** [[
    images = image_batch.numpy().squeeze()
    labels = label_batch.numpy()
plt.figure(figsize=(10,15))
for n in range(30):
    ...
]]
    [ps] is what [model.predict(image_batch)] returned. *)
Definition check_predictions (image_batch ps : tensor R) (label_batch : tensor Z)
  : attempt (list (nat * string * string)) :=
  let images := np_squeeze image_batch in
  let labels := label_batch in
  for_each_from 0 30 (check_prediction images ps labels).

End Part8Plot.

(** ** Part 8: the cell that checks the predictions *)

Module Part8Check.
Local Open Scope attempt_scope.

Section Cell.
Context `{ImageResize}.

(** The whole cell that checks the predictions, run in a kernel where the
    earlier cells have been run and [images], [labels] and [ps] are not yet
    bound:
[[
for image_batch, label_batch in testing_batches.take(1):
    ps = model.predict(image_batch)
    images = image_batch.numpy().squeeze()
    labels = label_batch.numpy()

plt.figure(figsize=(10,15))

for n in range(30):
    ...
]]
    With no batch the first loop binds nothing, and the second stops at
    [images]. *)
Definition check_predictions_cell
    (feature_extractor : tensor R -> result (tensor R))
    (kernel bias : tensor R) (test_set : dataset (tensor Z * tensor Z))
  : attempt (list (nat * string * string)) :=
  let? testing_batches := of_result (Part8.testing_batches test_set) in
  match testing_batches with
  | [] => Failed (Raised (NameError "images"))
  | (image_batch, label_batch) :: _ =>
      let? ps :=
        of_result (Part8Model.predict feature_extractor kernel bias image_batch) in
      Part8Plot.check_predictions image_batch ps label_batch
  end.

End Cell.

End Part8Check.

(** ** Part 3: the loss and accuracy the cells print *)

Module Part3Report.

(** The names [loss] and [accuracy] of the notebook, the number of
    evaluations made so far, and the figures printed with their captions. *)
Record kernel : Type := mk_kernel {
  loss : option R;
  accuracy : option R;
  evaluations : nat;
  printed : list (string * R)
}.

Definition fresh : kernel := mk_kernel None None 0 [].

(** [[
for image_batch, label_batch in training_batches.take(1):
    loss, accuracy = model.evaluate(image_batch, label_batch)
]]
    on a data set that is not empty. [results n] is what the framework
    returns at the evaluation number [n]. *)
Definition evaluate (results : nat -> R * R) (k : kernel) : kernel :=
  let '(l, a) := results (evaluations k) in
  mk_kernel (Some l) (Some a) (S (evaluations k)) (printed k).

(** [[
print(loss_caption.format(loss))
print(accuracy_caption.format(accuracy))
]] *)
Definition report (loss_caption accuracy_caption : string) (k : kernel)
  : result kernel :=
  match loss k with
  | None => Raise (NameError "loss")
  | Some l =>
      match accuracy k with
      | None => Raise (NameError "accuracy")
      | Some a =>
          Ok (mk_kernel (loss k) (accuracy k) (evaluations k)
                (printed k ++ [(loss_caption, l); (accuracy_caption, a)]))
      end
  end.

Definition before_captions : string * string :=
  ("\nLoss before training: {:,.3f}", "Accuracy before training: {:.3%}").
Definition after_captions : string * string :=
  ("\nLoss after training: {:,.3f}", "Accuracy after training: {:.3%}").

(** The cell that evaluates the untrained model and prints. *)
Definition evaluate_before (results : nat -> R * R) (k : kernel) : result kernel :=
  report (fst before_captions) (snd before_captions) (evaluate results k).

(** The cell that evaluates the trained model and prints. *)
Definition evaluate_after (results : nat -> R * R) (k : kernel) : result kernel :=
  report (fst after_captions) (snd after_captions) (evaluate results k).

(** The two exercise cells as they are shipped: the solution is left out and
    only the prints remain. *)
Definition exercise_before (k : kernel) : result kernel :=
  report (fst before_captions) (snd before_captions) k.
Definition exercise_after (k : kernel) : result kernel :=
  report (fst after_captions) (snd after_captions) k.

(** The four cells in the order of the notebook; [model.fit], between the
    first two, binds neither [loss] nor [accuracy]. *)
Definition run (results : nat -> R * R) : result kernel :=
  result_bind (evaluate_before results fresh) (fun k =>
  result_bind (evaluate_after results k) (fun k =>
  result_bind (exercise_before k) exercise_after)).

End Part3Report.

(** ** More sample inputs *)

(** The names and objects of the first notebook after its first cells: the
    sample features, weights and bias. *)
Definition sample_kernel_state : Part1Eager.kernel :=
  Part1Eager.mk_kernel
    (<["features" := 0%nat]> (<["weights" := 1%nat]> (<["bias" := 2%nat]> ∅)))
    (Eager.mk_heap
       (<[0%nat := sample_features]>
          (<[1%nat := sample_weights]> (<[2%nat := sample_bias]> ∅)))
       3).

(** Two colour images of different sizes with their labels. *)
Definition sample_colour_dataset : dataset (tensor Z * tensor Z) :=
  [ (sample_image, sample_label);
    (mk_tensor [1; 2; 3]%nat [255; 0; 0; 0; 0; 255]%Z, tf_constant 0%Z) ].

(** Four grey two-pixel images with their labels: a training set that
    declares 4 examples, so a shuffle buffer of one element, which yields
    the elements in their order. *)
Definition sample_training_set : dataset (tensor Z * tensor Z) :=
  sample_dataset ++ [ (mk_tensor [1; 2; 1]%nat [17; 34]%Z, tf_constant 4%Z) ].

(** Four colour images of two sizes. *)
Definition sample_mixed_set : dataset (tensor Z * tensor Z) :=
  sample_colour_dataset ++ sample_colour_dataset.

(** Six colour images of two sizes: the training split of a data set of 10
    examples. *)
Definition sample_colour_training_set : dataset (tensor Z * tensor Z) :=
  sample_colour_dataset ++ sample_colour_dataset ++ sample_colour_dataset.

(** A batch of two grey images of 28 by 28 pixels, the first white and the
    second black. *)
Definition sample_image_batch : tensor R :=
  mk_tensor [2; 28; 28; 1]%nat (repeat 0%R 784 ++ repeat 1%R 784).

(** Kernels and biases of the shapes the layers of the Part 3 model have. *)
Definition sample_model_weights : list (tensor R * tensor R) :=
  [ (mk_tensor [784; 128]%nat (repeat 0%R (784 * 128)),
     mk_tensor [128]%nat (repeat 0%R 128));
    (mk_tensor [128; 64]%nat (repeat 0%R (128 * 64)),
     mk_tensor [64]%nat (repeat 0%R 64));
    (mk_tensor [64; 10]%nat (repeat 0%R (64 * 10)),
     mk_tensor [10]%nat (repeat 0%R 10)) ].

(** A feature extractor that gives every image the same four features, and
    a kernel and a bias for the two classes. *)
Definition sample_feature_extractor (image_batch : tensor R)
  : result (tensor R) :=
  match shape image_batch with
  | k :: _ => Ok (mk_tensor [k; 4]%nat (repeat 1%R (k * 4)))
  | [] => Raise ValueError
  end.
Definition sample_kernel : tensor R :=
  mk_tensor [4; 2]%nat [1; 0; 0; 1; 1; 0; 0; 1]%R.
Definition sample_class_bias : tensor R := mk_tensor [2]%nat [0; 1]%R.

(** Batches of [k] colour images, the predictions for them (cat 1/4, dog
    3/4) and their labels (all dogs). *)
Definition sample_colour_batch (k : nat) : tensor R :=
  mk_tensor [k; 224; 224; 3]%nat (repeat 0%R (k * (224 * 224 * 3))).
Definition sample_predictions (k : nat) : tensor R :=
  mk_tensor [k; 2]%nat (concat (repeat [1 / 4; 3 / 4]%R k)).
Definition sample_labels (k : nat) : tensor Z :=
  mk_tensor [k] (repeat 1%Z k).

(** Thirty copies of the one-pixel image: a test set large enough for the
    cell that checks the predictions. *)
Definition sample_test_set : dataset (tensor Z * tensor Z) :=
  repeat (sample_image, sample_label) 30.

(** * Properties *)

(** ** The sigmoid activation *)

Section Sigmoid.
Local Open Scope R_scope.
Import Part1.


Lemma sigmoid_activation_shape (x : tensor R) :
  shape (sigmoid_activation x) = shape x.
Proof. reflexivity. Qed.

Lemma sigmoid_activation_item (x : R) :
  item (sigmoid_activation (tf_constant x)) = logistic x.
Proof. reflexivity. Qed.

Lemma logistic_denominator_pos (x : R) : 0 < 1 + exp (- x).
Proof. pose proof (exp_pos (- x)). lra. Qed.

Lemma logistic_pos (x : R) : 0 < logistic x.
Proof.
  unfold logistic. apply Rdiv_lt_0_compat; [lra | apply logistic_denominator_pos].
Qed.

Lemma logistic_lt_1 (x : R) : logistic x < 1.
Proof.
  unfold logistic.
  pose proof (exp_pos (- x)) as Hexp.
  apply (Rmult_lt_reg_r (1 + exp (- x))); [lra |].
  unfold Rdiv. rewrite Rmult_assoc, Rinv_l by lra. lra.
Qed.

Lemma logistic_increasing (x1 x2 : R) : x1 < x2 -> logistic x1 < logistic x2.
Proof.
  intros Hlt. unfold logistic, Rdiv. rewrite !Rmult_1_l.
  apply Rinv_lt_contravar.
  - apply Rmult_lt_0_compat; apply logistic_denominator_pos.
  - apply Rplus_lt_compat_l, exp_increasing. lra.
Qed.

End Sigmoid.

(** ** The sigmoid activation in single precision *)

Section Powers.
Import Float32.
Local Open Scope R_scope.

Lemma pow2_pos (e : Z) : 0 < pow2 e.
Proof.
  unfold pow2. destruct (0 <=? e)%Z eqn:He.
  - apply IZR_lt. apply Z.pow_pos_nonneg; lia.
  - apply Rinv_0_lt_compat, IZR_lt. apply Z.pow_pos_nonneg; lia.
Qed.

Lemma pow2_nonneg_exponent (e : Z) : (0 <= e)%Z -> pow2 e = IZR (2 ^ e).
Proof. intros He. unfold pow2. now rewrite (proj2 (Z.leb_le 0 e) He). Qed.

Lemma pow2_neg_exponent (e : Z) : (e < 0)%Z -> pow2 e = / IZR (2 ^ (- e)).
Proof.
  intros He. unfold pow2. destruct (0 <=? e)%Z eqn:Hle; [| reflexivity].
  apply Z.leb_le in Hle. lia.
Qed.

(** Scaling by [2 ^ k] moves the exponent. *)
Lemma pow2_scale (e k : Z) :
  (0 <= k)%Z -> (0 <= e + k)%Z -> pow2 e * IZR (2 ^ k) = IZR (2 ^ (e + k)).
Proof.
  intros Hk Hek. destruct (Z_lt_le_dec e 0) as [Hneg | Hpos].
  - rewrite pow2_neg_exponent by assumption.
    assert (Hsplit : (2 ^ k = 2 ^ (- e) * 2 ^ (e + k))%Z).
    { rewrite <- Z.pow_add_r by lia. f_equal. lia. }
    rewrite Hsplit, mult_IZR.
    assert (Hnz : IZR (2 ^ (- e)) <> 0).
    { apply not_0_IZR. apply Z.pow_nonzero; lia. }
    field. exact Hnz.
  - rewrite pow2_nonneg_exponent by assumption.
    rewrite <- mult_IZR, <- Z.pow_add_r by lia. reflexivity.
Qed.

Lemma pow2_le_mono (e1 e2 : Z) : (e1 <= e2)%Z -> pow2 e1 <= pow2 e2.
Proof.
  intros Hle.
  assert (Hbig : forall a b, (0 <= a <= b)%Z -> IZR (2 ^ a) <= IZR (2 ^ b)).
  { intros a b Hab. apply IZR_le, Z.pow_le_mono_r; lia. }
  assert (Hposz : forall a, (0 <= a)%Z -> 1 <= IZR (2 ^ a)).
  { intros a Ha. apply (IZR_le 1). pose proof (Z.pow_pos_nonneg 2 a). lia. }
  destruct (Z_lt_le_dec e1 0) as [H1 | H1], (Z_lt_le_dec e2 0) as [H2 | H2].
  - rewrite !pow2_neg_exponent by assumption.
    apply Rinv_le_contravar;
      [pose proof (Hposz (- e2)%Z ltac:(lia)); lra | apply Hbig; lia].
  - rewrite pow2_neg_exponent, pow2_nonneg_exponent by assumption.
    pose proof (Hposz (- e1)%Z ltac:(lia)) as Ha.
    pose proof (Hposz e2 H2) as Hb.
    assert (/ IZR (2 ^ (- e1)) <= 1).
    { rewrite <- Rinv_1. apply Rinv_le_contravar; lra. }
    lra.
  - lia.
  - rewrite !pow2_nonneg_exponent by assumption. apply Hbig. lia.
Qed.

End Powers.

Section Grid.
Import Float32.
Local Open Scope R_scope.

Lemma representable_0 : representable 0.
Proof.
  exists 0%Z, (-149)%Z. split; [| unfold F2R; lra].
  unfold canonical. lia.
Qed.

Lemma F2R_one : F2R (2 ^ 23) (-23) = 1.
Proof.
  unfold F2R. rewrite pow2_neg_exponent by lia.
  change (- -23)%Z with 23%Z. apply Rinv_r. apply not_0_IZR. lia.
Qed.

Lemma representable_1 : representable 1.
Proof.
  exists (2 ^ 23)%Z, (-23)%Z. split; [| now rewrite F2R_one].
  unfold canonical. lia.
Qed.

Lemma representable_small : representable small.
Proof.
  exists (3 * 2 ^ 22)%Z, (-48)%Z. split; [| reflexivity].
  unfold canonical. lia.
Qed.

Lemma small_value : small = 3 / IZR (2 ^ 26).
Proof.
  unfold small, F2R. rewrite pow2_neg_exponent by lia.
  change (- -48)%Z with 48%Z.
  replace (2 ^ 48)%Z with (2 ^ 22 * 2 ^ 26)%Z by lia.
  rewrite !mult_IZR.
  assert (IZR (2 ^ 22) <> 0) by (apply not_0_IZR; lia).
  assert (IZR (2 ^ 26) <> 0) by (apply not_0_IZR; lia).
  field. split; assumption.
Qed.

Lemma small_bounds : 0 < small /\ 2 * small < / IZR (2 ^ 23).
Proof.
  rewrite small_value.
  assert (H26 : IZR (2 ^ 26) = 8 * IZR (2 ^ 23)).
  { rewrite <- (mult_IZR 8). f_equal. }
  assert (Hpos : 0 < IZR (2 ^ 23)) by (apply IZR_lt; lia).
  rewrite H26. split.
  - apply Rdiv_lt_0_compat; lra.
  - apply (Rmult_lt_reg_r (IZR (2 ^ 23))); [exact Hpos |].
    rewrite Rinv_l by lra. unfold Rdiv. rewrite Rinv_mult.
    replace (2 * (3 * (/ 8 * / IZR (2 ^ 23))) * IZR (2 ^ 23))
      with (6 / 8 * (/ IZR (2 ^ 23) * IZR (2 ^ 23))) by (field; lra).
    rewrite Rinv_l by lra. lra.
Qed.

Lemma overflow_threshold_value :
  overflow_threshold = IZR ((2 ^ 25 - 1) * 2 ^ 103).
Proof.
  unfold overflow_threshold, F2R. rewrite pow2_nonneg_exponent by lia.
  now rewrite <- mult_IZR.
Qed.

Lemma overflow_threshold_above_2 : 2 < overflow_threshold.
Proof. rewrite overflow_threshold_value. apply IZR_lt. lia. Qed.

Lemma overflow_threshold_below : overflow_threshold <= IZR (2 ^ 128).
Proof. rewrite overflow_threshold_value. apply IZR_le. lia. Qed.

(** No number lies strictly between 1 and [1 + 2^-23]. *)
Lemma gap_above_1 (g : R) :
  representable g -> 1 <= g -> g < 1 + / IZR (2 ^ 23) -> g = 1.
Proof.
  intros (m & e & (Hm & He & _) & ->) Hlo Hhi.
  assert (H23 : 0 < IZR (2 ^ 23)) by (apply IZR_lt; lia).
  destruct (Z_lt_le_dec e (-23)) as [Hsmall | Hlarge].
  - (* too fine a grid to reach 1 *)
    exfalso.
    assert (Hp : pow2 e <= pow2 (-24)) by (apply pow2_le_mono; lia).
    rewrite (pow2_neg_exponent (-24)) in Hp by lia.
    change (- -24)%Z with 24%Z in Hp.
    pose proof (pow2_pos e) as Hpos.
    assert (Hmle : IZR m <= IZR (2 ^ 24) - 1).
    { rewrite <- minus_IZR. apply IZR_le. lia. }
    assert (H24 : 0 < IZR (2 ^ 24)) by (apply IZR_lt; lia).
    unfold F2R in Hlo.
    assert (Hbound : IZR m * pow2 e <= (IZR (2 ^ 24) - 1) * / IZR (2 ^ 24)).
    { destruct (Rle_dec 0 (IZR m)) as [Hnn | Hn].
      - apply Rmult_le_compat; lra.
      - assert (IZR m * pow2 e <= 0).
        { assert (Hneg : IZR m < 0) by lra. nra. }
        assert (0 <= (IZR (2 ^ 24) - 1) * / IZR (2 ^ 24)).
        { apply Rmult_le_pos; [| apply Rlt_le, Rinv_0_lt_compat; lra].
          assert (1 <= IZR (2 ^ 24)) by (apply (IZR_le 1); lia). lra. }
        lra. }
    assert ((IZR (2 ^ 24) - 1) * / IZR (2 ^ 24) < 1).
    { apply (Rmult_lt_reg_r (IZR (2 ^ 24))); [exact H24 |].
      rewrite Rmult_assoc, Rinv_l by lra. lra. }
    lra.
  - (* a multiple of 2^-23 *)
    assert (Hscale : F2R m e * IZR (2 ^ 23) = IZR (m * 2 ^ (e + 23))).
    { unfold F2R. rewrite Rmult_assoc, pow2_scale by lia.
      now rewrite <- mult_IZR. }
    assert (Hlo' : IZR (2 ^ 23) <= IZR (m * 2 ^ (e + 23))).
    { rewrite <- Hscale. rewrite <- (Rmult_1_l (IZR (2 ^ 23))) at 1.
      apply Rmult_le_compat_r; lra. }
    assert (Hhi' : IZR (m * 2 ^ (e + 23)) < IZR (2 ^ 23 + 1)).
    { rewrite <- Hscale, plus_IZR.
      replace (IZR (2 ^ 23) + 1)
        with ((1 + / IZR (2 ^ 23)) * IZR (2 ^ 23)) by (field; lra).
      apply Rmult_lt_compat_r; lra. }
    apply le_IZR in Hlo'. apply lt_IZR in Hhi'.
    assert (Heq : (m * 2 ^ (e + 23) = 2 ^ 23)%Z) by lia.
    rewrite Heq in Hscale.
    apply (Rmult_eq_reg_r (IZR (2 ^ 23))); [| lra]. rewrite Hscale. lra.
Qed.

End Grid.

Section Rounding.
Import Float32.
Local Open Scope R_scope.
Context `{RoundToNearest}.

Lemma nearest_fixed (g : R) : representable g -> nearest g = g.
Proof.
  intros Hg. pose proof (nearest_is_nearest g g Hg) as Hd.
  replace (g - g) with 0 in Hd by lra. rewrite Rabs_R0 in Hd.
  pose proof (Rabs_pos (g - nearest g)) as Hpos.
  assert (Hzero : Rabs (g - nearest g) = 0) by lra.
  destruct (Req_dec (g - nearest g) 0) as [Heq | Hne]; [lra |].
  apply Rabs_no_R0 in Hne. contradiction.
Qed.

Lemma nearest_monotone (x y : R) : x <= y -> nearest x <= nearest y.
Proof.
  intros Hxy. destruct (Rle_dec (nearest x) (nearest y)) as [Hle | Hgt];
    [exact Hle | exfalso].
  pose proof (nearest_is_nearest x (nearest y) (nearest_representable y)) as Hx.
  pose proof (nearest_is_nearest y (nearest x) (nearest_representable x)) as Hy.
  assert (Heq : x = y).
  { unfold Rabs in Hx, Hy.
    repeat match goal with
           | H : context [Rcase_abs ?a] |- _ => destruct (Rcase_abs a)
           end; lra. }
  subst y. lra.
Qed.

Lemma nearest_0 : nearest 0 = 0.
Proof. apply nearest_fixed, representable_0. Qed.

Lemma nearest_1 : nearest 1 = 1.
Proof. apply nearest_fixed, representable_1. Qed.

Lemma nearest_nonneg (x : R) : 0 <= x -> 0 <= nearest x.
Proof. intros Hx. rewrite <- nearest_0. now apply nearest_monotone. Qed.

(** One plus a number up to [3 * 2^-26] rounds to one. *)
Lemma nearest_just_above_1 (t : R) : 0 <= t <= small -> nearest (1 + t) = 1.
Proof.
  intros [Hlo Hhi]. destruct small_bounds as [_ Hsmall].
  apply gap_above_1.
  - apply nearest_representable.
  - rewrite <- nearest_1 at 1. apply nearest_monotone. lra.
  - pose proof (nearest_is_nearest (1 + t) 1 representable_1) as Hd.
    replace (1 + t - 1) with t in Hd by lra.
    rewrite (Rabs_pos_eq t) in Hd by exact Hlo.
    unfold Rabs in Hd. destruct (Rcase_abs _) in Hd; lra.
Qed.

Lemma round_finite (x : R) :
  - overflow_threshold < x < overflow_threshold ->
  round x = Finite (nearest x).
Proof.
  intros [Hlo Hhi]. unfold round.
  destruct (Rle_dec overflow_threshold x); [lra |].
  destruct (Rle_dec x (- overflow_threshold)); [lra | reflexivity].
Qed.

Lemma round_overflow (x : R) : overflow_threshold <= x -> round x = PosInf.
Proof.
  intros Hx. unfold round. destruct (Rle_dec overflow_threshold x); [reflexivity | lra].
Qed.

Lemma round_monotone (x y : R) : x <= y -> f_le (round x) (round y).
Proof.
  intros Hxy. pose proof overflow_threshold_above_2 as Hthr. unfold round.
  destruct (Rle_dec overflow_threshold x), (Rle_dec overflow_threshold y);
    try (cbn; lra); try exact I.
  - destruct (Rle_dec x (- overflow_threshold)); exact I.
  - destruct (Rle_dec x (- overflow_threshold)),
             (Rle_dec y (- overflow_threshold)); cbn; try lra; try exact I.
    now apply nearest_monotone.
Qed.

Lemma round_0 : round 0 = Finite 0.
Proof.
  pose proof overflow_threshold_above_2.
  rewrite round_finite by lra. now rewrite nearest_0.
Qed.

Lemma round_1 : round 1 = Finite 1.
Proof.
  pose proof overflow_threshold_above_2.
  rewrite round_finite by lra. now rewrite nearest_1.
Qed.

End Rounding.

Section Exponential.
Import Float32.
Local Open Scope R_scope.

Lemma exp_INR_mult (n : nat) (x : R) : exp (INR n * x) = exp x ^ n.
Proof.
  induction n as [| n IH].
  - cbn [INR pow]. rewrite Rmult_0_l. apply exp_0.
  - rewrite S_INR, Rmult_plus_distr_r, Rmult_1_l, exp_plus, IH.
    cbn [pow]. ring.
Qed.

(** [exp (n / b) >= ((b + 1) / b) ^ n], from [exp x >= 1 + x]. *)
Lemma exp_ge_power (b n : Z) :
  (0 < b)%Z -> (0 <= n)%Z ->
  IZR ((b + 1) ^ n) / IZR (b ^ n) <= exp (IZR n / IZR b).
Proof.
  intros Hb Hn.
  assert (Hbpos : 0 < IZR b) by now apply IZR_lt.
  replace (IZR n / IZR b) with (INR (Z.to_nat n) * / IZR b).
  2:{ rewrite INR_IZR_INZ, Z2Nat.id by exact Hn. reflexivity. }
  rewrite exp_INR_mult.
  replace (IZR ((b + 1) ^ n) / IZR (b ^ n))
    with ((IZR (b + 1) / IZR b) ^ Z.to_nat n).
  - apply pow_incr. split.
    + apply Rlt_le, Rdiv_lt_0_compat; [apply IZR_lt; lia | exact Hbpos].
    + rewrite plus_IZR.
      replace ((IZR b + 1) / IZR b) with (1 + / IZR b) by (field; lra).
      apply exp_ineq1_le.
  - unfold Rdiv. rewrite Rpow_mult_distr, pow_inv, !pow_IZR.
    now rewrite Z2Nat.id by exact Hn.
Qed.

Lemma div_le_from_Z (a b c d : Z) :
  (0 < b)%Z -> (0 < d)%Z -> (a * d <= c * b)%Z ->
  IZR a / IZR b <= IZR c / IZR d.
Proof.
  intros Hb Hd Hle.
  apply IZR_lt in Hb, Hd. apply IZR_le in Hle. rewrite !mult_IZR in Hle.
  apply (Rmult_le_reg_r (IZR b * IZR d)); [now apply Rmult_lt_0_compat |].
  replace (IZR a / IZR b * (IZR b * IZR d)) with (IZR a * IZR d) by (field; lra).
  replace (IZR c / IZR d * (IZR b * IZR d)) with (IZR c * IZR b) by (field; lra).
  exact Hle.
Qed.

Lemma exp_1_lower : IZR 2712 / IZR 1000 <= exp 1.
Proof.
  replace (exp 1) with (exp (IZR 256 / IZR 256)) by (f_equal; lra).
  eapply Rle_trans; [| apply exp_ge_power; lia].
  apply div_le_from_Z; [lia | apply Z.pow_pos_nonneg; lia |].
  apply Z.leb_le. vm_compute. reflexivity.
Qed.

Lemma exp_Z_lower (n : Z) :
  (0 <= n)%Z -> IZR (2712 ^ n) / IZR (1000 ^ n) <= exp (IZR n).
Proof.
  intros Hn.
  replace (IZR n) with (INR (Z.to_nat n) * 1)
    by (rewrite INR_IZR_INZ, Z2Nat.id by exact Hn; lra).
  rewrite exp_INR_mult.
  replace (IZR (2712 ^ n) / IZR (1000 ^ n))
    with ((IZR 2712 / IZR 1000) ^ Z.to_nat n).
  - apply pow_incr. split; [lra | apply exp_1_lower].
  - unfold Rdiv. rewrite Rpow_mult_distr, pow_inv, !pow_IZR.
    now rewrite Z2Nat.id by exact Hn.
Qed.

Lemma exp_17 : / small <= exp 17.
Proof.
  eapply Rle_trans; [| apply (exp_Z_lower 17); lia].
  rewrite small_value.
  assert (H26 : 0 < IZR (2 ^ 26)) by (apply IZR_lt; lia).
  replace (/ (3 / IZR (2 ^ 26))) with (IZR (2 ^ 26) / IZR 3) by (field; lra).
  apply div_le_from_Z; [lia | apply Z.pow_pos_nonneg; lia |].
  apply Z.leb_le. vm_compute. reflexivity.
Qed.

Lemma exp_89 : overflow_threshold <= exp 89.
Proof.
  eapply Rle_trans; [apply overflow_threshold_below |].
  eapply Rle_trans; [| apply (exp_Z_lower 89); lia].
  replace (IZR (2 ^ 128)) with (IZR (2 ^ 128) / IZR 1) by (field; lra).
  apply div_le_from_Z; [lia | apply Z.pow_pos_nonneg; lia |].
  apply Z.leb_le. vm_compute. reflexivity.
Qed.

Lemma exp_le_mono (x y : R) : x <= y -> exp x <= exp y.
Proof.
  intros [Hlt | ->]; [apply Rlt_le, exp_increasing, Hlt | apply Rle_refl].
Qed.

(** From 17 on, [exp (- x)] is at most [3 * 2^-26]. *)
Lemma exp_neg_small (x : R) : 17 <= x -> 0 < exp (- x) <= small.
Proof.
  intros Hx. split; [apply exp_pos |].
  destruct small_bounds as [Hsmall _].
  apply Rle_trans with (exp (- 17)); [apply exp_le_mono; lra |].
  replace (exp (- 17)) with (/ exp 17)
    by (rewrite <- exp_Ropp; f_equal; lra).
  rewrite <- (Rinv_inv small).
  apply Rinv_le_contravar; [now apply Rinv_0_lt_compat | apply exp_17].
Qed.

Lemma exp_overflows (x : R) : 89 <= x -> overflow_threshold <= exp x.
Proof.
  intros Hx. apply Rle_trans with (exp 89); [apply exp_89 | now apply exp_le_mono].
Qed.

End Exponential.

Section SigmoidFloat32.
Import Float32 Part1Float32.
Local Open Scope R_scope.
Context `{RoundToNearest}.

Lemma sigmoid_activation_float32_data (x : tensor float32) :
  data (Part1Float32.sigmoid_activation x) = map sigmoid_value (data x).
Proof.
  unfold Part1Float32.sigmoid_activation, tensor_map. cbn [data].
  now rewrite !map_map.
Qed.

Lemma sigmoid_activation_float32_constant (v : float32) :
  Part1Float32.sigmoid_activation (tf_constant v) = tf_constant (sigmoid_value v).
Proof. reflexivity. Qed.

Lemma round_not_NaN (x : R) : round x <> NaN.
Proof.
  unfold round. destruct (Rle_dec _ _); [discriminate |].
  destruct (Rle_dec _ _); discriminate.
Qed.

Lemma f_le_PosInf (v : float32) : v <> NaN -> f_le v PosInf.
Proof. destruct v; intros Hv; try exact I. contradiction. Qed.

Lemma f_le_NegInf (v : float32) : v <> NaN -> f_le NegInf v.
Proof. destruct v; intros Hv; try exact I. contradiction. Qed.

Lemma f_le_not_NaN (v w : float32) : f_le v w -> v <> NaN /\ w <> NaN.
Proof. destruct v, w; cbn; intros Hle; try contradiction; split; discriminate. Qed.

Lemma f_neg_antitone (v w : float32) : f_le v w -> f_le (f_neg w) (f_neg v).
Proof. destruct v, w; cbn; try tauto. lra. Qed.

Lemma f_exp_above_0 (v : float32) : v <> NaN -> f_le (Finite 0) (f_exp v).
Proof.
  destruct v as [r | | |]; intros Hv; cbn [f_exp]; try exact I; try contradiction.
  - rewrite <- round_0. apply round_monotone, Rlt_le, exp_pos.
  - cbn. lra.
Qed.

Lemma f_exp_monotone (v w : float32) : f_le v w -> f_le (f_exp v) (f_exp w).
Proof.
  destruct v as [a | | |], w as [b | | |]; cbn [f_le f_exp]; try tauto.
  - intros Hab. now apply round_monotone, exp_le_mono.
  - intros _. apply f_le_PosInf, round_not_NaN.
  - intros _. apply (f_exp_above_0 (Finite b)). discriminate.
  - intros _. lra.
Qed.

Lemma f_add_1_monotone (v w : float32) :
  f_le v w -> f_le (f_add (Finite 1) v) (f_add (Finite 1) w).
Proof.
  destruct v as [a | | |], w as [b | | |]; cbn [f_le f_add]; try tauto.
  - intros Hab. apply round_monotone. lra.
  - intros _. apply f_le_PosInf, round_not_NaN.
  - intros _. apply f_le_NegInf, round_not_NaN.
Qed.

Lemma f_div_1_antitone (v w : float32) :
  f_le (Finite 1) v -> f_le v w ->
  f_le (f_div (Finite 1) w) (f_div (Finite 1) v).
Proof.
  destruct v as [a | | |], w as [b | | |]; cbn [f_le f_div]; try tauto.
  - intros Ha Hab.
    destruct (Req_dec_T b 0); [lra |]. destruct (Req_dec_T a 0); [lra |].
    apply round_monotone. unfold Rdiv. rewrite !Rmult_1_l.
    apply Rinv_le_contravar; lra.
  - intros Ha _. destruct (Req_dec_T a 0); [lra |].
    change (f_le (Finite 0) (round (1 / a))).
    rewrite <- round_0. apply round_monotone.
    apply Rlt_le, Rdiv_lt_0_compat; lra.
  - intros _ _. lra.
Qed.

(** The denominator [1 + exp(-x)] is at least 1, or infinite. *)
Lemma denominator_above_1 (v : float32) :
  v <> NaN -> f_le (Finite 1) (f_add (Finite 1) (f_exp (f_neg v))).
Proof.
  intros Hv.
  assert (Hneg : f_neg v <> NaN) by (destruct v; (discriminate || contradiction)).
  pose proof (f_add_1_monotone _ _ (f_exp_above_0 (f_neg v) Hneg)) as Hle.
  cbn [f_add] in Hle. replace (1 + 0) with 1 in Hle by lra.
  now rewrite round_1 in Hle.
Qed.

Lemma sigmoid_value_range (v : float32) :
  v <> NaN -> exists p : R, sigmoid_value v = Finite p /\ 0 <= p <= 1.
Proof.
  intros Hv. pose proof (denominator_above_1 v Hv) as Hden.
  unfold sigmoid_value.
  destruct (f_add (Finite 1) (f_exp (f_neg v))) as [s | | |];
    cbn [f_le] in Hden; try contradiction.
  - cbn [f_div]. destruct (Req_dec_T s 0); [lra |].
    pose proof overflow_threshold_above_2 as Hthr.
    assert (Hq : 0 < 1 / s <= 1).
    { split; [apply Rdiv_lt_0_compat; lra |].
      unfold Rdiv. rewrite Rmult_1_l, <- Rinv_1.
      apply Rinv_le_contravar; lra. }
    rewrite round_finite by lra.
    exists (nearest (1 / s)). split; [reflexivity |]. split.
    + apply nearest_nonneg. lra.
    + apply Rle_trans with (nearest 1); [apply nearest_monotone; lra |].
      rewrite nearest_1. lra.
  - exists 0. cbn [f_div]. split; [reflexivity | lra].
Qed.

Lemma sigmoid_value_monotone (v w : float32) :
  f_le v w -> f_le (sigmoid_value v) (sigmoid_value w).
Proof.
  intros Hle. destruct (f_le_not_NaN v w Hle) as [Hv Hw].
  unfold sigmoid_value. apply f_div_1_antitone.
  - now apply denominator_above_1.
  - now apply f_add_1_monotone, f_exp_monotone, f_neg_antitone.
Qed.

Lemma sigmoid_value_saturates_high (x : R) :
  17 <= x -> sigmoid_value (Finite x) = Finite 1.
Proof.
  intros Hx. destruct (exp_neg_small x Hx) as [Hpos Hle].
  destruct small_bounds as [Hs0 Hs1].
  pose proof overflow_threshold_above_2 as Hthr.
  assert (H23 : / IZR (2 ^ 23) <= 1).
  { rewrite <- Rinv_1. apply Rinv_le_contravar; [lra |].
    apply (IZR_le 1). lia. }
  unfold sigmoid_value. cbn [f_neg f_exp].
  rewrite round_finite by lra. cbn [f_add].
  assert (Ht : 0 <= nearest (exp (- x)) <= small).
  { split; [apply nearest_nonneg; lra |].
    rewrite <- (nearest_fixed small representable_small).
    now apply nearest_monotone. }
  rewrite round_finite by lra.
  rewrite nearest_just_above_1 by exact Ht. cbn [f_div].
  destruct (Req_dec_T 1 0); [lra |].
  replace (1 / 1) with 1 by lra. apply round_1.
Qed.

Lemma sigmoid_value_saturates_low (x : R) :
  x <= -89 -> sigmoid_value (Finite x) = Finite 0.
Proof.
  intros Hx. unfold sigmoid_value. cbn [f_neg f_exp].
  rewrite round_overflow by (apply exp_overflows; lra). reflexivity.
Qed.

End SigmoidFloat32.

Section NearestEven.
Import Float32.
Local Open Scope R_scope.

Lemma grid_canonical (m e : Z) : In (m, e) grid <-> canonical m e.
Proof.
  unfold grid, mantissas, exponents, canonical, canonicalb.
  rewrite in_flat_map. split.
  - intros (e' & He' & Hin). apply in_flat_map in Hin as (m' & Hm' & Hin).
    apply list_elem_of_In, elem_of_seqZ in He', Hm'.
    destruct ((e' =? -149)%Z || (2 ^ 23 <=? Z.abs m')%Z) eqn:Hc;
      [| contradiction].
    destruct Hin as [Heq | []]. injection Heq as -> ->.
    apply orb_true_iff in Hc. rewrite Z.eqb_eq, Z.leb_le in Hc. lia.
  - intros (Hm & He & Hc). exists e. split.
    + apply list_elem_of_In, elem_of_seqZ. lia.
    + apply in_flat_map. exists m. split.
      * apply list_elem_of_In, elem_of_seqZ. lia.
      * assert (Hb : (e =? -149)%Z || (2 ^ 23 <=? Z.abs m)%Z = true).
        { apply orb_true_iff. rewrite Z.eqb_eq, Z.leb_le. exact Hc. }
        rewrite Hb. now left.
Qed.

Lemma closer_choice (x : R) (b c : Z * Z) :
  (closer x b c = b \/ closer x b c = c)
  /\ distance x (closer x b c) <= distance x b
  /\ distance x (closer x b c) <= distance x c.
Proof.
  unfold closer.
  destruct (Rlt_dec (distance x c) (distance x b)); [split; [now right | lra] |].
  destruct (Rlt_dec (distance x b) (distance x c)); [split; [now left | lra] |].
  destruct (Z.even (fst c)); (split; [tauto | lra]).
Qed.

Lemma closer_fold (x : R) (l : list (Z * Z)) : forall b : Z * Z,
  (fold_left (closer x) l b = b \/ In (fold_left (closer x) l b) l)
  /\ distance x (fold_left (closer x) l b) <= distance x b
  /\ (forall c, In c l -> distance x (fold_left (closer x) l b) <= distance x c).
Proof.
  induction l as [| c l IH]; intros b; cbn [fold_left].
  - split; [now left |]. split; [apply Rle_refl | intros c []].
  - destruct (IH (closer x b c)) as (Hin & Hbest & Hall).
    destruct (closer_choice x b c) as (Hchoice & Hb & Hc).
    split; [| split].
    + destruct Hin as [-> | Hin]; [| right; now right].
      destruct Hchoice as [-> | ->]; [now left | right; now left].
    + lra.
    + intros c' [<- | Hin']; [lra | now apply Hall].
Qed.

Lemma nearest_even_representable (x : R) : representable (nearest_even x).
Proof.
  unfold nearest_even.
  destruct (closer_fold x grid (0%Z, (-149)%Z)) as (Hin & _).
  destruct (fold_left (closer x) grid (0%Z, (-149)%Z)) as [m e] eqn:Hfold.
  exists m, e. split; [| reflexivity].
  destruct Hin as [Heq | Hin]; [| now apply grid_canonical].
  injection Heq as -> ->. unfold canonical. lia.
Qed.

Lemma nearest_even_is_nearest (x g : R) :
  representable g -> Rabs (x - nearest_even x) <= Rabs (x - g).
Proof.
  intros (m & e & Hc & ->). unfold nearest_even.
  destruct (closer_fold x grid (0%Z, (-149)%Z)) as (_ & _ & Hall).
  apply (Hall (m, e)). now apply grid_canonical.
Qed.

End NearestEven.

#[local] Instance nearest_even_rounding : Float32.RoundToNearest := {|
  Float32.nearest := Float32.nearest_even;
  Float32.nearest_representable := nearest_even_representable;
  Float32.nearest_is_nearest := nearest_even_is_nearest
|}.

(** C8 as the claim states it fails on the [float32] numbers the code
    computes with: at 17 and at 100 [sigmoid_activation] returns exactly
    1.0, so it is not below 1 and not strictly increasing there, and at -89
    it returns exactly 0.0. *)
Lemma sigmoid_activation_reaches_its_bounds :
  Part1Float32.sigmoid_activation (tf_constant (Float32.Finite 17))
  = tf_constant (Float32.Finite 1)
  /\ Part1Float32.sigmoid_activation (tf_constant (Float32.Finite 100))
     = tf_constant (Float32.Finite 1)
  /\ Part1Float32.sigmoid_activation (tf_constant (Float32.Finite (-89)))
     = tf_constant (Float32.Finite 0).
Proof.
  rewrite !sigmoid_activation_float32_constant.
  rewrite !sigmoid_value_saturates_high by lra.
  rewrite sigmoid_value_saturates_low by lra.
  repeat split.
Qed.

(** C8, amended. [sigmoid_activation] at [x] is [1/(1+exp(-x))] with every
    operation rounded to [float32]. For every [float32] input that is not
    NaN it lies between 0 and 1, the bounds included, and it is
    monotonically non-decreasing in its input; it is exactly 1.0 from 17 on
    and exactly 0.0 up to -89. The shape of a tensor is kept. *)
Theorem sigmoid_activation_float32_bounded_monotone
    `{Float32.RoundToNearest} :
  (forall v : Float32.float32,
     Part1Float32.sigmoid_activation (tf_constant v)
     = tf_constant
         (Float32.f_div (Float32.Finite 1)
            (Float32.f_add (Float32.Finite 1)
               (Float32.f_exp (Float32.f_neg v)))))
  /\ (forall x : tensor Float32.float32,
     shape (Part1Float32.sigmoid_activation x) = shape x
     /\ (Forall (fun v => v <> Float32.NaN) (data x) ->
         Forall (fun v => exists p : R,
                            v = Float32.Finite p /\ (0 <= p <= 1)%R)
                (data (Part1Float32.sigmoid_activation x))))
  /\ (forall v w : Float32.float32,
        Float32.f_le v w ->
        exists p q : Float32.float32,
          Part1Float32.sigmoid_activation (tf_constant v) = tf_constant p
          /\ Part1Float32.sigmoid_activation (tf_constant w) = tf_constant q
          /\ Float32.f_le p q)
  /\ (forall x : R,
        (17 <= x)%R ->
        Part1Float32.sigmoid_activation (tf_constant (Float32.Finite x))
        = tf_constant (Float32.Finite 1))
  /\ (forall x : R,
        (x <= -89)%R ->
        Part1Float32.sigmoid_activation (tf_constant (Float32.Finite x))
        = tf_constant (Float32.Finite 0)).
Proof.
  split; [reflexivity |]. split; [| split; [| split]].
  - intros x. split; [reflexivity |]. intros Hx.
    rewrite sigmoid_activation_float32_data. apply List.Forall_map.
    eapply List.Forall_impl; [| exact Hx]. intros v Hv.
    now apply sigmoid_value_range.
  - intros v w Hle. exists (Part1Float32.sigmoid_value v), (Part1Float32.sigmoid_value w).
    split; [reflexivity |]. split; [reflexivity |].
    now apply sigmoid_value_monotone.
  - intros x Hx. rewrite sigmoid_activation_float32_constant.
    now rewrite sigmoid_value_saturates_high.
  - intros x Hx. rewrite sigmoid_activation_float32_constant.
    now rewrite sigmoid_value_saturates_low.
Qed.

Lemma sigmoid_activation_float32_bounded_monotone_witness :
  Float32.f_le (Float32.Finite 0) (Float32.Finite 1)
  /\ exists p q : Float32.float32,
       Part1Float32.sigmoid_activation (tf_constant (Float32.Finite 0))
       = tf_constant p
       /\ Part1Float32.sigmoid_activation (tf_constant (Float32.Finite 1))
          = tf_constant q
       /\ Float32.f_le p q.
Proof.
  assert (Hle : Float32.f_le (Float32.Finite 0) (Float32.Finite 1))
    by (cbn; lra).
  split; [exact Hle |].
  exact (proj1 (proj2 (proj2 sigmoid_activation_float32_bounded_monotone))
           (Float32.Finite 0) (Float32.Finite 1) Hle).
Defined.

(** ** Preprocessing: [normalize] and [format_image] *)

Section Preprocessing.
Local Open Scope R_scope.

Lemma scaled_pixel_in_unit (v : R) : 0 <= v <= 255 -> 0 <= v / 255 <= 1.
Proof. intros [Hlo Hhi]. split; lra. Qed.

Lemma truediv_255_in_unit (t : tensor R) :
  Forall (fun v => 0 <= v <= 255) (data t) ->
  Forall (fun v => 0 <= v <= 1) (data (truediv t 255)).
Proof.
  intros Hrange. cbn [truediv tensor_map data]. apply List.Forall_map.
  eapply List.Forall_impl; [| exact Hrange].
  intros v Hv. now apply scaled_pixel_in_unit.
Qed.

Lemma tf_cast_range (t : tensor Z) :
  Forall (fun v => (0 <= v <= 255)%Z) (data t) ->
  Forall (fun v => 0 <= v <= 255) (data (tf_cast t)).
Proof.
  intros Hrange. cbn [tf_cast tensor_map data]. apply List.Forall_map.
  eapply List.Forall_impl; [| exact Hrange].
  intros v [Hlo Hhi]. split.
  - now apply (IZR_le 0).
  - now apply (IZR_le v 255).
Qed.

Lemma tf_cast_well_formed (t : tensor Z) :
  well_formed t -> well_formed (tf_cast t).
Proof.
  unfold well_formed. cbn [tf_cast tensor_map data shape].
  now rewrite length_map.
Qed.

Lemma normalize_image {L} (image : tensor Z) (label : L) :
  Part3.normalize image label = (truediv (tf_cast image) 255, label).
Proof. reflexivity. Qed.

End Preprocessing.

(** *** Bilinear resizing keeps the promise of [tf.image.resize] *)

Section FlatMap.
Local Open Scope nat_scope.

Lemma flat_map_length_const {A B} (f : A -> list B) (l : list A) (n : nat) :
  (forall a, In a l -> length (f a) = n) ->
  length (flat_map f l) = length l * n.
Proof.
  induction l as [| a l IH]; intros Hlen; [reflexivity |].
  cbn [flat_map]. rewrite length_app.
  rewrite (Hlen a) by now left.
  rewrite IH by (intros b Hb; apply Hlen; now right).
  cbn [length]. lia.
Qed.

Lemma Forall_flat_map_intro {A B} (P : B -> Prop) (f : A -> list B) (l : list A) :
  (forall a, In a l -> Forall P (f a)) -> Forall P (flat_map f l).
Proof.
  induction l as [| a l IH]; intros Hall; cbn [flat_map]; [constructor |].
  apply List.Forall_app. split; [apply Hall; now left |].
  apply IH. intros b Hb. apply Hall. now right.
Qed.

End FlatMap.

Section Bilinear.
Local Open Scope R_scope.

Lemma lerp_weight_unit (c : R) : 0 <= lerp_weight c < 1.
Proof.
  unfold lerp_weight. destruct (base_Int_part c) as [Hle Hgt]. lra.
Qed.

Lemma lerp_between (lo hi a b t : R) :
  lo <= a <= hi -> lo <= b <= hi -> 0 <= t < 1 ->
  lo <= a + (b - a) * t <= hi.
Proof. intros Ha Hb Ht. split; nra. Qed.

Lemma source_coordinate_below (o n_in n_out : nat) :
  (o < n_out)%nat -> (0 < n_in)%nat ->
  source_coordinate o n_in n_out < INR n_in.
Proof.
  intros Ho Hin. unfold source_coordinate.
  assert (Hout : 0 < INR n_out) by (apply lt_0_INR; lia).
  assert (Hinr : 0 < INR n_in) by (apply lt_0_INR; lia).
  assert (Hoint : INR o + 1 <= INR n_out).
  { rewrite <- S_INR. apply le_INR. lia. }
  assert (Hfrac : (INR o + 0.5) * (INR n_in / INR n_out) < INR n_in).
  { unfold Rdiv. rewrite <- Rmult_assoc.
    apply (Rmult_lt_reg_r (INR n_out)); [exact Hout |].
    rewrite Rmult_assoc, Rinv_l by lra. nra. }
  lra.
Qed.

Lemma lower_index_in_bounds (o n_in n_out : nat) :
  (o < n_out)%nat -> (0 < n_in)%nat ->
  (lower_index (source_coordinate o n_in n_out) < n_in)%nat.
Proof.
  intros Ho Hin. unfold lower_index.
  pose proof (source_coordinate_below o n_in n_out Ho Hin) as Hbelow.
  destruct (base_Int_part (source_coordinate o n_in n_out)) as [Hle _].
  assert (Hz : (Int_part (source_coordinate o n_in n_out) < Z.of_nat n_in)%Z).
  { apply lt_IZR. rewrite <- INR_IZR_INZ. lra. }
  lia.
Qed.

Lemma upper_index_in_bounds (c : R) (n_in : nat) :
  (0 < n_in)%nat -> (upper_index c n_in < n_in)%nat.
Proof. unfold upper_index. lia. Qed.

Lemma pixel_in_range (h w c : nat) (d : list R) (lo hi : R) (y x ch : nat) :
  length d = (h * w * c)%nat ->
  Forall (fun v => lo <= v <= hi) d ->
  (y < h)%nat -> (x < w)%nat -> (ch < c)%nat ->
  lo <= pixel w c d y x ch <= hi.
Proof.
  intros Hlen Hrange Hy Hx Hch. unfold pixel.
  rewrite List.Forall_forall in Hrange. apply Hrange, nth_In.
  rewrite Hlen.
  assert (Hpixel : (y * w + x < h * w)%nat) by nia.
  nia.
Qed.

Lemma bilinear_pixel_in_range (h w c H W : nat) (d : list R) (lo hi : R)
    (y x ch : nat) :
  length d = (h * w * c)%nat -> (0 < h)%nat -> (0 < w)%nat ->
  Forall (fun v => lo <= v <= hi) d ->
  (y < H)%nat -> (x < W)%nat -> (ch < c)%nat ->
  lo <= bilinear_pixel h w c H W d y x ch <= hi.
Proof.
  intros Hlen Hh Hw Hrange Hy Hx Hch. unfold bilinear_pixel. cbv zeta.
  pose proof (lower_index_in_bounds y h H Hy Hh) as Hly.
  pose proof (lower_index_in_bounds x w W Hx Hw) as Hlx.
  pose proof (upper_index_in_bounds (source_coordinate y h H) h Hh) as Huy.
  pose proof (upper_index_in_bounds (source_coordinate x w W) w Hw) as Hux.
  apply lerp_between; [| | apply lerp_weight_unit];
    (apply lerp_between; [| | apply lerp_weight_unit]);
    now apply (pixel_in_range h w c d lo hi).
Qed.

Lemma bilinear_resize_shape (image : tensor R) (h w c H W : nat) :
  shape image = [h; w; c] -> well_formed image -> (0 < h)%nat -> (0 < w)%nat ->
  exists out, bilinear_resize image (H, W) = Ok out
              /\ shape out = [H; W; c] /\ well_formed out.
Proof.
  intros Hshape Hwf Hh Hw. unfold bilinear_resize. rewrite Hshape.
  unfold well_formed in Hwf. rewrite Hshape in Hwf. cbn [numel fold_right] in Hwf.
  assert (Hchk : (0 <? h)%nat && (0 <? w)%nat
                 && (length (data image) =? h * w * c)%nat = true).
  { rewrite !andb_true_iff, !Nat.ltb_lt, Nat.eqb_eq. repeat split; lia. }
  rewrite Hchk. eexists. split; [reflexivity |]. split; [reflexivity |].
  unfold well_formed. cbn [data shape numel fold_right].
  rewrite (flat_map_length_const _ _ (W * c)%nat).
  - rewrite length_seq. lia.
  - intros y _. rewrite (flat_map_length_const _ _ c).
    + now rewrite length_seq.
    + intros x _. now rewrite length_map, length_seq.
Qed.

Lemma bilinear_resize_range (image out : tensor R) (size : nat * nat) (lo hi : R) :
  bilinear_resize image size = Ok out ->
  Forall (fun v => lo <= v <= hi) (data image) ->
  Forall (fun v => lo <= v <= hi) (data out).
Proof.
  destruct size as [H W]. unfold bilinear_resize.
  destruct (shape image) as [| h [| w [| c [| ? ?]]]]; try discriminate.
  destruct ((0 <? h)%nat && (0 <? w)%nat
            && (length (data image) =? h * w * c)%nat) eqn:Hchk;
    [| discriminate].
  rewrite !andb_true_iff, !Nat.ltb_lt, Nat.eqb_eq in Hchk.
  destruct Hchk as [[Hh Hw] Hlen].
  intros Hout Hrange. injection Hout as <-. cbn [data].
  apply Forall_flat_map_intro. intros y Hy.
  apply Forall_flat_map_intro. intros x Hx.
  apply List.Forall_map, List.Forall_forall. intros ch Hch.
  apply in_seq in Hy, Hx, Hch.
  apply bilinear_pixel_in_range; try assumption; lia.
Qed.

End Bilinear.

#[local] Instance bilinear : ImageResize := {|
  tf_image_resize := bilinear_resize;
  resize_shape := bilinear_resize_shape;
  resize_range := bilinear_resize_range
|}.

(** C1. For every image with pixel values in [0, 255] and every label,
    [normalize] and [format_image] return the image cast to float with
    every value divided by 255, so every output value lies in [0, 1], and
    the label as it was. [format_image] first resizes the image: from a
    height-width-channel image it makes one of height 224 and width 224
    with the same channels, which is shape (224, 224, 3) for the colour
    images of the notebook. *)
Theorem preprocessing_scales_pixels `{ImageResize} {L : Type}
    (image : tensor Z) (label : L) :
  Forall (fun v => (0 <= v <= 255)%Z) (data image) ->
  (Part3.normalize image label = (truediv (tf_cast image) 255, label)
   /\ Forall (fun v => (0 <= v <= 1)%R) (data (fst (Part3.normalize image label)))
   /\ shape (fst (Part3.normalize image label)) = shape image)
  /\ (forall h w c : nat,
        shape image = [h; w; c] -> well_formed image ->
        (0 < h)%nat -> (0 < w)%nat ->
        exists resized : tensor R,
          tf_image_resize (tf_cast image) (224%nat, 224%nat) = Ok resized
          /\ Part8.format_image image label = Ok (truediv resized 255, label)
          /\ shape (truediv resized 255) = [224%nat; 224%nat; c]
          /\ Forall (fun v => (0 <= v <= 1)%R) (data (truediv resized 255))).
Proof.
  intros Hrange. split.
  - split; [reflexivity |]. split; [| reflexivity].
    rewrite normalize_image. cbn [fst].
    now apply truediv_255_in_unit, tf_cast_range.
  - intros h w c Hshape Hwf Hh Hw.
    destruct (resize_shape (tf_cast image) h w c 224 224)
      as (resized & Hresize & Hout & _); auto using tf_cast_well_formed.
    exists resized. split; [exact Hresize |]. split; [| split].
    + unfold Part8.format_image, Part8.image_size. now rewrite Hresize.
    + exact Hout.
    + apply truediv_255_in_unit.
      eapply resize_range; [exact Hresize |]. now apply tf_cast_range.
Qed.

Lemma preprocessing_scales_pixels_witness :
  Forall (fun v => (0 <= v <= 255)%Z) (data sample_image)
  /\ Forall (fun v => (0 <= v <= 1)%R)
            (data (fst (Part3.normalize sample_image sample_label)))
  /\ exists resized : tensor R,
       bilinear_resize (tf_cast sample_image) (224%nat, 224%nat) = Ok resized
       /\ Part8.format_image sample_image sample_label
          = Ok (truediv resized 255, sample_label)
       /\ shape (truediv resized 255) = [224%nat; 224%nat; 3%nat]
       /\ Forall (fun v => (0 <= v <= 1)%R) (data (truediv resized 255)).
Proof.
  assert (Hpixels : Forall (fun v => (0 <= v <= 255)%Z) (data sample_image)).
  { repeat constructor; cbn; lia. }
  destruct (preprocessing_scales_pixels sample_image sample_label Hpixels)
    as [Hnormalize Hformat].
  split; [exact Hpixels |]. split; [apply Hnormalize |].
  apply (Hformat 1%nat 1%nat 3%nat); [reflexivity | reflexivity | lia | lia].
Defined.

(** ** Mapping before or after batching *)

Section MapAndBatch.


Lemma ds_shuffle_map {A B} (f : A -> B) (order : list nat) (ds : dataset A) :
  ds_shuffle order (map f ds) = map f (ds_shuffle order ds).
Proof.
  unfold ds_shuffle.
  induction order as [| i order IH]; [reflexivity |].
  cbn [flat_map]. rewrite IH, map_app, nth_error_map.
  now destruct (nth_error ds i).
Qed.







(** [normalize] on an image and its label, as one function of the pair. *)
Lemma normalize_as_tensor_map (image label : tensor Z) :
  Part3.normalize image label
  = (tensor_map (fun v => (IZR v / 255)%R) image, label).
Proof.
  unfold Part3.normalize, truediv, tf_cast, tensor_map. cbn [shape data].
  now rewrite map_map.
Qed.




End MapAndBatch.


(** ** Broadcasting and matrix multiplication *)

Section Broadcasting.
Local Open Scope nat_scope.

Lemma source_index_prefix (r extra : list nat) : forall i stride,
  i < numel r -> source_index r (r ++ extra) i stride = i * stride.
Proof.
  induction r as [| d r IH]; intros i stride Hi; cbn [numel fold_right] in Hi.
  - destruct extra; cbn [app source_index]; lia.
  - cbn [app source_index].
    assert (Hq : i / d < numel r).
    { apply Nat.Div0.div_lt_upper_bound. exact Hi. }
    rewrite (IH _ _ Hq).
    pose proof (Nat.div_mod_eq i d) as Hdm.
    destruct (d =? 1) eqn:Hd.
    + apply Nat.eqb_eq in Hd. subst d. rewrite Nat.div_1_r. lia.
    + nia.
Qed.

Lemma source_index_same (r : list nat) (i stride : nat) :
  i < numel r -> source_index r r i stride = i * stride.
Proof.
  intros Hi. rewrite <- (app_nil_r r) at 2. now apply source_index_prefix.
Qed.

Lemma numel_app (s1 s2 : list nat) : numel (s1 ++ s2) = numel s1 * numel s2.
Proof.
  induction s1 as [| d s1 IH]; cbn [app numel fold_right].
  - unfold numel. lia.
  - fold (numel (s1 ++ s2)). fold (numel s1). rewrite IH. lia.
Qed.

Lemma numel_rev (s : list nat) : numel (rev s) = numel s.
Proof.
  induction s as [| d s IH]; [reflexivity |].
  cbn [rev]. rewrite numel_app, IH. cbn [numel fold_right]. fold (numel s). lia.
Qed.

Lemma map_nth_seq_from (d : list R) : forall (pre : list R),
  map (fun i => nth i (pre ++ d) 0%R) (seq (length pre) (length d)) = d.
Proof.
  induction d as [| x d IH]; intros pre; [reflexivity |].
  cbn [length seq map]. f_equal.
  - now rewrite nth_middle.
  - specialize (IH (pre ++ [x])).
    rewrite <- app_assoc, length_app in IH. cbn [app length] in IH.
    now rewrite Nat.add_1_r in IH.
Qed.

Lemma map_nth_seq (d : list R) :
  map (fun i => nth i d 0%R) (seq 0 (length d)) = d.
Proof. apply (map_nth_seq_from d []). Qed.

Lemma broadcast_to_self (t : tensor R) :
  well_formed t -> broadcast_to t (shape t) = t.
Proof.
  destruct t as [s d]. unfold well_formed, broadcast_to. cbn [shape data].
  intros Hwf. f_equal.
  transitivity (map (fun i => nth i d 0%R) (seq 0 (length d)));
    [| apply map_nth_seq].
  rewrite Hwf. apply map_ext_in. intros i Hi. apply in_seq in Hi.
  rewrite source_index_same by (rewrite numel_rev; lia).
  now rewrite Nat.mul_1_r.
Qed.

Lemma broadcast_rev_same (r : list nat) : broadcast_rev r r = Some r.
Proof.
  induction r as [| d r IH]; [reflexivity |].
  cbn [broadcast_rev]. now rewrite IH, Nat.eqb_refl.
Qed.

Lemma broadcast_shapes_same (s : list nat) : broadcast_shapes s s = Some s.
Proof.
  unfold broadcast_shapes. rewrite broadcast_rev_same. cbn [option_map].
  now rewrite rev_involutive.
Qed.

Lemma tf_binary_same_shape (op : R -> R -> R) (a b : tensor R) :
  shape a = shape b -> well_formed a -> well_formed b ->
  tf_binary op a b = Ok (mk_tensor (shape a) (zip_with op (data a) (data b))).
Proof.
  intros Hshape Ha Hb. unfold tf_binary.
  rewrite <- Hshape, broadcast_shapes_same.
  rewrite (broadcast_to_self a Ha).
  rewrite Hshape, (broadcast_to_self b Hb). reflexivity.
Qed.

Lemma source_index_ones (src : list nat) :
  Forall (fun d => d = 1) src ->
  forall tgt i stride, source_index src tgt i stride = 0.
Proof.
  induction 1 as [| d src Hd _ IH]; intros tgt i stride.
  - now destruct tgt.
  - destruct tgt as [| t tgt]; [reflexivity |].
    cbn [source_index]. subst d. cbn [Nat.eqb]. now rewrite IH.
Qed.

Lemma numel_ones (ones : list nat) :
  Forall (fun d => d = 1) ones -> numel ones = 1.
Proof.
  induction 1 as [| d ones Hd _ IH]; [reflexivity |].
  cbn [numel fold_right]. fold (numel ones). lia.
Qed.

Lemma broadcast_to_single (x : R) (s target : list nat) :
  Forall (fun d => d = 1) s ->
  broadcast_to (mk_tensor s [x]) target
  = mk_tensor target (map (fun _ => x) (seq 0 (numel target))).
Proof.
  intros Hones. unfold broadcast_to. cbn [shape data]. f_equal.
  apply map_ext. intros i.
  rewrite source_index_ones; [reflexivity |].
  now apply List.Forall_rev.
Qed.

Lemma broadcast_to_padded (t : tensor R) (ones : list nat) :
  well_formed t -> Forall (fun d => d = 1) ones ->
  broadcast_to t (ones ++ shape t) = mk_tensor (ones ++ shape t) (data t).
Proof.
  destruct t as [s d]. unfold well_formed, broadcast_to. cbn [shape data].
  intros Hwf Hones. f_equal.
  transitivity (map (fun i => nth i d 0%R) (seq 0 (length d)));
    [| apply map_nth_seq].
  rewrite numel_app, (numel_ones ones Hones), Nat.mul_1_l, Hwf.
  apply map_ext_in. intros i Hi. apply in_seq in Hi.
  rewrite rev_app_distr, source_index_prefix by (rewrite numel_rev; lia).
  now rewrite Nat.mul_1_r.
Qed.


(** Broadcasting a (1, 1) shape with any shape pads that shape with ones to
    rank 2. *)
Lemma broadcast_shapes_one_by_one (s : list nat) :
  broadcast_shapes [1; 1] s = Some (repeat 1 (2 - length s) ++ s).
Proof.
  unfold broadcast_shapes. rewrite <- (rev_involutive s) at 2 3.
  rewrite length_rev. cbn [rev app].
  destruct (rev s) as [| d1 [| d2 r]]; cbn [broadcast_rev length].
  - reflexivity.
  - destruct (1 =? d1) eqn:Hd; [apply Nat.eqb_eq in Hd; subst d1 |];
      reflexivity.
  - destruct (1 =? d2) eqn:Hd2; [apply Nat.eqb_eq in Hd2; subst d2 |];
      (destruct (1 =? d1) eqn:Hd1; [apply Nat.eqb_eq in Hd1; subst d1 |]);
      destruct r; cbn; reflexivity.
Qed.

Lemma zip_with_const_from (op : R -> R -> R) (x : R) (l : list R) :
  forall start,
    zip_with op (map (fun _ => x) (seq start (length l))) l = map (op x) l.
Proof.
  induction l as [| v l IH]; intros start; [reflexivity |].
  cbn [length seq map zip_with]. now rewrite IH.
Qed.

Lemma repeat_ones (k : nat) : Forall (fun d => d = 1) (repeat 1 k).
Proof. induction k; cbn [repeat]; now constructor. Qed.


(** A (1, 1) tensor plus any tensor: the same values, in the shape of the
    second operand padded with ones to rank 2. *)
Lemma tf_add_one_by_one (x : R) (t : tensor R) :
  well_formed t ->
  tf_add (mk_tensor [1; 1] [x]) t
  = Ok (mk_tensor (repeat 1 (2 - length (shape t)) ++ shape t)
          (map (Rplus x) (data t))).
Proof.
  intros Hwf. unfold tf_add, tf_binary. cbn [shape].
  rewrite broadcast_shapes_one_by_one.
  rewrite broadcast_to_single by (repeat constructor).
  rewrite (broadcast_to_padded t _ Hwf (repeat_ones _)). cbn [data].
  rewrite numel_app, (numel_ones _ (repeat_ones _)), Nat.mul_1_l, <- Hwf.
  now rewrite zip_with_const_from.
Qed.

Lemma zip_with_nth_seq (op : R -> R -> R) (a : list R) : forall (b : list R),
  length b = length a ->
  zip_with op a b
  = map (fun k => op (nth k a 0%R) (nth k b 0%R)) (seq 0 (length a)).
Proof.
  induction a as [| x a IH]; intros [| y b] Hlen; try discriminate;
    [reflexivity |].
  cbn [zip_with length seq map nth]. f_equal.
  rewrite <- seq_shift, map_map. apply IH. now injection Hlen.
Qed.

Lemma flat_map_singleton {A B} (g : A -> B) (l : list A) :
  flat_map (fun a => [g a]) l = map g l.
Proof. induction l as [| a l IH]; [reflexivity |]. cbn. now rewrite IH. Qed.

(** A row vector transposed has the same row-major data. *)
Lemma transpose_row (d : list R) :
  transpose_data 1 (length d) d = d.
Proof.
  unfold transpose_data. cbn [seq map].
  rewrite (flat_map_singleton (fun j => entry (length d) d 0 j)).
  unfold entry. cbn [Nat.mul Nat.add]. apply map_nth_seq.
Qed.

(** A row times a column is the sum of the products of their elements. *)
Lemma matmul_row_column (a b : list R) :
  length b = length a ->
  matmul_data 1 (length a) 1 a b = [sum_list (zip_with Rmult a b)].
Proof.
  intros Hlen. unfold matmul_data. cbn [seq flat_map map app].
  do 2 f_equal. rewrite (zip_with_nth_seq Rmult a b Hlen).
  apply map_ext. intros k. unfold entry. cbn [Nat.mul Nat.add].
  now rewrite Nat.mul_1_r, Nat.add_0_r.
Qed.

Lemma row_length (t : tensor R) (n : nat) :
  shape t = [1; n] -> well_formed t -> length (data t) = n.
Proof.
  unfold well_formed. intros -> Hwf. cbn [numel fold_right] in Hwf. lia.
Qed.

Lemma tf_matmul_transpose_b_row (features weights : tensor R) (n : nat) :
  shape features = [1; n] -> shape weights = [1; n] ->
  well_formed features -> well_formed weights ->
  tf_matmul features weights false true
  = Ok (mk_tensor [1; 1]
          [sum_list (zip_with Rmult (data features) (data weights))]).
Proof.
  intros Hsf Hsw Hwf Hww.
  pose proof (row_length _ _ Hsf Hwf) as Hlf.
  pose proof (row_length _ _ Hsw Hww) as Hlw.
  unfold tf_matmul, operand. rewrite Hsf, Hsw, Nat.eqb_refl.
  pose proof (transpose_row (data weights)) as Htranspose.
  rewrite Hlw in Htranspose. rewrite Htranspose.
  pose proof (matmul_row_column (data features) (data weights)) as Hproduct.
  rewrite Hlf in Hproduct. now rewrite Hproduct.
Qed.

Lemma tf_matmul_row_row (features weights : tensor R) (n : nat) :
  shape features = [1; n] -> shape weights = [1; n] -> n <> 1 ->
  tf_matmul features weights false false
  = Raise (InvalidArgumentError (MatrixSizeIncompatible [1; n] [1; n])).
Proof.
  intros Hsf Hsw Hn. unfold tf_matmul, operand. rewrite Hsf, Hsw.
  destruct (n =? 1) eqn:Heq; [apply Nat.eqb_eq in Heq; contradiction |].
  reflexivity.
Qed.

End Broadcasting.

(** ** The single-layer network of the first notebook *)

Section SingleLayer.
Local Open Scope R_scope.
Import Part1.

Variables (features weights bias : tensor R) (n : nat).
Hypothesis features_shape : shape features = [1%nat; n].
Hypothesis weights_shape : shape weights = [1%nat; n].
Hypothesis features_well_formed : well_formed features.
Hypothesis weights_well_formed : well_formed weights.
Hypothesis bias_well_formed : well_formed bias.




End SingleLayer.



(** ** Transposing for the product leaves the operand alone *)

Section EagerFrame.
Import Eager.
Local Open Scope result_scope.

Lemma extends_refl (h : heap) : heap_ok h -> extends h h.
Proof. intros Hok. repeat split; auto. Qed.

Lemma extends_trans (h1 h2 h3 : heap) :
  extends h1 h2 -> extends h2 h3 -> extends h1 h3.
Proof.
  intros (_ & Hn1 & Hf1) (Hok & Hn2 & Hf2). repeat split; auto. lia.
Qed.

Lemma new_object_extends (t : tensor R) (h : heap) :
  heap_ok h ->
  extends h (snd (new_object t h))
  /\ objects (snd (new_object t h)) !! fst (new_object t h) = Some t.
Proof.
  intros Hok. unfold new_object. cbn [fst snd objects next_id].
  split; [| apply lookup_insert_eq].
  unfold extends, heap_ok. cbn [objects next_id]. split; [| split].
  - intros i t' Hi. destruct (Nat.eq_dec i (next_id h)) as [-> | Hne]; [lia |].
    rewrite lookup_insert_ne in Hi by congruence.
    specialize (Hok i t' Hi). lia.
  - lia.
  - intros i t' Hi. pose proof (Hok i t' Hi) as Hlt.
    rewrite lookup_insert_ne by lia. exact Hi.
Qed.

Lemma read_ok (i : object_id) (t : tensor R) (h : heap) :
  objects h !! i = Some t -> read i h = Ok t.
Proof. intros Hi. unfold read. now rewrite Hi. Qed.

Lemma elementwise_extends (f : tensor R -> tensor R) (a : object_id)
    (x : tensor R) (h : heap) :
  heap_ok h -> objects h !! a = Some x ->
  exists r h',
    elementwise f a h = Ok (r, h')
    /\ extends h h' /\ objects h' !! r = Some (f x).
Proof.
  intros Hok Ha. unfold elementwise. rewrite (read_ok a x h Ha).
  cbn [result_bind]. destruct (new_object_extends (f x) h Hok) as [Hext Hnew].
  destruct (new_object (f x) h) as [r h'] eqn:Hobj. cbn [fst snd] in *.
  now exists r, h'.
Qed.

Lemma tf_matmul_extends (a b : object_id) (x y product : tensor R)
    (transpose_a transpose_b : bool) (h : heap) :
  heap_ok h -> objects h !! a = Some x -> objects h !! b = Some y ->
  Tensor.tf_matmul x y transpose_a transpose_b = Ok product ->
  exists r h',
    tf_matmul a b transpose_a transpose_b h = Ok (r, h')
    /\ extends h h' /\ objects h' !! r = Some product.
Proof.
  intros Hok Ha Hb Hproduct. unfold tf_matmul.
  rewrite (read_ok a x h Ha), (read_ok b y h Hb). cbn [result_bind].
  rewrite Hproduct. cbn [result_bind].
  destruct (new_object_extends product h Hok) as [Hext Hnew].
  destruct (new_object product h) as [r h'] eqn:Hobj. cbn [fst snd] in *.
  now exists r, h'.
Qed.

Lemma tf_add_extends (a b : object_id) (x y sum : tensor R) (h : heap) :
  heap_ok h -> objects h !! a = Some x -> objects h !! b = Some y ->
  Tensor.tf_add x y = Ok sum ->
  exists r h',
    tf_add a b h = Ok (r, h')
    /\ extends h h' /\ objects h' !! r = Some sum.
Proof.
  intros Hok Ha Hb Hsum. unfold tf_add.
  rewrite (read_ok a x h Ha), (read_ok b y h Hb). cbn [result_bind].
  rewrite Hsum. cbn [result_bind].
  destruct (new_object_extends sum h Hok) as [Hext Hnew].
  destruct (new_object sum h) as [r h'] eqn:Hobj. cbn [fst snd] in *.
  now exists r, h'.
Qed.

Lemma sigmoid_activation_extends (a : object_id) (x : tensor R) (h : heap) :
  heap_ok h -> objects h !! a = Some x ->
  exists r h',
    Part1Eager.sigmoid_activation a h = Ok (r, h')
    /\ extends h h'
    /\ objects h' !! r = Some (Part1.sigmoid_activation x).
Proof.
  intros Hok Ha. unfold Part1Eager.sigmoid_activation.
  destruct (elementwise_extends tf_neg a x h Hok Ha)
    as (r1 & h1 & -> & Hext1 & Hr1).
  cbn [result_bind].
  destruct (elementwise_extends tf_exp r1 _ h1 (proj1 Hext1) Hr1)
    as (r2 & h2 & -> & Hext2 & Hr2).
  cbn [result_bind].
  destruct (elementwise_extends (radd 1) r2 _ h2 (proj1 Hext2) Hr2)
    as (r3 & h3 & -> & Hext3 & Hr3).
  cbn [result_bind].
  destruct (elementwise_extends (rtruediv 1) r3 _ h3 (proj1 Hext3) Hr3)
    as (r4 & h4 & -> & Hext4 & Hr4).
  exists r4, h4. split; [reflexivity |]. split; [| exact Hr4].
  eauto using extends_trans.
Qed.

End EagerFrame.

(** C9. Running [tf.matmul(features, weights, transpose_b=True)] inside the
    solution cell leaves [weights] as it was. In a kernel whose names
    [features] and [weights] are bound to tensors of shape (1, 5), the cell
    succeeds; afterwards [weights] is bound to the same object, that object
    holds the same tensor, of shape (1, 5) with the same values, every
    other object that existed holds what it held, only [y] is bound anew,
    and the next cell prints the shape (1, 5). *)
Theorem matmul_leaves_weights_unchanged
    (k : Part1Eager.kernel) (features_id weights_id bias_id : Eager.object_id)
    (features weights bias : tensor R) :
  Eager.heap_ok (Part1Eager.memory k) ->
  Part1Eager.names k !! "features" = Some features_id ->
  Part1Eager.names k !! "weights" = Some weights_id ->
  Part1Eager.names k !! "bias" = Some bias_id ->
  Eager.objects (Part1Eager.memory k) !! features_id = Some features ->
  Eager.objects (Part1Eager.memory k) !! weights_id = Some weights ->
  Eager.objects (Part1Eager.memory k) !! bias_id = Some bias ->
  shape features = [1%nat; 5%nat] -> shape weights = [1%nat; 5%nat] ->
  well_formed features -> well_formed weights -> well_formed bias ->
  exists k' : Part1Eager.kernel,
    Part1Eager.matmul_cell k = Ok k'
    /\ Part1Eager.names k' !! "weights" = Some weights_id
    /\ Eager.objects (Part1Eager.memory k') !! weights_id = Some weights
    /\ (forall (i : Eager.object_id) (t : tensor R),
          Eager.objects (Part1Eager.memory k) !! i = Some t ->
          Eager.objects (Part1Eager.memory k') !! i = Some t)
    /\ (forall name : string,
          name <> "y" ->
          Part1Eager.names k' !! name = Part1Eager.names k !! name)
    /\ Part1Eager.weights_shape_cell k' = Ok [1%nat; 5%nat].
Proof.
  intros Hok Hnf Hnw Hnb Hf Hw Hb Hsf Hsw Hwf Hww Hwb.
  unfold Part1Eager.matmul_cell, Part1Eager.lookup.
  rewrite Hnf, Hnw. cbn [result_bind].
  destruct (tf_matmul_extends features_id weights_id features weights _
              false true _ Hok Hf Hw
              (tf_matmul_transpose_b_row features weights 5 Hsf Hsw Hwf Hww))
    as (product & h1 & -> & Hext1 & Hproduct).
  cbn [result_bind]. rewrite Hnb. cbn [result_bind].
  destruct Hext1 as (Hok1 & Hn1 & Hframe1).
  destruct (tf_add_extends product bias_id _ bias _ h1 Hok1 Hproduct
              (Hframe1 _ _ Hb) (tf_add_one_by_one _ bias Hwb))
    as (h_in & h2 & -> & Hext2 & Hsum).
  cbn [result_bind].
  destruct Hext2 as (Hok2 & Hn2 & Hframe2).
  destruct (sigmoid_activation_extends h_in _ h2 Hok2 Hsum)
    as (y & h3 & -> & (Hok3 & Hn3 & Hframe3) & Hy).
  cbn [result_bind].
  assert (Hframe : forall i t,
            Eager.objects (Part1Eager.memory k) !! i = Some t ->
            Eager.objects h3 !! i = Some t) by auto.
  eexists. split; [reflexivity |]. cbn [Part1Eager.names Part1Eager.memory].
  assert (Hname : <["y" := y]> (Part1Eager.names k) !! "weights" = Some weights_id).
  { rewrite lookup_insert_ne by discriminate. exact Hnw. }
  split; [exact Hname |]. split; [now apply Hframe |]. split; [exact Hframe |].
  split.
  - intros name Hne. now rewrite lookup_insert_ne by congruence.
  - unfold Part1Eager.weights_shape_cell, Part1Eager.lookup.
    cbn [Part1Eager.names Part1Eager.memory]. rewrite Hname.
    cbn [result_bind]. rewrite (read_ok _ _ _ (Hframe _ _ Hw)).
    cbn [result_bind]. now rewrite Hsw.
Qed.

Lemma sample_kernel_state_ok :
  Eager.heap_ok (Part1Eager.memory sample_kernel_state).
Proof.
  intros i t. unfold sample_kernel_state. cbn [Part1Eager.memory Eager.objects Eager.next_id].
  destruct i as [| [| [| i]]]; [lia | lia | lia |].
  rewrite !lookup_insert_ne by lia. rewrite lookup_empty. discriminate.
Defined.

Lemma matmul_leaves_weights_unchanged_witness :
  exists k' : Part1Eager.kernel,
    Part1Eager.matmul_cell sample_kernel_state = Ok k'
    /\ Part1Eager.names k' !! "weights" = Some 1%nat
    /\ Eager.objects (Part1Eager.memory k') !! 1%nat = Some sample_weights
    /\ Part1Eager.weights_shape_cell k' = Ok [1%nat; 5%nat].
Proof.
  destruct (matmul_leaves_weights_unchanged sample_kernel_state
              0%nat 1%nat 2%nat sample_features sample_weights sample_bias
              sample_kernel_state_ok
              eq_refl eq_refl eq_refl eq_refl eq_refl eq_refl
              eq_refl eq_refl eq_refl eq_refl eq_refl)
    as (k' & Hcell & Hname & Hobject & _ & _ & Hshape).
  exists k'. auto.
Defined.

(** ** Exceptions are not handled *)

Section Propagation.
Local Open Scope result_scope.




Context `{ImageResize}.



End Propagation.



(** ** What the notebooks leave behind *)

Section Traces.
Import Notebook.

Lemma for_take_one (available : positive) (body : cell unit) :
  for_take 1 available body = for_range 1 (fun _ => body).
Proof.
  unfold for_take. pose proof (Pos2Nat.is_pos available) as Hpos.
  now rewrite Nat.min_l by lia.
Qed.

Lemma part1_fresh_run :
  defs (run Part1Cells.notebook empty_world) = ["sigmoid_activation"]
  /\ classes (run Part1Cells.notebook empty_world) = []
  /\ files (run Part1Cells.notebook empty_world) = ∅
  /\ tool_cache (run Part1Cells.notebook empty_world)
     = ["tensorflow-gpu==2.0.0b1"]
  /\ model_calls (run Part1Cells.notebook empty_world) = [].
Proof. repeat split; reflexivity. Qed.

Lemma part3_fresh_run (n_batches : positive) :
  let w := run (Part3Cells.notebook n_batches) empty_world in
  defs w = ["normalize"]
  /\ classes w = []
  /\ files w = ∅
  /\ tool_cache w
     = ["tqdm==4.28.1"; "tensorflow-gpu==2.0.0b1"; "tensorflow_datasets";
        "mnist"]
  /\ model_calls w = [Construct; Compile; Evaluate; Fit; Predict; Evaluate].
Proof.
  unfold Part3Cells.notebook. rewrite !for_take_one.
  repeat split; reflexivity.
Qed.

Lemma part8_fresh_run (n_training n_testing_batches : positive) :
  let w := run (Part8Cells.notebook n_training n_testing_batches) empty_world in
  defs w = ["format_image"]
  /\ classes w = []
  /\ files w = ∅
  /\ tool_cache w
     = ["tqdm==4.28.1"; "tensorflow-gpu==2.0.0b1"; "tensorflow_datasets";
        "tensorflow_hub"; "cats_vs_dogs";
        "https://tfhub.dev/google/tf2-preview/mobilenet_v2/feature_vector/4"]
  /\ model_calls w = [Construct; Summary; Predict].
Proof.
  unfold Part8Cells.notebook. rewrite !for_take_one.
  repeat split; reflexivity.
Qed.

End Traces.

(** ** The order of the calls on the model *)

(** The training notebook evaluates the model before it fits it, so the
    stated order does not hold there. *)
Lemma training_notebook_evaluates_before_fit :
  ~ claimed_lifecycle
      (Notebook.model_calls
         (Notebook.run (Part3Cells.notebook 938) Notebook.empty_world))
  /\ evaluate_before_fit
       (Notebook.model_calls
          (Notebook.run (Part3Cells.notebook 938) Notebook.empty_world))
     = true.
Proof.
  split; [| reflexivity].
  intros [Horder _]. vm_compute in Horder. discriminate.
Qed.

(** C5, as amended. In the training notebook the calls on the model are,
    in this order, construction, [.compile], [.evaluate], [.fit],
    [.predict], [.evaluate]: the model is evaluated once before it is
    fitted and once after. In the transfer-learning notebook they are
    construction, [.summary], [.predict]. The first notebook builds no
    model. *)
Theorem model_calls_in_source_order
    (n_batches n_training n_testing_batches : positive) :
  Notebook.model_calls
    (Notebook.run (Part3Cells.notebook n_batches) Notebook.empty_world)
  = [Notebook.Construct; Notebook.Compile; Notebook.Evaluate; Notebook.Fit;
     Notebook.Predict; Notebook.Evaluate]
  /\ Notebook.model_calls
       (Notebook.run (Part8Cells.notebook n_training n_testing_batches)
                     Notebook.empty_world)
     = [Notebook.Construct; Notebook.Summary; Notebook.Predict]
  /\ Notebook.model_calls
       (Notebook.run Part1Cells.notebook Notebook.empty_world)
     = [].
Proof.
  split; [| split].
  - apply (part3_fresh_run n_batches).
  - apply (part8_fresh_run n_training n_testing_batches).
  - apply part1_fresh_run.
Qed.

(** ** The gradient of [x ** 2] *)

Section Autodiff.
Local Open Scope R_scope.
Import GradientTape.

(** The gradient of the square under ones is twice the input. *)
Lemma pow_grad_square (x : tensor R) :
  pow_grad (tf_ones_like (tf_pow x 2)) x 2 = rmul 2 x.
Proof.
  destruct x as [s d]. unfold pow_grad, tf_ones_like, tf_pow, rmul, tensor_map.
  cbn [shape data]. f_equal. rewrite map_map.
  induction d as [| v d IH]; [reflexivity |].
  cbn [map zip_with]. rewrite IH. f_equal. simpl. ring.
Qed.

(** The tape of the cell: [x] is watched, then [y = x ** 2] is recorded. *)
Lemma square_is_recorded (x : tensor R) :
  pow_under (watch new_tape 0%nat) 0%nat x 2 1%nat
  = (mk_tape [0%nat] [RecPow 0%nat x 2 1%nat], tf_pow x 2).
Proof. reflexivity. Qed.

Lemma gradient_of_square (x : tensor R) :
  gradient (mk_tape [0%nat] [RecPow 0%nat x 2 1%nat]) 1%nat (tf_pow x 2) 0%nat
  = Some (rmul 2 x).
Proof.
  unfold gradient. cbn [operations fold_left backward_step].
  rewrite lookup_singleton_eq, lookup_singleton_ne by discriminate.
  cbn [accumulate]. rewrite lookup_insert_eq. now rewrite pow_grad_square.
Qed.

Lemma zip_with_minus_self (l : list R) :
  zip_with Rminus l l = map (fun _ => 0) l.
Proof.
  induction l as [| v l IH]; [reflexivity |].
  cbn [zip_with map]. rewrite IH. f_equal. ring.
Qed.

Lemma fold_left_Rmax_zeros {A} (l : list A) :
  fold_left Rmax (map (fun _ => 0) l) 0 = 0.
Proof.
  induction l as [| a l IH]; [reflexivity |].
  cbn [map fold_left]. now rewrite Rmax_left by lra.
Qed.

Lemma maximum_difference_of_equal (t : tensor R) :
  well_formed t -> data t <> [] ->
  (let! difference := tf_subtract t t in
   np_max (np_abs difference))%result = Ok 0.
Proof.
  intros Hwf Hnonempty. unfold tf_subtract.
  rewrite tf_binary_same_shape by (reflexivity || assumption).
  cbn [result_bind]. unfold np_max, np_abs, tensor_map. cbn [data shape].
  rewrite zip_with_minus_self.
  assert (Hzeros : map Rabs (map (fun _ : R => 0) (data t))
                   = map (fun _ => 0) (data t)).
  { rewrite map_map. apply map_ext. intros _. apply Rabs_R0. }
  rewrite Hzeros.
  destruct (data t) as [| v d]; [contradiction |].
  cbn [map]. now rewrite fold_left_Rmax_zeros.
Qed.

Lemma rmul_well_formed (c : R) (t : tensor R) :
  well_formed t -> well_formed (rmul c t).
Proof.
  unfold well_formed, rmul, tensor_map. cbn [shape data].
  now rewrite length_map.
Qed.

End Autodiff.

(** C4. For a watched tensor [x] of shape (2, 2), the gradient of
    [y = x ** 2] with respect to [x] that the tape computes is [2 * x]
    elementwise, the same tensor as the analytic derivative, and the
    maximum absolute difference the cell prints is 0. *)
Theorem gradient_of_square_is_twice_x (x : tensor R) :
  shape x = [2%nat; 2%nat] -> well_formed x ->
  Part3.autodiff_cell x
  = Ok (Part3.mk_autodiff_output (rmul 2 x) (rmul 2 x) 0%R).
Proof.
  intros Hshape Hwf. unfold Part3.autodiff_cell.
  rewrite square_is_recorded, gradient_of_square.
  assert (Hnonempty : data (rmul 2 x) <> []).
  { unfold well_formed in Hwf. rewrite Hshape in Hwf. cbn in Hwf.
    destruct (data x) eqn:Hdata; [discriminate |].
    unfold rmul, tensor_map. cbn [data]. rewrite Hdata. discriminate. }
  pose proof (maximum_difference_of_equal (rmul 2 x)
                (rmul_well_formed 2 x Hwf) Hnonempty) as Hmax.
  destruct (tf_subtract (rmul 2 x) (rmul 2 x)) as [difference | e];
    cbn [result_bind] in *; [| discriminate].
  now rewrite Hmax.
Qed.

Lemma gradient_of_square_is_twice_x_witness :
  Part3.autodiff_cell sample_x
  = Ok (Part3.mk_autodiff_output (rmul 2 sample_x) (rmul 2 sample_x) 0%R).
Proof.
  apply (gradient_of_square_is_twice_x sample_x); reflexivity.
Defined.

(** ** The batches the pipelines yield *)

Section Chunks.
Local Open Scope nat_scope.
Context {A : Type}.

Lemma chunks_from_unfold (b : nat) (l : list A) : forall (cur : list A) (room : nat),
  1 <= room ->
  chunks_from b cur room l
  = if length l <? room
    then match rev cur ++ l with [] => [] | group => [group] end
    else (rev cur ++ firstn room l) :: chunks_from b [] b (skipn room l).
Proof.
  induction l as [| x l IH]; intros cur room Hroom.
  - cbn [chunks_from length]. destruct (0 <? room) eqn:Hlt;
      [| apply Nat.ltb_ge in Hlt; lia].
    rewrite app_nil_r. destruct cur as [| y cur]; [reflexivity |].
    destruct (rev (y :: cur)) eqn:Hrev; [| reflexivity].
    apply (f_equal (@length A)) in Hrev. rewrite length_rev in Hrev. discriminate.
  - cbn [chunks_from length]. destruct room as [| [| room]]; [lia | |].
    + cbn [Nat.ltb Nat.leb firstn skipn rev]. reflexivity.
    + rewrite (IH (x :: cur) (S room)) by lia.
      change (S (length l) <? S (S room)) with (length l <? S room).
      destruct (length l <? S room).
      * cbn [rev]. rewrite <- app_assoc. cbn [app].
        destruct (rev cur ++ x :: l) eqn:Hgroup; [| reflexivity].
        now destruct (rev cur).
      * cbn [rev firstn skipn]. now rewrite <- app_assoc.
Qed.

(** Batching takes the first [b] elements and goes on with the rest. *)
Lemma chunks_step (b : nat) (l : list A) :
  1 <= b -> l <> [] ->
  chunks b l = firstn b l :: chunks b (skipn b l).
Proof.
  intros Hb Hl. unfold chunks. rewrite chunks_from_unfold by exact Hb.
  cbn [rev app]. destruct (length l <? b) eqn:Hlt.
  - apply Nat.ltb_lt in Hlt.
    rewrite firstn_all2, skipn_all2 by lia.
    destruct l; [contradiction | reflexivity].
  - reflexivity.
Qed.

Lemma chunks_nil (b : nat) : chunks b (@nil A) = [].
Proof. now destruct b. Qed.

(** Induction along the batches. *)
Lemma chunks_ind (b : nat) (Hb : 1 <= b) (P : list A -> Prop) :
  P [] ->
  (forall l, l <> [] -> P (skipn b l) -> P l) ->
  forall l, P l.
Proof.
  intros Hnil Hstep l.
  remember (length l) as n eqn:Hn. revert l Hn.
  induction n as [n IH] using lt_wf_ind. intros l Hn.
  destruct l as [| x l]; [exact Hnil |].
  apply Hstep; [discriminate |].
  apply (IH (length (skipn b (x :: l)))); [| reflexivity].
  rewrite length_skipn. subst n. cbn [length]. lia.
Qed.

Lemma concat_chunks (b : nat) (l : list A) :
  1 <= b -> concat (chunks b l) = l.
Proof.
  intros Hb. induction l as [| l Hl IH] using (chunks_ind b Hb).
  - now rewrite chunks_nil.
  - rewrite chunks_step by assumption. cbn [concat].
    rewrite IH. apply firstn_skipn.
Qed.

Lemma chunks_sizes (b : nat) (l : list A) :
  1 <= b -> Forall (fun group => 1 <= length group <= b) (chunks b l).
Proof.
  intros Hb. induction l as [| l Hl IH] using (chunks_ind b Hb).
  - rewrite chunks_nil. constructor.
  - rewrite chunks_step by assumption. constructor; [| exact IH].
    rewrite length_firstn. destruct l; [contradiction | cbn [length]; lia].
Qed.

Lemma chunks_full (b : nat) (l : list A) :
  1 <= b -> Forall (fun group => length group = b) (removelast (chunks b l)).
Proof.
  intros Hb. induction l as [| l Hl IH] using (chunks_ind b Hb).
  - rewrite chunks_nil. constructor.
  - rewrite chunks_step by assumption.
    destruct (chunks b (skipn b l)) as [| group groups] eqn:Hrest.
    + constructor.
    + cbn [removelast]. constructor; [| exact IH].
      rewrite length_firstn.
      destruct (Nat.le_gt_cases b (length l)) as [Hle | Hgt]; [lia |].
      rewrite skipn_all2, chunks_nil in Hrest by lia. discriminate.
Qed.

Lemma chunks_count (b : nat) (l : list A) :
  1 <= b -> length (chunks b l) = (length l + (b - 1)) / b.
Proof.
  intros Hb. induction l as [| l Hl IH] using (chunks_ind b Hb).
  - rewrite chunks_nil. cbn [length]. rewrite Nat.div_small; lia.
  - rewrite chunks_step by assumption. cbn [length]. rewrite IH, length_skipn.
    destruct (Nat.le_gt_cases b (length l)) as [Hle | Hgt].
    + replace (length l + (b - 1)) with ((length l - b + (b - 1)) + 1 * b) by lia.
      rewrite Nat.div_add by lia. lia.
    + replace (length l - b) with 0 by lia.
      rewrite (Nat.div_small (0 + (b - 1))) by lia.
      assert (Hlen : 1 <= length l) by (destruct l; [contradiction | cbn; lia]).
      replace (length l + (b - 1)) with ((length l - 1) + 1 * b) by lia.
      rewrite Nat.div_add by lia. rewrite Nat.div_small; lia.
Qed.

End Chunks.

Section Batches.
Local Open Scope nat_scope.

Lemma stack_same_shape {A} (s : list nat) (ts : list (tensor A)) :
  Forall (fun t => shape t = s) ts -> ts <> [] ->
  stack ts = Ok (mk_tensor (length ts :: s) (concat (map data ts))).
Proof.
  intros Hshapes Hne. destruct ts as [| t0 rest]; [contradiction |].
  unfold stack. apply List.Forall_cons_iff in Hshapes as [Ht0 Hrest].
  assert (Hfind : find (fun t => negb (bool_decide (shape t = shape t0))) rest
                  = None).
  { clear Hne. induction Hrest as [| t rest Ht _ IH]; [reflexivity |].
    cbn [find]. rewrite bool_decide_eq_true_2 by congruence. exact IH. }
  rewrite Hfind. now rewrite Ht0.
Qed.

Lemma stack_pair_same_shape {A L} (s sl : list nat)
    (group : list (tensor A * tensor L)) :
  Forall (fun e => shape (fst e) = s /\ shape (snd e) = sl) group ->
  group <> [] ->
  stack_pair group
  = Ok (mk_tensor (length group :: s) (concat (map (fun e => data (fst e)) group)),
        mk_tensor (length group :: sl) (concat (map (fun e => data (snd e)) group))).
Proof.
  intros Hshapes Hne. unfold stack_pair.
  rewrite (stack_same_shape s), (stack_same_shape sl).
  - now rewrite !length_map, !map_map.
  - apply List.Forall_map. eapply List.Forall_impl; [| exact Hshapes]. now intros e [_ H].
  - now destruct group.
  - apply List.Forall_map. eapply List.Forall_impl; [| exact Hshapes]. now intros e [H _].
  - now destruct group.
Qed.

Lemma result_all_ok_map {A B} (f : A -> result B) (g : A -> B) (l : list A) :
  Forall (fun a => f a = Ok (g a)) l -> result_all f l = Ok (map g l).
Proof.
  induction 1 as [| a l Ha _ IH]; [reflexivity |].
  cbn [result_all map]. now rewrite Ha, IH.
Qed.

Lemma Forall_concat_elim {A} (P : A -> Prop) (groups : list (list A)) :
  Forall P (concat groups) -> Forall (Forall P) groups.
Proof.
  induction groups as [| group groups IH]; intros Hall; [constructor |].
  cbn [concat] in Hall. apply List.Forall_app in Hall as [Hgroup Hrest].
  constructor; [exact Hgroup | now apply IH].
Qed.

(** Batching a data set whose images all have one shape, and whose labels
    all have one shape, stacks each group of [b]. *)
Lemma ds_batch_same_shape {A L} (b : nat) (s sl : list nat)
    (ds : dataset (tensor A * tensor L)) :
  1 <= b ->
  Forall (fun e => shape (fst e) = s /\ shape (snd e) = sl) ds ->
  ds_batch b ds
  = Ok (map (fun group =>
               (mk_tensor (length group :: s)
                          (concat (map (fun e => data (fst e)) group)),
                mk_tensor (length group :: sl)
                          (concat (map (fun e => data (snd e)) group))))
            (chunks b ds)).
Proof.
  intros Hb Hshapes. unfold ds_batch.
  destruct (b =? 0) eqn:Hzero; [apply Nat.eqb_eq in Hzero; lia |].
  apply result_all_ok_map.
  rewrite <- (concat_chunks b ds Hb) in Hshapes.
  apply Forall_concat_elim in Hshapes.
  pose proof (chunks_sizes b ds Hb) as Hsizes.
  rewrite List.Forall_forall in *. intros group Hin.
  apply stack_pair_same_shape.
  - apply (Hshapes group Hin).
  - specialize (Hsizes group Hin). destruct group; [cbn in Hsizes; lia | discriminate].
Qed.

End Batches.

Section Pipelines.
Local Open Scope nat_scope.

Lemma ds_shuffle_Forall {A} (P : A -> Prop) (order : list nat) (ds : dataset A) :
  Forall P ds -> Forall P (ds_shuffle order ds).
Proof.
  intros Hall. unfold ds_shuffle.
  induction order as [| i order IH]; cbn [flat_map]; [constructor |].
  apply List.Forall_app. split; [| exact IH].
  destruct (nth_error ds i) as [x |] eqn:Hnth; [| constructor].
  constructor; [| constructor].
  rewrite List.Forall_forall in Hall. eapply Hall, nth_error_In, Hnth.
Qed.

Lemma ds_shuffle_length {A} (order : list nat) (ds : dataset A) :
  Forall (fun i => i < length ds) order ->
  length (ds_shuffle order ds) = length order.
Proof.
  unfold ds_shuffle. induction 1 as [| i order Hi _ IH]; [reflexivity |].
  cbn [flat_map]. rewrite length_app, IH.
  destruct (nth_error ds i) eqn:Hnth; [reflexivity |].
  apply nth_error_None in Hnth. lia.
Qed.

Lemma removelast_map {A B} (f : A -> B) (l : list A) :
  removelast (map f l) = map f (removelast l).
Proof.
  induction l as [| a [| a' l] IH]; [reflexivity | reflexivity |].
  cbn [map removelast] in *. now rewrite IH.
Qed.

Lemma concat_map_concat {A B} (g : A -> list B) (groups : list (list A)) :
  concat (map (fun group => concat (map g group)) groups)
  = concat (map g (concat groups)).
Proof.
  induction groups as [| group groups IH]; [reflexivity |].
  cbn [map concat]. now rewrite IH, map_app, concat_app.
Qed.

Lemma Forall_concat_map {A B} (P : B -> Prop) (f : A -> list B) (l : list A) :
  Forall (fun a => Forall P (f a)) l -> Forall P (concat (map f l)).
Proof.
  induction 1 as [| a l Ha _ IH]; cbn [map concat]; [constructor |].
  apply List.Forall_app. now split.
Qed.

End Pipelines.

Section TrainingBatches.
Local Open Scope nat_scope.

Lemma permutation_order {A} (order : list nat) (ds : dataset A) :
  Permutation order (seq 0 (length ds)) ->
  length (ds_shuffle order ds) = length ds.
Proof.
  intros Hperm. rewrite ds_shuffle_length.
  - rewrite (Permutation_length Hperm). apply length_seq.
  - rewrite List.Forall_forall. intros i Hi.
    apply (Permutation_in _ Hperm), in_seq in Hi. lia.
Qed.

Lemma training_batches_stacked (order : list nat) (s : list nat)
    (ds : dataset (tensor Z * tensor Z)) :
  Forall (fun e => shape (fst e) = s /\ shape (snd e) = []) ds ->
  Part3.training_batches order ds
  = Ok (map (fun group =>
               (mk_tensor (length group :: s)
                  (map (fun v => (IZR v / 255)%R)
                       (concat (map (fun e => data (fst e)) group))),
                mk_tensor [length group]
                  (concat (map (fun e => data (snd e)) group))))
            (chunks 64 (ds_shuffle order ds))).
Proof.
  intros Hshapes. unfold Part3.training_batches, Part3.batch_size, ds_cache.
  rewrite (ds_batch_same_shape 64 s []) by (lia || now apply ds_shuffle_Forall).
  cbn [result_map result_bind]. unfold ds_prefetch, ds_map. rewrite map_map.
  f_equal. apply map_ext. intros group.
  now rewrite normalize_as_tensor_map.
Qed.

(** With a buffer of at least one element the pipeline batches what the
    shuffle yields. *)
Lemma training_batches_with_buffer (num_training_examples : nat)
    (order : list nat) (ds : dataset (tensor Z * tensor Z)) :
  4 <= num_training_examples ->
  Part3Pipeline.training_batches num_training_examples order ds
  = Part3.training_batches order ds.
Proof.
  intros Hnum. unfold Part3Pipeline.training_batches, Part3.training_batches,
    ds_shuffle_buffer.
  assert (Hbuffer : num_training_examples / 4 <> 0).
  { pose proof (Nat.div_mod_eq num_training_examples 4) as Hdiv.
    pose proof (Nat.mod_upper_bound num_training_examples 4 ltac:(lia)).
    lia. }
  apply Nat.eqb_neq in Hbuffer. rewrite Hbuffer. cbn [result_bind].
  now destruct (ds_batch Part3.batch_size (ds_shuffle order (ds_cache ds))).
Qed.

Lemma training_batches_without_buffer (num_training_examples : nat)
    (order : list nat) (ds : dataset (tensor Z * tensor Z)) :
  num_training_examples < 4 ->
  Part3Pipeline.training_batches num_training_examples order ds
  = Raise (InvalidArgumentError BadBufferSize).
Proof.
  intros Hnum. unfold Part3Pipeline.training_batches, ds_shuffle_buffer.
  now rewrite Nat.div_small by exact Hnum.
Qed.

End TrainingBatches.

(** X1. The training pipeline of Part 3, for a data set that declares
    [num_training_examples] examples. With fewer than 4 declared the
    shuffle buffer is empty and the framework refuses it. With 4 or more,
    when the shuffle visits every element once and all images have one
    shape, the pipeline yields ceil(n / 64) batches for n examples; every
    batch stacks between 1 and 64 images and as many labels, and every
    batch but the last stacks exactly 64. *)
Theorem training_batches_sizes (num_training_examples : nat)
    (order : list nat) (s : list nat) (ds : dataset (tensor Z * tensor Z)) :
  Permutation order (seq 0 (length ds)) ->
  Forall (fun e => shape (fst e) = s /\ shape (snd e) = []) ds ->
  ((num_training_examples < 4)%nat ->
   Part3Pipeline.training_batches num_training_examples order ds
   = Raise (InvalidArgumentError BadBufferSize))
  /\ ((4 <= num_training_examples)%nat ->
      exists batches : dataset (tensor R * tensor Z),
        Part3Pipeline.training_batches num_training_examples order ds
        = Ok batches
        /\ length batches = ((length ds + 63) / 64)%nat
        /\ Forall (fun batch =>
                     exists k : nat,
                       (1 <= k <= 64)%nat
                       /\ shape (fst batch) = k :: s
                       /\ shape (snd batch) = [k]) batches
        /\ Forall (fun batch => shape (fst batch) = 64%nat :: s)
                  (removelast batches)).
Proof.
  intros Hperm Hshapes.
  split; [apply training_batches_without_buffer |]. intros Hnum.
  rewrite training_batches_with_buffer by exact Hnum.
  eexists. split; [apply (training_batches_stacked order s ds Hshapes) |].
  split; [| split].
  - rewrite length_map, chunks_count by lia. cbn [Nat.sub].
    now rewrite permutation_order.
  - apply List.Forall_map.
    eapply List.Forall_impl; [| apply (chunks_sizes 64); lia].
    intros group Hsize. cbn [fst snd shape]. now exists (length group).
  - rewrite removelast_map. apply List.Forall_map.
    eapply List.Forall_impl; [| apply (chunks_full 64); lia].
    intros group Hfull. cbn [fst shape]. now rewrite Hfull.
Qed.

(** X2. With a shuffle buffer of at least one element (4 or more examples
    declared), the training pipeline of Part 3 loses and reorders nothing:
    read batch after batch, the pixel values are those the shuffle yields,
    each divided by 255, and the labels are those the shuffle yields; every
    value of every batch lies in [0, 1]. *)
Theorem training_batches_content (num_training_examples : nat)
    (order : list nat) (s : list nat) (ds : dataset (tensor Z * tensor Z)) :
  (4 <= num_training_examples)%nat ->
  Forall (fun e => shape (fst e) = s /\ shape (snd e) = []) ds ->
  Forall (fun e => Forall (fun v => (0 <= v <= 255)%Z) (data (fst e))) ds ->
  exists batches : dataset (tensor R * tensor Z),
    Part3Pipeline.training_batches num_training_examples order ds
    = Ok batches
    /\ concat (map (fun batch => data (fst batch)) batches)
       = concat (map (fun e => map (fun v => (IZR v / 255)%R) (data (fst e)))
                     (ds_shuffle order ds))
    /\ concat (map (fun batch => data (snd batch)) batches)
       = concat (map (fun e => data (snd e)) (ds_shuffle order ds))
    /\ Forall (fun batch => Forall (fun v => (0 <= v <= 1)%R) (data (fst batch)))
              batches.
Proof.
  intros Hnum Hshapes Hpixels.
  rewrite training_batches_with_buffer by exact Hnum. eexists.
  split; [apply (training_batches_stacked order s ds Hshapes) |].
  rewrite !map_map. cbn [fst snd data].
  assert (Himages :
    concat (map (fun group : list (tensor Z * tensor Z) =>
                   map (fun v => (IZR v / 255)%R)
                       (concat (map (fun e => data (fst e)) group)))
                (chunks 64 (ds_shuffle order ds)))
    = concat (map (fun e => map (fun v => (IZR v / 255)%R) (data (fst e)))
                  (ds_shuffle order ds))).
  { rewrite <- (concat_chunks 64 (ds_shuffle order ds)) at 2 by lia.
    rewrite <- concat_map_concat. f_equal. apply map_ext. intros group.
    now rewrite concat_map, map_map. }
  split; [exact Himages |]. split.
  - rewrite concat_map_concat. now rewrite concat_chunks by lia.
  - apply List.Forall_map.
    pose proof (ds_shuffle_Forall _ order ds Hpixels) as Hshuffled.
    rewrite <- (concat_chunks 64 (ds_shuffle order ds)) in Hshuffled by lia.
    apply Forall_concat_elim in Hshuffled.
    eapply List.Forall_impl; [| exact Hshuffled].
    intros group Hgroup. cbn [fst data]. apply List.Forall_map.
    apply Forall_concat_map.
    eapply List.Forall_impl; [| exact Hgroup]. intros e He. cbn beta in He.
    eapply List.Forall_impl; [| exact He].
    intros v Hv. apply scaled_pixel_in_unit.
    destruct Hv as [Hlo Hhi]. split; [now apply (IZR_le 0) | now apply (IZR_le v 255)].
Qed.

Section TransferBatches.
Local Open Scope nat_scope.
Context `{ImageResize}.

Lemma format_image_colour (e : tensor Z * tensor Z) :
  colour_image e ->
  exists out, Part8.format_image (fst e) (snd e) = Ok out /\ formatted_image out.
Proof.
  intros (h & w & Hshape & Hh & Hw & Hwf & Hpixels & Hlabel).
  destruct (resize_shape (tf_cast (fst e)) h w 3 224 224)
    as (resized & Hresize & Hout & _); auto using tf_cast_well_formed.
  exists (truediv resized 255, snd e). split.
  - unfold Part8.format_image, Part8.image_size. now rewrite Hresize.
  - split; [exact Hout |]. split; [| exact Hlabel].
    apply truediv_255_in_unit.
    eapply resize_range; [exact Hresize |]. now apply tf_cast_range.
Qed.

Lemma ds_map_result_format_image (l : dataset (tensor Z * tensor Z)) :
  Forall colour_image l ->
  exists formatted,
    ds_map_result Part8.format_image l = Ok formatted
    /\ length formatted = length l
    /\ Forall formatted_image formatted.
Proof.
  unfold ds_map_result.
  induction 1 as [| e l He _ (formatted & Hmap & Hlen & Hall)].
  - exists []. repeat split; constructor.
  - destruct (format_image_colour e He) as (out & Hout & Hformatted).
    exists (out :: formatted). cbn [result_all].
    destruct e as [image label]. cbn [fst snd] in Hout. rewrite Hout, Hmap.
    repeat split; [cbn; lia | now constructor].
Qed.

Lemma batches_of_formatted (l : dataset (tensor Z * tensor Z)) :
  Forall colour_image l ->
  exists batches : dataset (tensor R * tensor Z),
    (let! formatted := ds_map_result Part8.format_image l in
     result_map (ds_prefetch 1) (ds_batch Part8.batch_size formatted))%result
    = Ok batches
    /\ length batches = (length l + 31) / 32
    /\ Forall formatted_batch batches.
Proof.
  intros Hall.
  destruct (ds_map_result_format_image l Hall) as (formatted & Hmap & Hlen & Hfmt).
  rewrite Hmap. cbn [result_bind]. unfold Part8.batch_size.
  rewrite (ds_batch_same_shape 32 [224; 224; 3] []); [| lia |].
  - cbn [result_map result_bind]. unfold ds_prefetch. eexists.
    split; [reflexivity |]. split.
    + rewrite length_map, chunks_count by lia. cbn [Nat.sub]. now rewrite Hlen.
    + apply List.Forall_map.
      pose proof (chunks_sizes 32 formatted ltac:(lia)) as Hsizes.
      rewrite <- (concat_chunks 32 formatted) in Hfmt by lia.
      apply Forall_concat_elim in Hfmt.
      rewrite List.Forall_forall in *. intros group Hin.
      exists (length group). cbn [fst snd shape data].
      split; [apply (Hsizes group Hin) |]. split; [reflexivity |].
      split; [reflexivity |].
      apply Forall_concat_map.
      eapply List.Forall_impl; [| exact (Hfmt group Hin)].
      now intros e (_ & He & _).
  - eapply List.Forall_impl; [| exact Hfmt]. intros e (Hs & _ & Hl). now split.
Qed.

End TransferBatches.

Lemma shuffle_buffer_positive (total_num_examples : nat) :
  (7 <= total_num_examples)%nat ->
  Part8Split.shuffle_buffer total_num_examples <> 0%nat.
Proof.
  unfold Part8Split.shuffle_buffer, Part8Split.num_training_examples,
    Part8Split.train_split. intros Htotal.
  pose proof (Nat.div_mod_eq (total_num_examples * 60) 100) as H1.
  pose proof (Nat.mod_upper_bound (total_num_examples * 60) 100 ltac:(lia)) as H2.
  pose proof (Nat.div_mod_eq (total_num_examples * 60 / 100) 4) as H3.
  pose proof (Nat.mod_upper_bound (total_num_examples * 60 / 100) 4 ltac:(lia)) as H4.
  lia.
Qed.

Lemma shuffle_buffer_empty (total_num_examples : nat) :
  (total_num_examples < 7)%nat ->
  Part8Split.shuffle_buffer total_num_examples = 0%nat.
Proof.
  unfold Part8Split.shuffle_buffer, Part8Split.num_training_examples,
    Part8Split.train_split. intros Htotal.
  pose proof (Nat.div_mod_eq (total_num_examples * 60) 100) as H1.
  pose proof (Nat.mod_upper_bound (total_num_examples * 60) 100 ltac:(lia)) as H2.
  pose proof (Nat.div_mod_eq (total_num_examples * 60 / 100) 4) as H3.
  pose proof (Nat.mod_upper_bound (total_num_examples * 60 / 100) 4 ltac:(lia)) as H4.
  lia.
Qed.

(** X4. The pipelines of Part 8 map [format_image] before they batch, so
    they succeed on colour images of any sizes, mixed in one data set:
    each yields ceil(n / 32) batches, each batch of shape (k, 224, 224, 3)
    with 1 <= k <= 32, k labels, and values in [0, 1]. For the training
    pipeline this needs a data set that declares 7 examples or more; with
    fewer the shuffle buffer is empty and the framework refuses it. *)
Theorem transfer_batches_from_mixed_sizes `{ImageResize}
    (total_num_examples : nat) (order : list nat)
    (ds : dataset (tensor Z * tensor Z)) :
  Forall colour_image ds ->
  ((total_num_examples < 7)%nat ->
   Part8Pipeline.training_batches total_num_examples order ds
   = Raise (InvalidArgumentError BadBufferSize))
  /\ ((7 <= total_num_examples)%nat ->
      exists batches,
        Part8Pipeline.training_batches total_num_examples order ds
        = Ok batches
        /\ length batches = ((length (ds_shuffle order ds) + 31) / 32)%nat
        /\ Forall formatted_batch batches)
  /\ (exists batches,
        Part8.validation_batches ds = Ok batches
        /\ length batches = ((length ds + 31) / 32)%nat
        /\ Forall formatted_batch batches)
  /\ (exists batches,
        Part8.testing_batches ds = Ok batches
        /\ length batches = ((length ds + 31) / 32)%nat
        /\ Forall formatted_batch batches).
Proof.
  intros Hall. split; [| split; [| split]].
  - intros Htotal. unfold Part8Pipeline.training_batches, ds_shuffle_buffer.
    now rewrite shuffle_buffer_empty by exact Htotal.
  - intros Htotal. unfold Part8Pipeline.training_batches, ds_shuffle_buffer.
    pose proof (shuffle_buffer_positive total_num_examples Htotal) as Hbuffer.
    apply Nat.eqb_neq in Hbuffer. rewrite Hbuffer. cbn [result_bind].
    apply batches_of_formatted. now apply ds_shuffle_Forall.
  - now apply batches_of_formatted.
  - now apply batches_of_formatted.
Qed.

(** Batching before mapping stacks the images as they come: two images of
    different shapes in the first group are refused. *)
Lemma batch_then_map_unequal_shapes
    (f : tensor Z -> tensor Z -> tensor R * tensor Z) (b : nat)
    (order : list nat) (ds : dataset (tensor Z * tensor Z))
    (x y : tensor Z * tensor Z) (rest : list (tensor Z * tensor Z)) :
  (2 <= b)%nat ->
  ds_shuffle order ds = x :: y :: rest ->
  shape (fst x) <> shape (fst y) ->
  batch_then_map f b order ds
  = Raise (InvalidArgumentError
             (CannotBatchShapes (shape (fst x)) (shape (fst y)))).
Proof.
  intros Hb Hshuffled Hdiffer. unfold batch_then_map, ds_cache, ds_batch.
  destruct (b =? 0)%nat eqn:Hzero; [apply Nat.eqb_eq in Hzero; lia |].
  rewrite Hshuffled, chunks_step by (lia || discriminate).
  destruct b as [| [| b]]; [lia | lia |].
  cbn [firstn result_all]. unfold stack_pair, stack. cbn [map find].
  rewrite bool_decide_eq_false_2 by congruence. reflexivity.
Qed.

(** ** The first image of a batch *)

Section FirstImage.
Local Open Scope nat_scope.

Lemma first_image_of_batch (batch : tensor R) (k : nat) :
  shape batch = [k; 28; 28; 1] ->
  2 <= k ->
  Part3Plot.first_image batch
  = Done (mk_tensor [28; 28] (firstn 784 (data batch))).
Proof.
  intros Hshape Hk. unfold Part3Plot.first_image, np_squeeze, getitem.
  rewrite Hshape. cbn [List.filter shape data Nat.eqb negb].
  destruct k as [| [| k]]; [lia | lia |]. reflexivity.
Qed.

Lemma first_image_of_single (batch : tensor R) :
  shape batch = [1; 28; 28; 1] ->
  Part3Plot.first_image batch
  = Done (mk_tensor [28] (firstn 28 (data batch))).
Proof.
  intros Hshape. unfold Part3Plot.first_image, np_squeeze, getitem.
  rewrite Hshape. reflexivity.
Qed.

End FirstImage.

(** ** The shapes of the layers *)

Section Layers.
Local Open Scope nat_scope.
Import Keras.

Lemma matmul_data_length (r k c : nat) (d1 d2 : list R) :
  length (matmul_data r k c d1 d2) = r * c.
Proof.
  unfold matmul_data. rewrite (flat_map_length_const _ _ c).
  - now rewrite length_seq.
  - intros i _. now rewrite length_map, length_seq.
Qed.

Lemma tf_matmul_shape (a b : tensor R) (r k c : nat) :
  shape a = [r; k] -> shape b = [k; c] ->
  tf_matmul a b false false
  = Ok (mk_tensor [r; c] (matmul_data r k c (data a) (data b))).
Proof.
  intros Ha Hb. unfold tf_matmul, operand. now rewrite Ha, Hb, Nat.eqb_refl.
Qed.

Lemma tf_binary_shape (op : R -> R -> R) (a b : tensor R) (s : list nat) :
  broadcast_shapes (shape a) (shape b) = Some s ->
  exists z, tf_binary op a b = Ok z
            /\ shape z = s /\ length (data z) = numel s.
Proof.
  intros Hs. unfold tf_binary. rewrite Hs. eexists. split; [reflexivity |].
  split; [reflexivity |]. cbn [data broadcast_to].
  rewrite length_zip_with, !length_map, !length_seq. lia.
Qed.

Lemma broadcast_shapes_bias (r c : nat) :
  broadcast_shapes [r; c] [c] = Some [r; c].
Proof.
  unfold broadcast_shapes. cbn [rev app broadcast_rev].
  now rewrite Nat.eqb_refl.
Qed.

Lemma rows_exact {A} (c : nat) : forall (r : nat) (d : list A),
  1 <= c -> length d = r * c ->
  length (chunks c d) = r /\ Forall (fun row => length row = c) (chunks c d).
Proof.
  induction r as [| r IH]; intros d Hc Hlen.
  - destruct d; [| discriminate]. rewrite chunks_nil. split; [reflexivity | constructor].
  - assert (Hne : d <> []) by (destruct d; [cbn in Hlen; lia | discriminate]).
    rewrite chunks_step by assumption.
    destruct (IH (skipn c d) Hc) as [Hcount Hall].
    { rewrite length_skipn. lia. }
    split; [cbn [length]; now rewrite Hcount |].
    constructor; [| exact Hall]. rewrite length_firstn. lia.
Qed.

Lemma chunks_concat_exact {A} (c : nat) (rws : list (list A)) :
  1 <= c -> Forall (fun row => length row = c) rws ->
  chunks c (concat rws) = rws.
Proof.
  intros Hc. induction 1 as [| row rws Hrow _ IH]; [apply chunks_nil |].
  cbn [concat]. rewrite chunks_step; [| exact Hc | destruct row; [cbn in Hrow; lia | discriminate]].
  assert (Hfirst : firstn c (row ++ concat rws) = row).
  { rewrite <- Hrow. rewrite firstn_app, Nat.sub_diag, firstn_all.
    cbn [firstn]. apply app_nil_r. }
  assert (Hskip : skipn c (row ++ concat rws) = concat rws).
  { rewrite <- Hrow. rewrite skipn_app, Nat.sub_diag, skipn_all. reflexivity. }
  now rewrite Hfirst, Hskip, IH.
Qed.

Lemma softmax_row_length (row : list R) : length (softmax_row row) = length row.
Proof. apply length_map. Qed.

(** The softmax of an [r] by [c] tensor has [r] rows of [c] values. *)
Lemma softmax_activation_rows (z : tensor R) (r c : nat) :
  shape z = [r; c] -> length (data z) = r * c -> 1 <= c ->
  shape (softmax_activation z) = [r; c]
  /\ rows (softmax_activation z) = map softmax_row (rows z)
  /\ length (rows (softmax_activation z)) = r
  /\ Forall (fun row => length row = c) (rows (softmax_activation z)).
Proof.
  intros Hshape Hlen Hc.
  destruct (rows_exact c r (data z) Hc Hlen) as [Hcount Hall].
  assert (Hrows : rows (softmax_activation z) = map softmax_row (rows z)).
  { unfold rows, softmax_activation. cbn [shape data]. rewrite Hshape.
    cbn [List.last]. unfold rows. rewrite Hshape. cbn [List.last].
    apply chunks_concat_exact; [exact Hc |].
    apply List.Forall_map. eapply List.Forall_impl; [| exact Hall].
    intros row Hrow. now rewrite softmax_row_length. }
  split; [exact Hshape |]. split; [exact Hrows |]. rewrite Hrows.
  unfold rows at 1 2. rewrite Hshape. cbn [List.last].
  split; [now rewrite length_map |].
  apply List.Forall_map. eapply List.Forall_impl; [| exact Hall].
  intros row Hrow. now rewrite softmax_row_length.
Qed.

Lemma dense_shape (kernel bias x : tensor R) (act : activation) (r k u : nat) :
  shape x = [r; k] -> shape kernel = [k; u] -> shape bias = [u] ->
  exists z,
    tf_add (mk_tensor [r; u] (matmul_data r k u (data x) (data kernel))) bias
    = Ok z
    /\ shape z = [r; u] /\ length (data z) = r * u
    /\ dense kernel bias act x = Ok (apply_activation act z).
Proof.
  intros Hx Hk Hb. unfold dense.
  rewrite (tf_matmul_shape x kernel r k u Hx Hk). cbn [result_bind].
  destruct (tf_binary_shape Rplus
              (mk_tensor [r; u] (matmul_data r k u (data x) (data kernel)))
              bias [r; u]) as (z & Hz & Hshape & Hlen).
  { cbn [shape]. rewrite Hb. apply broadcast_shapes_bias. }
  exists z. unfold tf_add. rewrite Hz. cbn [result_bind].
  repeat split; try assumption. rewrite Hlen. cbn [numel fold_right]. lia.
Qed.

End Layers.

(** ** Checking the predictions of a batch *)

Section Loops.

Lemma for_each_from_success {A} (P : A -> Prop) (body : nat -> attempt A) :
  forall count first,
    (forall n, first <= n < first + count -> exists a, body n = Done a /\ P a) ->
    exists l, for_each_from first count body = Done l
              /\ length l = count /\ Forall P l.
Proof.
  induction count as [| count IH]; intros first Hbody.
  - exists []. repeat split. constructor.
  - destruct (Hbody first) as (a & Ha & HP); [lia |].
    destruct (IH (S first)) as (l & Hl & Hlen & Hall).
    { intros n Hn. apply Hbody. lia. }
    exists (a :: l). cbn [for_each_from]. rewrite Ha, Hl.
    repeat split; [cbn; lia | now constructor].
Qed.

Lemma for_each_from_failure {A} (body : nat -> attempt A) (f : failure) :
  forall count first done,
    done < count ->
    (forall n, first <= n < first + done -> exists a, body n = Done a) ->
    body (first + done) = Failed f ->
    for_each_from first count body = Failed f.
Proof.
  induction count as [| count IH]; intros first done Hlt Hbody Hfail; [lia |].
  cbn [for_each_from]. destruct done as [| done].
  - rewrite Nat.add_0_r in Hfail. now rewrite Hfail.
  - destruct (Hbody first) as (a & Ha); [lia |]. rewrite Ha.
    rewrite (IH (S first) done); [reflexivity | lia | |].
    + intros n Hn. apply Hbody. lia.
    + now replace (S first + done) with (first + S done) by lia.
Qed.

End Loops.

Section CheckPredictions.
Local Open Scope nat_scope.
Import Part8Plot.

Lemma for_each_from_map {A} (body : nat -> attempt A) (g : nat -> A) :
  forall count first,
    (forall n, first <= n < first + count -> body n = Done (g n)) ->
    for_each_from first count body = Done (map g (seq first count)).
Proof.
  induction count as [| count IH]; intros first Hbody; [reflexivity |].
  cbn [for_each_from seq map]. rewrite Hbody by lia.
  rewrite IH; [reflexivity |]. intros n Hn. apply Hbody. lia.
Qed.

Lemma skipn_cons_nth {A} (default : A) (d : list A) : forall m,
  m < length d -> skipn m d = nth m d default :: skipn (S m) d.
Proof.
  induction d as [| x d IH]; intros m Hm; [cbn in Hm; lia |].
  destruct m as [| m]; [reflexivity |].
  cbn [skipn nth]. apply IH. cbn in Hm. lia.
Qed.

Lemma row_of_two (d : list R) (n : nat) :
  n * 2 + 2 <= length d ->
  firstn 2 (skipn (n * 2) d) = [nth (n * 2) d 0%R; nth (n * 2 + 1) d 0%R].
Proof.
  intros Hlen.
  rewrite (skipn_cons_nth 0%R d (n * 2)) by lia.
  rewrite (skipn_cons_nth 0%R d (S (n * 2))) by lia.
  cbn [firstn]. now rewrite Nat.add_1_r.
Qed.

Lemma label_of (d : list Z) (n : nat) :
  n < length d -> firstn 1 (skipn (n * 1) d) = [nth n d 0%Z].
Proof.
  intros Hlen. rewrite Nat.mul_1_r.
  now rewrite (skipn_cons_nth 0%Z d n) by lia.
Qed.

(** One subplot, when the batch has an image, a prediction and a label at
    position [n]. *)
Lemma check_prediction_done (images ps : tensor R) (labels : tensor Z)
    (m k n : nat) (s : list nat) :
  shape images = m :: s -> shape ps = [k; 2] -> length (data ps) = k * 2 ->
  shape labels = [k] -> length (data labels) = k ->
  n < m -> n < k -> n < 30 ->
  check_prediction images ps labels n
  = Done (n + 1,
          if Rlt_dec (nth (n * 2) (data ps) 0%R) (nth (n * 2 + 1) (data ps) 0%R)
          then "dog" else "cat",
          if (Z.of_nat
                (if Rlt_dec (nth (n * 2) (data ps) 0%R)
                            (nth (n * 2 + 1) (data ps) 0%R)
                 then 1 else 0)
              =? nth n (data labels) 0%Z)%Z
          then "green" else "red").
Proof.
  intros Himages Hps Hpslen Hlabels Hlabelslen Hm Hn Hn30.
  unfold check_prediction, subplot, getitem.
  rewrite Himages, Hps, Hlabels.
  assert (Hpos : (1 <=? n + 1) && (n + 1 <=? 6 * 5) = true).
  { rewrite andb_true_iff, !Nat.leb_le. cbn. lia. }
  rewrite Hpos. cbn [attempt_bind].
  assert (Hlt : (n <? k) = true) by now apply Nat.ltb_lt.
  assert (Hltm : (n <? m) = true) by now apply Nat.ltb_lt.
  rewrite Hlt, Hltm. cbn [attempt_bind data numel fold_right Nat.mul].
  rewrite row_of_two by lia. rewrite label_of by lia.
  cbn [np_argmax argmax_from attempt_bind].
  destruct (Rlt_dec _ _); reflexivity.
Qed.

End CheckPredictions.

Lemma check_predictions_all
    (image_batch ps : tensor R) (label_batch : tensor Z) (k : nat) :
  shape image_batch = [k; 224; 224; 3]%nat ->
  shape ps = [k; 2]%nat -> length (data ps) = (k * 2)%nat ->
  shape label_batch = [k] -> length (data label_batch) = k ->
  (30 <= k)%nat ->
  Part8Plot.check_predictions image_batch ps label_batch
  = Done (map (fun n =>
                 let cat := nth (n * 2) (data ps) 0%R in
                 let dog := nth (n * 2 + 1) (data ps) 0%R in
                 (n + 1,
                  if Rlt_dec cat dog then "dog" else "cat",
                  if (Z.of_nat (if Rlt_dec cat dog then 1 else 0)
                      =? nth n (data label_batch) 0%Z)%Z
                  then "green" else "red")%nat)
              (seq 0 30)).
Proof.
  intros Himages Hps Hpslen Hlabels Hlabelslen Hk.
  unfold Part8Plot.check_predictions. apply for_each_from_map.
  intros n Hn. apply (check_prediction_done _ _ _ k k n [224; 224; 3]%nat);
    try assumption; try lia.
  unfold np_squeeze. rewrite Himages. cbn [shape List.filter].
  destruct k as [| [| k]]; [lia | lia | reflexivity].
Qed.

Lemma check_predictions_short
    (image_batch ps : tensor R) (label_batch : tensor Z) (k : nat) :
  shape image_batch = [k; 224; 224; 3]%nat ->
  shape ps = [k; 2]%nat -> length (data ps) = (k * 2)%nat ->
  shape label_batch = [k] -> length (data label_batch) = k ->
  (1 <= k < 30)%nat ->
  Part8Plot.check_predictions image_batch ps label_batch
  = Failed (IndexError k k).
Proof.
  intros Himages Hps Hpslen Hlabels Hlabelslen Hk.
  unfold Part8Plot.check_predictions.
  apply (for_each_from_failure _ _ 30 0 k); [lia | |].
  - intros n Hn.
    destruct (Nat.eq_dec k 1) as [-> | Hne].
    + eexists. apply (check_prediction_done _ _ _ 224 1 n [224; 3]%nat);
        try assumption; try lia.
      unfold np_squeeze. now rewrite Himages.
    + eexists. apply (check_prediction_done _ _ _ k k n [224; 224; 3]%nat);
        try assumption; try lia.
      unfold np_squeeze. rewrite Himages. cbn [shape List.filter].
      destruct k as [| [| k]]; [lia | lia | reflexivity].
  - cbn [Nat.add]. unfold Part8Plot.check_prediction, Part8Plot.subplot.
    assert (Hpos : (1 <=? k + 1)%nat && (k + 1 <=? 6 * 5)%nat = true).
    { rewrite andb_true_iff, !Nat.leb_le. cbn. lia. }
    rewrite Hpos. cbn [attempt_bind].
    destruct (Nat.eq_dec k 1) as [-> | Hne].
    + unfold np_squeeze, getitem. rewrite Himages, Hps. reflexivity.
    + unfold np_squeeze, getitem at 1. rewrite Himages. cbn [shape List.filter].
      destruct k as [| [| k]]; [lia | lia |].
      cbn [List.filter negb Nat.eqb]. rewrite Nat.ltb_irrefl. reflexivity.
Qed.

(** X8. The loop that checks the predictions, on a batch of k >= 1 colour
    images with k rows of two probabilities and k labels. With k >= 30 it
    draws 30 subplots at positions 1 to 30; the title of subplot n + 1 is
    "dog" when the second probability of row n is the larger and "cat"
    otherwise (also on a tie), and it is green exactly when that class is
    the label. With k < 30 it ends with an IndexError at index k. *)
Theorem check_predictions_of_batch
    (image_batch ps : tensor R) (label_batch : tensor Z) (k : nat) :
  shape image_batch = [k; 224; 224; 3]%nat ->
  shape ps = [k; 2]%nat -> length (data ps) = (k * 2)%nat ->
  shape label_batch = [k] -> length (data label_batch) = k ->
  (1 <= k)%nat ->
  Part8Plot.check_predictions image_batch ps label_batch
  = if (k <? 30)%nat
    then Failed (IndexError k k)
    else Done (map (fun n =>
                      let cat := nth (n * 2) (data ps) 0%R in
                      let dog := nth (n * 2 + 1) (data ps) 0%R in
                      (n + 1,
                       if Rlt_dec cat dog then "dog" else "cat",
                       if (Z.of_nat (if Rlt_dec cat dog then 1 else 0)
                           =? nth n (data label_batch) 0%Z)%Z
                       then "green" else "red")%nat)
                   (seq 0 30)).
Proof.
  intros Himages Hps Hpslen Hlabels Hlabelslen Hk.
  destruct (k <? 30)%nat eqn:Hshort.
  - apply Nat.ltb_lt in Hshort. apply check_predictions_short; auto.
  - apply Nat.ltb_ge in Hshort. now apply (check_predictions_all _ _ _ k).
Qed.

(** ** The shape of what the model predicts *)

Section Predict.
Local Open Scope nat_scope.
Import Keras.

Lemma relu_shape (z : tensor R) : shape (relu_activation z) = shape z.
Proof. reflexivity. Qed.

Lemma dense_relu (kernel bias x : tensor R) (r k u : nat) :
  shape x = [r; k] -> shape kernel = [k; u] -> shape bias = [u] ->
  exists y, dense kernel bias relu x = Ok y /\ shape y = [r; u].
Proof.
  intros Hx Hk Hb.
  destruct (dense_shape kernel bias x relu r k u Hx Hk Hb)
    as (z & _ & Hshape & _ & Hdense).
  exists (relu_activation z). split; [exact Hdense | exact Hshape].
Qed.

Lemma length_concat_exact {A} (c : nat) (rws : list (list A)) :
  Forall (fun row => length row = c) rws ->
  length (concat rws) = length rws * c.
Proof.
  induction 1 as [| row rws Hrow _ IH]; [reflexivity |].
  cbn [concat length]. rewrite length_app, IH, Hrow. lia.
Qed.

Lemma dense_softmax_length (kernel bias x : tensor R) (r k u : nat) :
  shape x = [r; k] -> shape kernel = [k; u] -> shape bias = [u] ->
  exists ps,
    Keras.dense kernel bias Keras.softmax x = Ok ps
    /\ shape ps = [r; u]
    /\ length (data ps) = r * u.
Proof.
  intros Hx Hk Hb.
  destruct (dense_shape kernel bias x Keras.softmax r k u Hx Hk Hb)
    as (z & _ & Hshape & Hlen & Hdense).
  destruct (Nat.eq_dec u 0) as [-> | Hu].
  - exists (Keras.softmax_activation z). split; [exact Hdense |].
    split; [exact Hshape |].
    unfold Keras.softmax_activation, Keras.rows. cbn [data]. rewrite Hshape.
    cbn [List.last].
    destruct (data z); [| cbn in Hlen; lia]. rewrite chunks_nil. cbn. lia.
  - destruct (softmax_activation_rows z r u Hshape Hlen ltac:(lia))
      as (Hs & Hrows & Hcount & Hall).
    exists (Keras.softmax_activation z). split; [exact Hdense |].
    split; [exact Hs |].
    unfold Keras.rows in Hcount, Hall. rewrite Hs in Hcount, Hall.
    cbn [List.last] in Hcount, Hall.
    rewrite <- (concat_chunks u (data (Keras.softmax_activation z))) by lia.
    rewrite (length_concat_exact u); [now rewrite Hcount |].
    exact Hall.
Qed.

End Predict.

(** X6. With kernels and biases of the shapes its layers declare, the model
    of Part 3 accepts a batch of b images of shape (28, 28, 1) and returns
    a tensor of shape (b, 10) holding 10 b values: the shapes agree from
    layer to layer, 784 to 128 to 64 to 10. *)
Theorem predict_shape
    (weights : list (tensor R * tensor R)) (image_batch : tensor R) (b : nat) :
  map (fun w => (shape (fst w), shape (snd w))) weights
  = Keras.weight_shapes Part3Model.model 0 ->
  shape image_batch = [b; 28; 28; 1]%nat ->
  exists ps : tensor R,
    Part3Model.predict weights image_batch = Ok ps
    /\ shape ps = [b; 10]%nat
    /\ length (data ps) = (b * 10)%nat.
Proof.
  intros Hweights Himage.
  destruct weights as [| [W1 b1] [| [W2 b2] [| [W3 b3] [| ? ?]]]];
    try discriminate.
  cbn in Hweights. injection Hweights as HW1 Hb1 HW2 Hb2 HW3 Hb3.
  unfold Part3Model.predict, Part3Model.model. cbn [Keras.forward].
  unfold Keras.flatten. rewrite Himage.
  rewrite bool_decide_eq_true_2 by reflexivity. cbn [result_bind].
  destruct (dense_relu W1 b1 (mk_tensor [b; numel [28; 28; 1]%nat]
                                        (data image_batch)) b 784 128)
    as (h1 & Hh1 & Hs1); [reflexivity | assumption | assumption |].
  rewrite Hh1. cbn [result_bind].
  destruct (dense_relu W2 b2 h1 b 128 64) as (h2 & Hh2 & Hs2);
    [assumption | assumption | assumption |].
  rewrite Hh2. cbn [result_bind].
  destruct (dense_softmax_length W3 b3 h2 b 64 10) as (ps & Hps & Hshape & Hlen);
    [assumption | assumption | assumption |].
  rewrite Hps. cbn [result_bind]. now exists ps.
Qed.

(** ** The normalisation, the printed figures and the split *)

(** X11. On images with pixel values in [0, 255], [normalize] loses
    nothing: multiplying its image by 255 gives the input image back (cast
    to float), and two such inputs with the same result are the same image
    with the same label. *)
Theorem normalize_is_invertible {L : Type}
    (image other : tensor Z) (label other_label : L) :
  Forall (fun v => (0 <= v <= 255)%Z) (data image) ->
  Forall (fun v => (0 <= v <= 255)%Z) (data other) ->
  rmul 255 (fst (Part3.normalize image label)) = tf_cast image
  /\ (Part3.normalize image label = Part3.normalize other other_label ->
      image = other /\ label = other_label).
Proof.
  intros _ _. split.
  - destruct image as [s d].
    unfold Part3.normalize, rmul, truediv, tf_cast, tensor_map.
    cbn [fst shape data]. f_equal. rewrite !map_map. apply map_ext.
    intros v. field.
  - unfold Part3.normalize, truediv, tf_cast, tensor_map. cbn [shape data].
    intros Heq. injection Heq as Hshape Hdata Hlabel. split; [| exact Hlabel].
    destruct image as [s d], other as [s' d']. cbn [shape data] in *.
    f_equal; [exact Hshape |].
    rewrite !map_map in Hdata.
    revert d' Hdata. induction d as [| v d IH]; intros [| v' d'] Hdata;
      try discriminate; [reflexivity |].
    cbn [map] in Hdata. injection Hdata as Hv Hrest. f_equal; [| now apply IH].
    apply eq_IZR. lra.
Qed.

Lemma normalize_is_invertible_witness :
  rmul 255 (fst (Part3.normalize sample_image sample_label))
  = tf_cast sample_image.
Proof.
  apply (normalize_is_invertible sample_image sample_image
           sample_label sample_label);
    repeat constructor; cbn; lia.
Defined.

(** X12. The two exercise cells of Part 3 only print [loss] and [accuracy].
    Run after the cells above them, both print the figures of the last
    evaluation, the one made after training, so the lines captioned
    "before training" show the trained model's figures. In a fresh kernel
    the first of them ends with NameError on [loss]. *)
Theorem exercise_cells_print_trained_figures (results : nat -> R * R) :
  (exists k,
     Part3Report.run results = Ok k
     /\ Part3Report.printed k
        = [ (fst Part3Report.before_captions, fst (results 0%nat));
            (snd Part3Report.before_captions, snd (results 0%nat));
            (fst Part3Report.after_captions, fst (results 1%nat));
            (snd Part3Report.after_captions, snd (results 1%nat));
            (fst Part3Report.before_captions, fst (results 1%nat));
            (snd Part3Report.before_captions, snd (results 1%nat));
            (fst Part3Report.after_captions, fst (results 1%nat));
            (snd Part3Report.after_captions, snd (results 1%nat)) ])
  /\ Part3Report.exercise_before Part3Report.fresh = Raise (NameError "loss").
Proof.
  split; [| reflexivity].
  unfold Part3Report.run, Part3Report.evaluate_before,
    Part3Report.evaluate_after, Part3Report.evaluate, Part3Report.fresh.
  cbn [Part3Report.evaluations Part3Report.printed].
  destruct (results 0%nat) as [l0 a0] eqn:H0.
  cbn. destruct (results 1%nat) as [l1 a1] eqn:H1.
  cbn. eexists. split; reflexivity.
Qed.

(** X13. The training split of Part 8 is 60% of the examples rounded down,
    and the shuffle buffer a quarter of that rounded down: the buffer holds
    at most 15% of the data set, and is empty exactly when there are fewer
    than 7 examples. *)
Theorem shuffle_buffer_bounds (total_num_examples : nat) :
  (100 * Part8Split.num_training_examples total_num_examples
   <= 60 * total_num_examples
   < 100 * (Part8Split.num_training_examples total_num_examples + 1))%nat
  /\ (4 * Part8Split.shuffle_buffer total_num_examples
      <= Part8Split.num_training_examples total_num_examples
      < 4 * (Part8Split.shuffle_buffer total_num_examples + 1))%nat
  /\ (20 * Part8Split.shuffle_buffer total_num_examples
      <= 3 * total_num_examples)%nat
  /\ (Part8Split.shuffle_buffer total_num_examples = 0%nat
      <-> (total_num_examples < 7)%nat).
Proof.
  unfold Part8Split.shuffle_buffer, Part8Split.num_training_examples,
    Part8Split.train_split.
  pose proof (Nat.div_mod_eq (total_num_examples * 60) 100) as H1.
  pose proof (Nat.mod_upper_bound (total_num_examples * 60) 100 ltac:(lia)) as H2.
  pose proof (Nat.div_mod_eq (total_num_examples * 60 / 100) 4) as H3.
  pose proof (Nat.mod_upper_bound (total_num_examples * 60 / 100) 4 ltac:(lia)) as H4.
  repeat split; lia.
Qed.

(** ** The pipelines and the plots on sample inputs *)

(** X3. The training pipeline of Part 3 batches before it maps: with a
    shuffle buffer of at least one element, when the first two images the
    shuffle yields differ in shape, iterating the pipeline ends with the
    framework's error that they cannot be batched. *)
Theorem training_batches_needs_one_shape (num_training_examples : nat)
    (order : list nat) (ds : dataset (tensor Z * tensor Z))
    (x y : tensor Z * tensor Z) (rest : list (tensor Z * tensor Z)) :
  (4 <= num_training_examples)%nat ->
  ds_shuffle order ds = x :: y :: rest ->
  shape (fst x) <> shape (fst y) ->
  Part3Pipeline.training_batches num_training_examples order ds
  = Raise (InvalidArgumentError
             (CannotBatchShapes (shape (fst x)) (shape (fst y)))).
Proof.
  intros Hnum Hshuffled Hdiffer.
  rewrite training_batches_with_buffer by exact Hnum.
  apply (batch_then_map_unequal_shapes Part3.normalize 64 order ds x y rest);
    [lia | exact Hshuffled | exact Hdiffer].
Qed.

Lemma training_batches_needs_one_shape_witness :
  Part3Pipeline.training_batches 4 [0; 1; 2; 3]%nat sample_mixed_set
  = Raise (InvalidArgumentError
             (CannotBatchShapes [1; 1; 3]%nat [1; 2; 3]%nat)).
Proof.
  apply (training_batches_needs_one_shape 4 [0; 1; 2; 3]%nat sample_mixed_set
           (sample_image, sample_label)
           (mk_tensor [1; 2; 3]%nat [255; 0; 0; 0; 0; 255]%Z, tf_constant 0%Z)
           sample_colour_dataset).
  - lia.
  - reflexivity.
  - cbn. discriminate.
Defined.

(** X5. [first_image = image_batch.numpy().squeeze()[0]] on a batch of k
    images of shape (28, 28, 1): with k >= 2 it is the first image, as a
    28 by 28 array; with k = 1 the squeeze also drops the batch dimension
    and it is the first row of 28 pixels; with k = 0 it is an IndexError. *)
Theorem first_image_of_squeezed_batch (image_batch : tensor R) (k : nat) :
  shape image_batch = [k; 28; 28; 1]%nat ->
  Part3Plot.first_image image_batch
  = match k with
    | 0%nat => Failed (IndexError 0 0)
    | 1%nat => Done (mk_tensor [28]%nat (firstn 28 (data image_batch)))
    | _ => Done (mk_tensor [28; 28]%nat (firstn 784 (data image_batch)))
    end.
Proof.
  intros Hshape. destruct k as [| [| k]].
  - unfold Part3Plot.first_image, np_squeeze, getitem. now rewrite Hshape.
  - now apply first_image_of_single.
  - apply (first_image_of_batch image_batch (S (S k))); [exact Hshape | lia].
Qed.

Lemma first_image_of_squeezed_batch_witness :
  Part3Plot.first_image sample_image_batch
  = Done (mk_tensor [28; 28]%nat (firstn 784 (data sample_image_batch))).
Proof.
  apply (first_image_of_squeezed_batch sample_image_batch 2). reflexivity.
Defined.

Lemma training_batches_sizes_witness :
  exists batches : dataset (tensor R * tensor Z),
    Part3Pipeline.training_batches 4 [0; 1; 2; 3]%nat sample_training_set
    = Ok batches
    /\ length batches = 1%nat
    /\ Forall (fun batch =>
                 exists k : nat,
                   (1 <= k <= 64)%nat
                   /\ shape (fst batch) = k :: [1; 2; 1]%nat
                   /\ shape (snd batch) = [k]) batches
    /\ Forall (fun batch => shape (fst batch) = 64%nat :: [1; 2; 1]%nat)
              (removelast batches).
Proof.
  apply (training_batches_sizes 4 [0; 1; 2; 3]%nat [1; 2; 1]%nat
           sample_training_set).
  - apply Permutation_refl.
  - repeat constructor.
  - lia.
Defined.

Lemma training_batches_content_witness :
  exists batches : dataset (tensor R * tensor Z),
    Part3Pipeline.training_batches 4 [0; 1; 2; 3]%nat sample_training_set
    = Ok batches
    /\ concat (map (fun batch => data (fst batch)) batches)
       = concat (map (fun e => map (fun v => (IZR v / 255)%R) (data (fst e)))
                     (ds_shuffle [0; 1; 2; 3]%nat sample_training_set))
    /\ concat (map (fun batch => data (snd batch)) batches)
       = concat (map (fun e => data (snd e))
                     (ds_shuffle [0; 1; 2; 3]%nat sample_training_set))
    /\ Forall (fun batch => Forall (fun v => (0 <= v <= 1)%R) (data (fst batch)))
              batches.
Proof.
  apply (training_batches_content 4 [0; 1; 2; 3]%nat [1; 2; 1]%nat
           sample_training_set).
  - lia.
  - repeat constructor.
  - repeat constructor; cbn; lia.
Defined.

Lemma sample_colour_dataset_colour : Forall colour_image sample_colour_dataset.
Proof.
  constructor; [| constructor; [| constructor]].
  - exists 1%nat, 1%nat. cbn. repeat split; try lia; repeat constructor; lia.
  - exists 1%nat, 2%nat. cbn. repeat split; try lia; repeat constructor; lia.
Defined.

Lemma sample_colour_training_set_colour :
  Forall colour_image sample_colour_training_set.
Proof.
  unfold sample_colour_training_set.
  repeat (apply List.Forall_app; split); exact sample_colour_dataset_colour.
Defined.

Lemma transfer_batches_from_mixed_sizes_witness :
  Forall colour_image sample_colour_training_set
  /\ exists batches,
       Part8Pipeline.training_batches 10 [0; 1; 2; 3; 4; 5]%nat
         sample_colour_training_set
       = Ok batches
       /\ length batches
          = ((length (ds_shuffle [0; 1; 2; 3; 4; 5]%nat
                        sample_colour_training_set) + 31) / 32)%nat
       /\ Forall formatted_batch batches.
Proof.
  split; [exact sample_colour_training_set_colour |].
  destruct (transfer_batches_from_mixed_sizes 10 [0; 1; 2; 3; 4; 5]%nat
              sample_colour_training_set sample_colour_training_set_colour)
    as (_ & Htraining & _).
  apply Htraining. lia.
Defined.

Lemma predict_shape_witness :
  exists ps : tensor R,
    Part3Model.predict sample_model_weights sample_image_batch = Ok ps
    /\ shape ps = [2; 10]%nat
    /\ length (data ps) = 20%nat.
Proof.
  apply (predict_shape sample_model_weights sample_image_batch 2);
    reflexivity.
Defined.

Lemma check_predictions_of_batch_witness :
  Part8Plot.check_predictions (sample_colour_batch 30) (sample_predictions 30)
    (sample_labels 30)
  = Done (map (fun n =>
                 let cat := nth (n * 2) (data (sample_predictions 30)) 0%R in
                 let dog := nth (n * 2 + 1) (data (sample_predictions 30)) 0%R in
                 (n + 1,
                  if Rlt_dec cat dog then "dog" else "cat",
                  if (Z.of_nat (if Rlt_dec cat dog then 1 else 0)
                      =? nth n (data (sample_labels 30)) 0%Z)%Z
                  then "green" else "red")%nat)
              (seq 0 30)).
Proof.
  apply (check_predictions_of_batch (sample_colour_batch 30)
           (sample_predictions 30) (sample_labels 30) 30);
    first [reflexivity | lia].
Defined.

(** ** The cell that checks the predictions *)

Section FirstBatch.
Local Open Scope nat_scope.
Context `{ImageResize}.

Lemma format_image_label {L} (image : tensor Z) (label : L) (out : tensor R * L) :
  Part8.format_image image label = Ok out -> snd out = label.
Proof.
  unfold Part8.format_image.
  destruct (tf_image_resize (tf_cast image) (Part8.image_size, Part8.image_size));
    cbn [result_bind]; [| discriminate].
  intros Hout. injection Hout as <-. reflexivity.
Qed.

Lemma ds_map_result_format_image_labels :
  forall (l : dataset (tensor Z * tensor Z)) (formatted : dataset (tensor R * tensor Z)),
    ds_map_result Part8.format_image l = Ok formatted ->
    map snd formatted = map snd l.
Proof.
  unfold ds_map_result. induction l as [| [image label] l IH]; intros formatted.
  - cbn [result_all]. intros Hout. now injection Hout as <-.
  - cbn [result_all].
    destruct (Part8.format_image image label) as [out | e] eqn:Hout; [| discriminate].
    destruct (result_all _ l) as [rest | e]; cbn [result_map result_bind];
      [| discriminate].
    intros Heq. injection Heq as <-. cbn [map snd].
    rewrite (format_image_label image label out Hout). f_equal. now apply IH.
Qed.

Lemma firstn_labels {A B} (f : A -> B) (n : nat) (l : list A) :
  map f (firstn n l) = firstn n (map f l).
Proof. symmetry. apply firstn_map. Qed.

(** The first batch the testing pipeline yields. *)
Lemma testing_batches_first (test_set : dataset (tensor Z * tensor Z)) :
  Forall colour_image test_set ->
  Forall (fun e => well_formed (snd e)) test_set ->
  test_set <> [] ->
  exists (image_batch : tensor R) (label_batch : tensor Z)
         (rest : dataset (tensor R * tensor Z)),
    Part8.testing_batches test_set = Ok ((image_batch, label_batch) :: rest)
    /\ shape image_batch = [Nat.min 32 (length test_set); 224; 224; 3]
    /\ shape label_batch = [Nat.min 32 (length test_set)]
    /\ length (data label_batch) = Nat.min 32 (length test_set).
Proof.
  intros Hall Hlabels Hne.
  destruct (ds_map_result_format_image test_set Hall)
    as (formatted & Hmap & Hlen & Hfmt).
  pose proof (ds_map_result_format_image_labels test_set formatted Hmap) as Hsnd.
  unfold Part8.testing_batches. rewrite Hmap. cbn [result_bind].
  unfold Part8.batch_size.
  rewrite (ds_batch_same_shape 32 [224; 224; 3] []); [| lia |].
  2:{ eapply List.Forall_impl; [| exact Hfmt]. intros e (Hs & _ & Hl). now split. }
  assert (Hfne : formatted <> []).
  { destruct formatted; [| discriminate]. destruct test_set; [contradiction |].
    cbn in Hlen. lia. }
  rewrite chunks_step by (lia || assumption).
  cbn [result_map result_bind map]. unfold ds_prefetch.
  eexists _, _, _. split; [reflexivity |].
  cbn [shape data]. rewrite length_firstn, Hlen.
  split; [reflexivity |]. split; [reflexivity |].
  rewrite <- (map_map snd data), firstn_labels, Hsnd, <- firstn_labels.
  rewrite (length_concat_exact 1).
  - rewrite !length_map, length_firstn. lia.
  - apply List.Forall_map, List.Forall_map.
    apply Forall_take.
    assert (Hboth : Forall (fun e => colour_image e /\ well_formed (snd e)) test_set).
    { rewrite List.Forall_forall in *. intros e He. split; auto. }
    eapply List.Forall_impl; [| exact Hboth].
    intros e [(h & w & _ & _ & _ & _ & _ & Hshape) Hwf].
    unfold well_formed in Hwf. rewrite Hwf, Hshape. reflexivity.
Qed.

End FirstBatch.

Section CheckCell.
Local Open Scope nat_scope.

Lemma squeeze_colour_batch (image_batch : tensor R) (k : nat) :
  shape image_batch = [k; 224; 224; 3] -> 2 <= k ->
  shape (np_squeeze image_batch) = [k; 224; 224; 3].
Proof.
  intros Hshape Hk. unfold np_squeeze. rewrite Hshape. cbn [shape List.filter].
  destruct k as [| [| k]]; [lia | lia | reflexivity].
Qed.

End CheckCell.

(** X9. The cell that checks the predictions, end to end: the first batch
    of [testing_batches], the model's predictions for it, and the loop of
    30 subplots. On a test set of at least 30 colour images it draws the
    subplots 1 to 30, each titled with one of the two class names in green
    or red. On a test set of 1 to 29 images it ends with an IndexError at
    the number of images, and on an empty one with NameError on [images]. *)
Theorem check_predictions_cell_outcome `{ImageResize}
    (feature_extractor : tensor R -> result (tensor R))
    (kernel bias : tensor R) (test_set : dataset (tensor Z * tensor Z))
    (d : nat) :
  Forall colour_image test_set ->
  Forall (fun e => well_formed (snd e)) test_set ->
  (forall (image_batch : tensor R) (k : nat),
      shape image_batch = [k; 224; 224; 3]%nat ->
      exists features,
        feature_extractor image_batch = Ok features
        /\ shape features = [k; d]) ->
  shape kernel = [d; 2%nat] -> shape bias = [2%nat] ->
  (test_set = [] ->
   Part8Check.check_predictions_cell feature_extractor kernel bias test_set
   = Failed (Raised (NameError "images")))
  /\ ((1 <= length test_set < 30)%nat ->
      Part8Check.check_predictions_cell feature_extractor kernel bias test_set
      = Failed (IndexError (length test_set) (length test_set)))
  /\ ((30 <= length test_set)%nat ->
      exists titles,
        Part8Check.check_predictions_cell feature_extractor kernel bias test_set
        = Done titles
        /\ map (fun t => fst (fst t)) titles = seq 1 30
        /\ Forall (fun t => In (snd (fst t)) Part8Plot.class_names
                            /\ In (snd t) ["green"; "red"]) titles).
Proof.
  intros Hall Hlabels Hextractor Hkernel Hbias.
  assert (Hrun : test_set <> [] ->
    exists (image_batch ps : tensor R) (label_batch : tensor Z),
      Part8Check.check_predictions_cell feature_extractor kernel bias test_set
      = Part8Plot.check_predictions image_batch ps label_batch
      /\ shape image_batch
         = [Nat.min 32 (length test_set); 224; 224; 3]%nat
      /\ shape ps = [Nat.min 32 (length test_set); 2]%nat
      /\ length (data ps) = (Nat.min 32 (length test_set) * 2)%nat
      /\ shape label_batch = [Nat.min 32 (length test_set)]
      /\ length (data label_batch) = Nat.min 32 (length test_set)).
  { intros Hne.
    destruct (testing_batches_first test_set Hall Hlabels Hne)
      as (image_batch & label_batch & rest & Hbatches & Himages & Hlabel & Hlen).
    destruct (Hextractor image_batch _ Himages) as (features & Hfeatures & Hshape).
    destruct (dense_softmax_length kernel bias features _ d 2 Hshape Hkernel Hbias)
      as (ps & Hps & Hpshape & Hpslen).
    exists image_batch, ps, label_batch.
    unfold Part8Check.check_predictions_cell. rewrite Hbatches.
    cbn [of_result attempt_bind]. unfold Part8Model.predict.
    rewrite Hfeatures. cbn [result_bind]. rewrite Hps. cbn [of_result attempt_bind].
    now repeat split. }
  split; [| split].
  - intros ->. reflexivity.
  - intros Hshort.
    destruct Hrun as (image_batch & ps & label_batch & -> & H1 & H2 & H3 & H4 & H5).
    { destruct test_set; [cbn in Hshort; lia | discriminate]. }
    rewrite Nat.min_r in * by lia.
    now apply check_predictions_short.
  - intros Hlong.
    destruct Hrun as (image_batch & ps & label_batch & -> & H1 & H2 & H3 & H4 & H5).
    { destruct test_set; [cbn in Hlong; lia | discriminate]. }
    eexists. split.
    + apply (check_predictions_all image_batch ps label_batch
               (Nat.min 32 (length test_set))); try assumption. lia.
    + split; [rewrite map_map; reflexivity |].
      apply List.Forall_map, List.Forall_forall. intros n _. cbn [fst snd].
      unfold Part8Plot.class_names.
      destruct (Rlt_dec _ _); destruct (_ =? _)%Z; cbn; auto.
Qed.

Lemma sample_test_set_colour : Forall colour_image sample_test_set.
Proof.
  apply List.Forall_forall. intros e He. apply repeat_spec in He. subst e.
  exists 1%nat, 1%nat. cbn. repeat split; try lia; repeat constructor; lia.
Defined.

Lemma sample_test_set_labels :
  Forall (fun e => well_formed (snd e)) sample_test_set.
Proof.
  apply List.Forall_forall. intros e He. apply repeat_spec in He. subst e.
  reflexivity.
Defined.

Lemma sample_feature_extractor_shape (image_batch : tensor R) (k : nat) :
  shape image_batch = [k; 224; 224; 3]%nat ->
  exists features,
    sample_feature_extractor image_batch = Ok features
    /\ shape features = [k; 4%nat].
Proof.
  intros Hshape. unfold sample_feature_extractor. rewrite Hshape.
  eexists. split; reflexivity.
Defined.

Lemma check_predictions_cell_outcome_witness :
  exists titles,
    Part8Check.check_predictions_cell sample_feature_extractor sample_kernel
      sample_class_bias sample_test_set
    = Done titles
    /\ map (fun t => fst (fst t)) titles = seq 1 30
    /\ Forall (fun t => In (snd (fst t)) Part8Plot.class_names
                        /\ In (snd t) ["green"; "red"]) titles.
Proof.
  apply (check_predictions_cell_outcome sample_feature_extractor sample_kernel
           sample_class_bias sample_test_set 4
           sample_test_set_colour sample_test_set_labels
           sample_feature_extractor_shape eq_refl eq_refl).
  unfold sample_test_set. rewrite repeat_length. lia.
Defined.

(** ** The definitions at work *)

Section Examples.
Local Open Scope R_scope.

Example broadcast_shapes_examples :
  broadcast_shapes [] [1; 1]%nat = Some [1; 1]%nat
  /\ broadcast_shapes [2; 3]%nat [3]%nat = Some [2; 3]%nat
  /\ broadcast_shapes [1; 5]%nat [5; 1]%nat = Some [5; 5]%nat
  /\ broadcast_shapes [2; 3]%nat [2]%nat = None.
Proof. repeat split; reflexivity. Qed.

Example chunks_example :
  chunks 2 [1; 2; 3; 4; 5]%nat = [[1; 2]; [3; 4]; [5]]%nat.
Proof. reflexivity. Qed.

(** The sample data set, visited in the order 2, 0, 1 and batched by two. *)
Example training_pipeline_on_sample :
  batch_then_map Part3.normalize 2 [2; 0; 1]%nat sample_dataset
  = Ok [ (mk_tensor [2; 1; 2; 1]%nat [204 / 255; 255 / 255; 0 / 255; 51 / 255],
          mk_tensor [2]%nat [1; 7]%Z);
         (mk_tensor [1; 1; 2; 1]%nat [102 / 255; 153 / 255],
          mk_tensor [1]%nat [2]%Z) ].
Proof. reflexivity. Qed.

(** Images of different shapes cannot be batched. *)
Example batch_of_unequal_shapes :
  ds_batch 2 [ (mk_tensor [1; 2; 1]%nat [0; 51]%Z, tf_constant 7%Z);
               (mk_tensor [2; 1; 1]%nat [102; 153]%Z, tf_constant 2%Z) ]
  = Raise (InvalidArgumentError
             (CannotBatchShapes [1; 2; 1]%nat [2; 1; 1]%nat)).
Proof. reflexivity. Qed.

Example matmul_of_sample :
  tf_matmul sample_features sample_weights false true
  = Ok (mk_tensor [1; 1]%nat [35]).
Proof.
  unfold tf_matmul, operand, sample_features, sample_weights.
  cbn [shape data Nat.eqb]. do 2 f_equal.
  unfold matmul_data, transpose_data, entry, sum_list. cbn. f_equal. lra.
Qed.

(** The three cells left blank in the first notebook do not parse; every
    other cell of it runs. *)
Example part1_outcomes :
  Notebook.outcomes Part1Cells.notebook Notebook.empty_world
  = [Ok tt; Ok tt; Ok tt; Ok tt; Ok tt; Ok tt; Raise SyntaxError; Ok tt;
     Raise SyntaxError; Ok tt; Ok tt; Raise SyntaxError; Ok tt; Ok tt; Ok tt;
     Ok tt; Ok tt; Ok tt; Ok tt; Ok tt; Ok tt].
Proof. reflexivity. Qed.

(** When [model.fit] fails, its cell ends with the exception and the cells
    after it are run all the same. *)
Example training_notebook_with_failing_fit :
  let w := Notebook.mk_world [] [] ∅ [] [] [] []
             (fun name => if String.eqb name "model.fit"
                          then Some (InvalidArgumentError BadBatchSize)
                          else None) in
  nth_error (Notebook.outcomes (Part3Cells.notebook 938) w) 10
  = Some (Raise (InvalidArgumentError BadBatchSize))
  /\ Notebook.model_calls (Notebook.run (Part3Cells.notebook 938) w)
     = [Notebook.Construct; Notebook.Compile; Notebook.Evaluate; Notebook.Fit;
        Notebook.Predict; Notebook.Evaluate].
Proof. split; reflexivity. Qed.

End Examples.
